(** * The Otter AI transcript importer, embedded in Rocq

    This development embeds [scripts/import_otter_ai.py] (the transcript
    parser [parse_otter_docx], the orchestrator [import_otter_export] and
    the command line) and [scripts/batch_upload.py] (the storage key, the
    metadata of a path, the dry run and the upload loop), proves or
    refutes the properties that the specification states about them, and
    proves further properties that the code shows.

    Conventions of the embedding.
    - Python [str] is [string]; a character is an [ascii].  The character
      classes of [re] ([\s], [\d], [\w], [.]) and of [str.strip] are those
      of Python on code points below 128, so the embedding is exact on
      ASCII text.  A code point above 127 is the sequence of its UTF-8
      bytes, and each of these bytes is an ordinary symbol: no space, no
      digit, no word character.  This is exact for symbols such as the
      bullet of the date line, and not for the spaces, digits and letters
      that Unicode has beyond ASCII.
    - Python [int] is [Z]; the limit that recent interpreters put on the
      number of digits given to [int()] is not modelled.
    - A [None]-able value is an [option]; an exception is the [Raised]
      constructor of [exn].
    - The regular expressions of the source are written as values of the
      type [re] and run by a backtracking matcher with the priorities of
      Python's [re] module: alternatives from left to right, greedy
      repetitions longest first, lazy ones shortest first.
    - The document, the catalog and the bucket are explicit: the parser
      takes the texts of the paragraphs, the orchestrator transforms a
      [World].  Failures of the database and of the file system are not
      modelled in the orchestrator; in the upload loop of
      [batch_upload.py], which catches them, they are answers of the
      environment.  The duration that [ffprobe] reports is a float and
      stays abstract. *)

From Stdlib Require Import String Ascii List ZArith NArith Lia Bool Arith
  DecimalString.
Import ListNotations.
Open Scope string_scope.

(* ===================================================================== *)
(** * Characters and strings *)
(* ===================================================================== *)

Module Chars.

Definition code (c : ascii) : N := N_of_ascii c.

Definition between (lo hi : N) (c : ascii) : bool :=
  (N.leb lo (code c) && N.leb (code c) hi)%bool.

(** [str.isspace] on code points below 128: TAB..CR, FS..US and SPACE;
    this is also the class of [\s] for a [str] pattern. *)
Definition is_space (c : ascii) : bool :=
  (between 9 13 c || between 28 32 c)%bool.

(** [\d] *)
Definition is_digit (c : ascii) : bool := between 48 57 c.

Definition is_upper (c : ascii) : bool := between 65 90 c.
Definition is_lower (c : ascii) : bool := between 97 122 c.
Definition is_alpha (c : ascii) : bool := (is_upper c || is_lower c)%bool.
Definition is_alnum (c : ascii) : bool := (is_alpha c || is_digit c)%bool.

(** [\w]: alphanumerics and the underscore. *)
Definition is_word (c : ascii) : bool := (is_alnum c || Ascii.eqb c "_")%bool.

(** [.] without DOTALL: anything but a newline. *)
Definition is_dot (c : ascii) : bool := negb (Ascii.eqb c "010").

Definition same (a : ascii) (c : ascii) : bool := Ascii.eqb a c.

(** [str.lower] on one character. *)
Definition lower (c : ascii) : ascii :=
  if is_upper c then ascii_of_N (code c + 32) else c.

(** A literal letter under [re.IGNORECASE]. *)
Definition is_nocase (a : ascii) (c : ascii) : bool :=
  Ascii.eqb (lower a) (lower c).

Definition is_hex (c : ascii) : bool :=
  (is_digit c || between 97 102 c)%bool.

End Chars.

Module Str.

Fixpoint all (p : ascii -> bool) (s : string) : bool :=
  match s with
  | EmptyString => true
  | String c s' => (p c && all p s')%bool
  end.

Fixpoint map (f : ascii -> ascii) (s : string) : string :=
  match s with
  | EmptyString => EmptyString
  | String c s' => String (f c) (map f s')
  end.

Definition nonempty (s : string) : bool :=
  match s with EmptyString => false | String _ _ => true end.

(** [c in s] *)
Fixpoint contains (c : ascii) (s : string) : bool :=
  match s with
  | EmptyString => false
  | String a s' => (Ascii.eqb a c || contains c s')%bool
  end.

(** [s.lstrip()] *)
Fixpoint lstrip (s : string) : string :=
  match s with
  | EmptyString => EmptyString
  | String c s' => if Chars.is_space c then lstrip s' else s
  end.

(** [s.rstrip()] *)
Fixpoint rstrip (s : string) : string :=
  match s with
  | EmptyString => EmptyString
  | String c s' =>
      match rstrip s' with
      | EmptyString => if Chars.is_space c then EmptyString else String c EmptyString
      | t => String c t
      end
  end.

(** [s.strip()] *)
Definition strip (s : string) : string := rstrip (lstrip s).

(** [s.lstrip(c)] for a one-character argument. *)
Fixpoint lstrip_char (a : ascii) (s : string) : string :=
  match s with
  | EmptyString => EmptyString
  | String c s' => if Ascii.eqb c a then lstrip_char a s' else s
  end.

(** [s.split(sep)] for a one-character separator: always at least one
    piece. *)
Fixpoint split (sep : ascii) (s : string) : list string :=
  match s with
  | EmptyString => [EmptyString]
  | String c s' =>
      if Ascii.eqb c sep then EmptyString :: split sep s'
      else match split sep s' with
           | [] => [String c EmptyString]
           | p :: ps => String c p :: ps
           end
  end.

(** [sep.join(l)] *)
Definition join (sep : string) (l : list string) : string := String.concat sep l.

(** [s.startswith(p)] *)
Definition startswith (p s : string) : bool := String.prefix p s.

(** [s[:n]] *)
Fixpoint take (n : nat) (s : string) : string :=
  match n, s with
  | S n', String c s' => String c (take n' s')
  | _, _ => EmptyString
  end.

End Str.

(* ===================================================================== *)
(** * Regular expressions with Python's backtracking priorities *)
(* ===================================================================== *)

Module Re.

Inductive re : Type :=
| Eps                                               (* empty pattern *)
| Chr (p : ascii -> bool)                           (* one character of a class *)
| Seq (r1 r2 : re)                                  (* r1 r2 *)
| Alt (r1 r2 : re)                                  (* r1|r2 *)
| Rep (greedy : bool) (lo : nat) (hi : option nat)
      (p : ascii -> bool)                           (* p{lo,hi} or p{lo,hi}? *)
| Opt (r : re)                                      (* (?:r)? *)
| Grp (n : nat) (r : re)                            (* capturing group n *)
| Bos                                               (* ^ *)
| Eos.                                              (* $ *)

(** The groups that took part in a match, most recent first. *)
Definition caps : Type := list (nat * string).

Fixpoint group (m : caps) (n : nat) : option string :=
  match m with
  | [] => None
  | (k, t) :: m' => if Nat.eqb k n then Some t else group m' n
  end.

Definition room (hi : option nat) : bool :=
  match hi with Some 0 => false | _ => true end.

Definition less (hi : option nat) : option nat :=
  match hi with Some h => Some (pred h) | None => None end.

(** Repetition of a character class.  Greedy: take as many characters as
    possible, give them back one at a time.  Lazy: take as few as
    possible, add one at a time.  The continuation receives the text
    consumed, the new position and the rest of the input. *)
Fixpoint rep {A : Type} (greedy : bool) (p : ascii -> bool) (lo : nat)
    (hi : option nat) (i : nat) (s : string)
    (k : string -> nat -> string -> option A) {struct s} : option A :=
  if greedy then
    match
      match s with
      | String c s' =>
          if (p c && room hi)%bool
          then rep greedy p (pred lo) (less hi) (S i) s'
                   (fun t => k (String c t))
          else None
      | EmptyString => None
      end
    with
    | Some a => Some a
    | None => if Nat.eqb lo 0 then k EmptyString i s else None
    end
  else
    match (if Nat.eqb lo 0 then k EmptyString i s else None) with
    | Some a => Some a
    | None =>
        match s with
        | String c s' =>
            if (p c && room hi)%bool
            then rep greedy p (pred lo) (less hi) (S i) s'
                     (fun t => k (String c t))
            else None
        | EmptyString => None
        end
    end.

(** [rmatch r i s cs k]: match [r] at position [i], where [s] is the
    input from [i] on; on success call [k] with the text consumed, the
    new position, the rest and the groups.  A failure of [k] makes the
    matcher backtrack into [r]. *)
Fixpoint rmatch (r : re) (i : nat) (s : string) (cs : caps)
    (k : string -> nat -> string -> caps -> option caps) : option caps :=
  match r with
  | Eps => k EmptyString i s cs
  | Chr p =>
      match s with
      | String c s' => if p c then k (String c EmptyString) (S i) s' cs else None
      | EmptyString => None
      end
  | Seq r1 r2 =>
      rmatch r1 i s cs (fun t1 j s1 cs1 =>
        rmatch r2 j s1 cs1 (fun t2 => k (t1 ++ t2)))
  | Alt r1 r2 =>
      match rmatch r1 i s cs k with
      | Some m => Some m
      | None => rmatch r2 i s cs k
      end
  | Rep g lo hi p => rep g p lo hi i s (fun t j s' => k t j s' cs)
  | Opt r1 =>
      match rmatch r1 i s cs k with
      | Some m => Some m
      | None => k EmptyString i s cs
      end
  | Grp n r1 => rmatch r1 i s cs (fun t j s' cs' => k t j s' ((n, t) :: cs'))
  | Bos => if Nat.eqb i 0 then k EmptyString i s cs else None
  | Eos =>
      match s with
      | EmptyString => k EmptyString i s cs
      | String c EmptyString =>
          if Ascii.eqb c "010" then k EmptyString i s cs else None
      | _ => None
      end
  end.

(** The final continuation: the whole match is group 0. *)
Definition accept : string -> nat -> string -> caps -> option caps :=
  fun t _ _ cs => Some ((0, t) :: cs).

(** [pattern.match(s)]: at position 0 only. *)
Definition re_match (r : re) (s : string) : option caps :=
  rmatch r 0 s [] accept.

(** [re.search(pattern, s)]: the leftmost position with a match. *)
Fixpoint search_from (r : re) (i : nat) (s : string) : option caps :=
  match rmatch r i s [] accept with
  | Some m => Some m
  | None =>
      match s with
      | EmptyString => None
      | String _ s' => search_from r (S i) s'
      end
  end.

Definition re_search (r : re) (s : string) : option caps := search_from r 0 s.

(** Pattern syntax. *)
Fixpoint seq (rs : list re) : re :=
  match rs with
  | [] => Eps
  | [r] => r
  | r :: rs' => Seq r (seq rs')
  end.

Fixpoint alt (rs : list re) : re :=
  match rs with
  | [] => Eps
  | [r] => r
  | r :: rs' => Alt r (alt rs')
  end.

Definition lit (c : ascii) : re := Chr (Chars.same c).
Definition digit : re := Chr Chars.is_digit.               (* \d *)
Definition plus (p : ascii -> bool) : re := Rep true 1 None p.   (* p+ *)
Definition star (p : ascii -> bool) : re := Rep true 0 None p.   (* p* *)
Definition lazy_plus (p : ascii -> bool) : re := Rep false 1 None p. (* p+? *)
Definition times (n : nat) (p : ascii -> bool) : re := Rep true n (Some n) p. (* p{n} *)

(** A literal word under [re.IGNORECASE]. *)
Fixpoint word_nocase (w : string) : re :=
  match w with
  | EmptyString => Eps
  | String c EmptyString => Chr (Chars.is_nocase c)
  | String c w' => Seq (Chr (Chars.is_nocase c)) (word_nocase w')
  end.

End Re.

Import Re.

(* ===================================================================== *)
(** * Exceptions, integers and dates *)
(* ===================================================================== *)

(** The outcome of a computation that may raise. *)
Inductive exn (A : Type) : Type :=
| Returned (a : A)
| Raised.
Arguments Returned {A} a.
Arguments Raised {A}.

Definition bind {A B : Type} (x : exn A) (f : A -> exn B) : exn B :=
  match x with
  | Returned a => f a
  | Raised => Raised
  end.

Notation "x <- e ;; k" := (bind e (fun x => k))
  (at level 61, e at next level, right associativity).

(** The value of a string of decimal digits, most significant first. *)
Fixpoint digits_value (acc : Z) (s : string) : Z :=
  match s with
  | EmptyString => acc
  | String c s' => digits_value (10 * acc + (Z.of_N (Chars.code c) - 48)) s'
  end.

(** [int(s)] on the arguments the parser gives it, which are the digit
    runs of a matched pattern.  Anything that is not a non-empty run of
    digits is taken to raise [ValueError]; [int_of_clock_field] below shows
    that the parser never gets there. *)
Definition int (s : string) : exn Z :=
  if (Str.nonempty s && Str.all Chars.is_digit s)%bool
  then Returned (digits_value 0 s)
  else Raised.

Record date : Type := Date { year : Z; month : Z; day : Z }.

Definition is_leap (y : Z) : bool :=
  ((y mod 4 =? 0) && (negb (y mod 100 =? 0) || (y mod 400 =? 0)))%bool%Z.

Definition days_in_month (y m : Z) : Z :=
  if (m =? 2)%Z then (if is_leap y then 29 else 28)
  else if ((m =? 4) || (m =? 6) || (m =? 9) || (m =? 11))%bool%Z then 30
  else 31.

(** [datetime.date(y, m, d)]: [ValueError] outside the calendar
    (MINYEAR is 1). *)
Definition make_date (y m d : Z) : option date :=
  if ((1 <=? y) && (y <=? 9999) && (1 <=? m) && (m <=? 12)
      && (1 <=? d) && (d <=? days_in_month y m))%bool%Z
  then Some (Date y m d)
  else None.

(** ** [datetime.strptime]

    CPython turns the format into a regular expression (compiled with
    IGNORECASE), matches it at the start of the text, rejects text left
    over, and builds the date from the named groups.  Group numbers stand
    for the names: 1 is [a], 2 is [b], 3 is [d], 4 is [Y], 5 is [m].  A
    run of blanks in the format becomes [\s+].  The names are those of
    the C locale. *)
Module Strptime.

Definition a_weekday : list string :=
  ["mon"; "tue"; "wed"; "thu"; "fri"; "sat"; "sun"].

Definition a_month : list string :=
  ["jan"; "feb"; "mar"; "apr"; "may"; "jun";
   "jul"; "aug"; "sep"; "oct"; "nov"; "dec"].

(** [%a]: [(?P<a>mon|tue|wed|thu|fri|sat|sun)] *)
Definition dir_a : re := Grp 1 (alt (List.map word_nocase a_weekday)).

(** [%b]: [(?P<b>jan|feb|...|dec)] *)
Definition dir_b : re := Grp 2 (alt (List.map word_nocase a_month)).

(** [%d]: [(?P<d>3[0-1]|[1-2]\d|0[1-9]|[1-9]| [1-9])] *)
Definition dir_d : re :=
  Grp 3 (alt [Seq (lit "3") (Chr (Chars.between 48 49));
              Seq (Chr (Chars.between 49 50)) digit;
              Seq (lit "0") (Chr (Chars.between 49 57));
              Chr (Chars.between 49 57);
              Seq (lit " ") (Chr (Chars.between 49 57))]).

(** [%Y]: [(?P<Y>\d\d\d\d)] *)
Definition dir_Y : re := Grp 4 (seq [digit; digit; digit; digit]).

(** [%m]: [(?P<m>1[0-2]|0[1-9]|[1-9])] *)
Definition dir_m : re :=
  Grp 5 (alt [Seq (lit "1") (Chr (Chars.between 48 50));
              Seq (lit "0") (Chr (Chars.between 49 57));
              Chr (Chars.between 49 57)]).

Definition blanks : re := plus Chars.is_space.

(** ['%a, %b %d, %Y'] *)
Definition fmt_long : re :=
  seq [dir_a; lit ","; blanks; dir_b; blanks; dir_d; lit ","; blanks; dir_Y].

(** ['%Y-%m-%d'] *)
Definition fmt_iso : re := seq [dir_Y; lit "-"; dir_m; lit "-"; dir_d].

(** ['%Y%m%d'] *)
Definition fmt_compact : re := seq [dir_Y; dir_m; dir_d].

(** [list.index] *)
Fixpoint index_of (x : string) (l : list string) : option nat :=
  match l with
  | [] => None
  | y :: l' =>
      if String.eqb y x then Some 0%nat
      else match index_of x l' with Some n => Some (S n) | None => None end
  end.

Definition number (o : option string) : option Z :=
  match o with
  | Some t => Some (digits_value 0 (Str.lstrip t))
  | None => None
  end.

Definition month_of (m : caps) : option Z :=
  match group m 5, group m 2 with
  | Some t, _ => Some (digits_value 0 t)
  | None, Some t =>
      match index_of (Str.map Chars.lower t) a_month with
      | Some n => Some (Z.of_nat (S n))
      | None => None
      end
  | None, None => None
  end.

(** [datetime.strptime(s, fmt).date()], [None] for a [ValueError]:
    [format_regex.match(s)] must succeed, [found.end()] must be [len(s)],
    and the fields must make a date. *)
Definition strptime (fmt : re) (s : string) : option date :=
  match rmatch fmt 0 s [] accept with
  | None => None
  | Some first =>
      (* the first match is the one taken; text left over is an error *)
      match group first 0 with
      | Some t =>
          if Nat.eqb (String.length t) (String.length s) then
            match number (group first 4), month_of first, number (group first 3) with
            | Some y, Some mo, Some d => make_date y mo d
            | _, _, _ => None
            end
          else None
      | None => None
      end
  end.

End Strptime.

(* ===================================================================== *)
(** * The transcript parser: [parse_otter_docx] *)
(* ===================================================================== *)

(** A segment as the scan appends it: the dictionary without ['end_time']. *)
Record Pending : Type := {
  p_segment_index : nat;
  p_start_time : Z;
  p_speaker : option string;
  p_text : string
}.

(** A segment of the result, after the end-time pass. *)
Record Segment : Type := {
  segment_index : nat;
  start_time : Z;
  speaker : option string;
  text : string;
  end_time : Z
}.

Record Transcript : Type := {
  title : string;
  recording_date : option date;
  duration_seconds : option Z;
  keywords : list string;
  speakers : list string;
  segments : list Segment
}.

(** [paragraphs = [p.text.strip() for p in doc.paragraphs if p.text.strip()]] *)
Definition paragraphs_of (doc : list string) : list string :=
  List.map Str.strip (List.filter (fun p => Str.nonempty (Str.strip p)) doc).

(** ** The date of line 2 *)

(** [r'(\w+, \w+ \d+, \d{4})'] *)
Definition date_long : re :=
  Grp 1 (seq [plus Chars.is_word; lit ","; lit " "; plus Chars.is_word; lit " ";
              plus Chars.is_digit; lit ","; lit " "; times 4 Chars.is_digit]).

(** [r'(\d{4}-\d{2}-\d{2})'] *)
Definition date_iso : re :=
  Grp 1 (seq [times 4 Chars.is_digit; lit "-"; times 2 Chars.is_digit; lit "-";
              times 2 Chars.is_digit]).

(** [r'(\d{8})'] *)
Definition date_compact : re := Grp 1 (times 8 Chars.is_digit).

Definition date_patterns : list re := [date_long; date_iso; date_compact].

(** The body of the [try]: the format is chosen by the punctuation of the
    matched text.  [None] stands for the exception that [except: pass]
    swallows. *)
Definition convert_date (date_str : string) : option date :=
  if Str.contains "," date_str then Strptime.strptime Strptime.fmt_long date_str
  else if Str.contains "-" date_str then Strptime.strptime Strptime.fmt_iso date_str
  else Strptime.strptime Strptime.fmt_compact date_str.

(** [for pattern in date_patterns: ...].  A conversion that succeeds
    reaches [break]; one that raises skips the [break], is swallowed, and
    the loop goes on with the next pattern. *)
Fixpoint date_loop (patterns : list re) (date_line : string) : option date :=
  match patterns with
  | [] => None
  | pattern :: rest =>
      match re_search pattern date_line with
      | Some m =>
          match group m 1 with
          | Some date_str =>
              match convert_date date_str with
              | Some d => Some d
              | None => date_loop rest date_line
              end
          | None => date_loop rest date_line
          end
      | None => date_loop rest date_line
      end
  end.

Definition extract_date (date_line : string) : option date :=
  date_loop date_patterns date_line.

(** ** Clock tokens *)

(** [\d+:\d+(?::\d+)?] *)
Definition clock : re :=
  seq [plus Chars.is_digit; lit ":"; plus Chars.is_digit;
       Opt (Seq (lit ":") (plus Chars.is_digit))].

(** [r'(\d+:\d+(?::\d+)?)\s*$'] *)
Definition duration_pattern : re :=
  seq [Grp 1 clock; star Chars.is_space; Eos].

(** [r'^(.+?)?\s*(\d+:\d+(?::\d+)?)\s*$'] *)
Definition timestamp_pattern : re :=
  seq [Bos; Opt (Grp 1 (lazy_plus Chars.is_dot)); star Chars.is_space;
       Grp 2 clock; star Chars.is_space; Eos].

(** The two-field and three-field conversion shared by the duration and
    the segment timestamps:

      if len(parts) == 2: v = int(parts[0]) * 60 + int(parts[1])
      elif len(parts) == 3: v = int(parts[0]) * 3600 + int(parts[1]) * 60 + int(parts[2])

    With any other number of fields the variable keeps its value [old]. *)
Definition clock_seconds (old : option Z) (parts : list string) : exn (option Z) :=
  match parts with
  | [a; b] =>
      x <- int a;; y <- int b;;
      Returned (Some (x * 60 + y)%Z)
  | [a; b; c] =>
      x <- int a;; y <- int b;; z <- int c;;
      Returned (Some (x * 3600 + y * 60 + z)%Z)
  | _ => Returned old
  end.

(** The token that [re.search] finds at the end of the date line. *)
Definition duration_token (date_line : string) : option string :=
  match re_search duration_pattern date_line with
  | Some m => group m 1
  | None => None
  end.

(** [duration_match.group(1).split(':')] and the conversion.  A match
    without group 1 would make [.split] raise; [duration_group1] shows
    that there is none. *)
Definition extract_duration (date_line : string) : exn (option Z) :=
  match re_search duration_pattern date_line with
  | Some m =>
      match group m 1 with
      | Some time_str => clock_seconds None (Str.split ":" time_str)
      | None => Raised
      end
  | None => Returned None
  end.

(** ** The keyword and speaker blocks

    [i = 2; while i < len(paragraphs) and i < 10: ...].  The loop variable
    grows at every turn, so eight turns are enough; [fuel] counts them. *)
Fixpoint header_loop (fuel : nat) (paragraphs : list string) (i : nat)
    (kw sp : list string) : list string * list string :=
  match fuel with
  | O => (kw, sp)
  | S fuel' =>
      if ((i <? List.length paragraphs) && (i <? 10))%bool%nat then
        match nth_error paragraphs i, nth_error paragraphs (i + 1) with
        | Some line, Some values =>
            if String.eqb line "SUMMARY KEYWORDS" then
              header_loop fuel' paragraphs (i + 2)
                (List.map Str.strip (Str.split "," values)) sp
            else if String.eqb line "SPEAKERS" then
              header_loop fuel' paragraphs (i + 2)
                kw (List.map Str.strip (Str.split "," values))
            else header_loop fuel' paragraphs (i + 1) kw sp
        | _, _ => header_loop fuel' paragraphs (i + 1) kw sp
        end
      else (kw, sp)
  end.

(** ** The segment scan *)

Module Scan.

(** The local variables of the loop over [paragraphs[6:]]. *)
Record state : Type := {
  segments : list Pending;
  current_speaker : option string;
  current_start : option Z;
  current_text : list string;
  segment_index : nat
}.

Definition init : state :=
  {| segments := []; current_speaker := None; current_start := None;
     current_text := []; segment_index := 0 |}.

(** [if current_start is not None and current_text: segments.append(...);
    segment_index += 1] *)
Definition flush (st : state) : state :=
  match current_start st, current_text st with
  | Some start, _ :: _ =>
      {| segments := segments st ++
           [{| p_segment_index := segment_index st;
               p_start_time := start;
               p_speaker := current_speaker st;
               p_text := Str.join " " (current_text st) |}];
         current_speaker := current_speaker st;
         current_start := current_start st;
         current_text := current_text st;
         segment_index := S (segment_index st) |}
  | _, _ => st
  end.

(** [if speaker_part: current_speaker = speaker_part.strip()] *)
Definition update_speaker (speaker_part : option string) (cur : option string)
    : option string :=
  match speaker_part with
  | Some t => if Str.nonempty t then Some (Str.strip t) else cur
  | None => cur
  end.

(** The branch of a line that matches the timestamp pattern: flush the
    segment in progress, take the speaker when the line gives one, convert
    the clock token.  A match without group 2 would make [.split] raise;
    [timestamp_group2] shows that there is none. *)
Definition on_timestamp (st : state) (m : caps) : exn state :=
  let st1 := flush st in
  let speaker_part := group m 1 in
  match group m 2 with
  | Some time_part =>
      start <- clock_seconds (current_start st1) (Str.split ":" time_part);;
      Returned
        {| segments := segments st1;
           current_speaker := update_speaker speaker_part (current_speaker st1);
           current_start := start;
           current_text := [];
           segment_index := segment_index st1 |}
  | None => Raised
  end.

(** The branch of any other line:
    [if para and not para.startswith('SUMMARY') and not
    para.startswith('SPEAKERS'): current_text.append(para)] *)
Definition on_text (st : state) (para : string) : state :=
  if (Str.nonempty para && negb (Str.startswith "SUMMARY" para)
      && negb (Str.startswith "SPEAKERS" para))%bool
  then {| segments := segments st;
          current_speaker := current_speaker st;
          current_start := current_start st;
          current_text := current_text st ++ [para];
          segment_index := segment_index st |}
  else st.

(** One turn of [for para in paragraphs[6:]]. *)
Definition step (st : state) (para : string) : exn state :=
  match re_match timestamp_pattern para with
  | Some m => on_timestamp st m
  | None => Returned (on_text st para)
  end.

Fixpoint run (st : state) (paras : list string) : exn state :=
  match paras with
  | [] => Returned st
  | para :: rest => st' <- step st para;; run st' rest
  end.

(** The whole scan, with the flush of the last segment after the loop. *)
Definition scan (paras : list string) : exn (list Pending) :=
  st <- run init paras;;
  Returned (segments (flush st)).

End Scan.

(** ** End times

    [for i, seg in enumerate(segments)]: the start of the next segment;
    for the last one the duration when it is truthy, else start + 30. *)
Definition end_time_at (duration : option Z) (segs : list Pending)
    (i : nat) (seg : Pending) : Z :=
  if (i + 1 <? List.length segs)%nat then
    match nth_error segs (i + 1) with
    | Some next => p_start_time next
    | None => p_start_time seg
    end
  else
    match duration with
    | Some d => if (d =? 0)%Z then (p_start_time seg + 30)%Z else d
    | None => (p_start_time seg + 30)%Z
    end.

Definition close_segment (duration : option Z) (segs : list Pending)
    (i : nat) (seg : Pending) : Segment :=
  {| segment_index := p_segment_index seg;
     start_time := p_start_time seg;
     speaker := p_speaker seg;
     text := p_text seg;
     end_time := end_time_at duration segs i seg |}.

Fixpoint enumerate_from {A : Type} (i : nat) (l : list A) : list (nat * A) :=
  match l with
  | [] => []
  | x :: l' => (i, x) :: enumerate_from (S i) l'
  end.

Definition add_end_times (duration : option Z) (segs : list Pending) : list Segment :=
  List.map (fun ix => close_segment duration segs (fst ix) (snd ix))
           (enumerate_from 0 segs).

(** ** The parser

    [doc] is the text of the paragraphs of the document, in order;
    [docx_stem] is [Path(docx_path).stem].  [Returned None] is the
    [return None] of a document that is too short. *)
Definition parse_otter_docx (docx_stem : string) (doc : list string)
    : exn (option Transcript) :=
  let paragraphs := paragraphs_of doc in
  if (List.length paragraphs <? 3)%nat then Returned None
  else
    let title := List.nth 0 paragraphs docx_stem in
    header <-
      match nth_error paragraphs 1 with
      | Some date_line =>
          duration <- extract_duration date_line;;
          Returned (extract_date date_line, duration)
      | None => Returned (None, None)
      end;;
    let kwsp := header_loop 8 paragraphs 2 [] [] in
    segs <- Scan.scan (List.skipn 6 paragraphs);;
    Returned (Some
      {| title := title;
         recording_date := fst header;
         duration_seconds := snd header;
         keywords := fst kwsp;
         speakers := snd kwsp;
         segments := add_end_times (snd header) segs |}).

(* ===================================================================== *)
(** * Storage keys *)
(* ===================================================================== *)

(** [re.sub(pattern, repl, s)] for a pattern that is one character class:
    every character of the class is replaced on its own. *)
Fixpoint re_sub_class (p : ascii -> bool) (repl : string) (s : string) : string :=
  match s with
  | EmptyString => EmptyString
  | String c s' =>
      if p c then repl ++ re_sub_class p repl s'
      else String c (re_sub_class p repl s')
  end.

(** The class [[^\w\-_.]] of both scripts. *)
Definition unsafe_char (c : ascii) : bool :=
  negb (Chars.is_word c || Ascii.eqb c "-" || Ascii.eqb c "_" || Ascii.eqb c ".")%bool.

(** [re.sub(r'[^\w\-_.]', '_', s)] *)
Definition sanitize (s : string) : string := re_sub_class unsafe_char "_" s.

Definition hex_digit (n : N) : ascii :=
  if (n <? 10)%N then ascii_of_N (48 + n) else ascii_of_N (87 + n).

(** ['%0<width>x' % n] for [n < 16 ^ width]: the hexadecimal digits of a
    [width]-digit number, most significant first.  It is the [hex] of a
    UUID and the [hexdigest] of an MD5 digest at width 32. *)
Fixpoint hex_fixed (width : nat) (n : N) : string :=
  match width with
  | O => EmptyString
  | S w => String (hex_digit ((n / 16 ^ N.of_nat w) mod 16)%N) (hex_fixed w n)
  end.

(** [s.rsplit('.', 1)[0]]: the text before the last dot, all of [s] when
    it has none. *)
Fixpoint before_last_dot (s : string) : string :=
  match s with
  | EmptyString => EmptyString
  | String c s' =>
      if Str.contains "." s' then String c (before_last_dot s')
      else if Ascii.eqb c "." then EmptyString
      else s
  end.

(** The text from the last dot on, empty when there is none. *)
Fixpoint from_last_dot (s : string) : string :=
  match s with
  | EmptyString => EmptyString
  | String c s' =>
      if Str.contains "." s' then from_last_dot s'
      else if Ascii.eqb c "." then s
      else EmptyString
  end.

(** [PurePath.suffix] of a file name: the last dot must be neither the
    first nor the last character. *)
Definition path_suffix (name : string) : string :=
  let i := String.length (before_last_dot name) in
  if (Str.contains "." name && (0 <? i) && (i <? String.length name - 1))%bool%nat
  then from_last_dot name
  else EmptyString.

(** [PurePath.stem] *)
Definition path_stem (name : string) : string :=
  let i := String.length (before_last_dot name) in
  if (Str.contains "." name && (0 <? i) && (i <? String.length name - 1))%bool%nat
  then before_last_dot name
  else name.

(** [import_otter_ai.py]:
    [s3_key = f"audio/otter_ai/{safe_filename}_{uuid.uuid4().hex[:8]}.mp3"];
    [uuid4] is the integer of the UUID drawn for this file. *)
Definition otter_s3_key (filename_stem : string) (uuid4 : N) : string :=
  let safe_filename := sanitize filename_stem in
  "audio/otter_ai/" ++ safe_filename ++ "_" ++ Str.take 8 (hex_fixed 32 uuid4) ++ ".mp3".

Section BatchUpload.

(** [hashlib.md5(data).digest()] as a 128-bit number. *)
Variable md5 : string -> N.

(** [batch_upload.py]: [path_str] is [str(video_path)] and [name] is
    [video_path.name].

      file_hash = hashlib.md5(str(video_path).encode()).hexdigest()[:8]
      safe_name = re.sub(r'[^\w\-_\.]', '_', video_path.name)
      s3_key = f"videos/{safe_name.rsplit('.', 1)[0]}_{file_hash}.{video_path.suffix.lower().lstrip('.')}" *)
Definition video_s3_key (path_str name : string) : string :=
  let file_hash := Str.take 8 (hex_fixed 32 (md5 path_str)) in
  let safe_name := sanitize name in
  "videos/" ++ before_last_dot safe_name ++ "_" ++ file_hash ++ "."
    ++ Str.lstrip_char "." (Str.map Chars.lower (path_suffix name)).

End BatchUpload.

(** The sanitised stem in the words of the specification: every character
    outside alphanumerics, hyphen, underscore and dot becomes an
    underscore. *)
Definition spec_sanitized (stem : string) : string :=
  Str.map (fun c =>
    if (Chars.is_alnum c || Ascii.eqb c "-" || Ascii.eqb c "_" || Ascii.eqb c ".")%bool
    then c else "_"%char) stem.

(* ===================================================================== *)
(** * The orchestrator: [import_otter_export] *)
(* ===================================================================== *)

Module Db.

(** A row of [AudioSegment]. *)
Record AudioSegment : Type := {
  audio_id : nat;
  segment_index : nat;
  start_time : Z;
  end_time : Z;
  text : string;
  speaker : option string
}.

(** A row of [AudioRecording]. *)
Record AudioRecording : Type := {
  id : nat;
  filename : string;
  original_filename : string;
  s3_key : string;
  s3_bucket : string;
  file_size_bytes : N;
  duration_seconds : option Z;
  format : string;
  title : string;
  recording_date : option date;
  speakers : list string;
  keywords : list string;
  persona_id : option nat;
  source : string;
  status : string
}.

End Db.

(** One [.docx] file of the export directory together with what the
    environment answers while it is processed. *)
Record DocxFile : Type := {
  filename_stem : string;          (* docx_path.stem *)
  mp3_exists : bool;               (* mp3_path.exists() *)
  document : exn (list string);    (* the paragraphs, or DocxDocument raises *)
  uuid4 : N;                       (* the UUID drawn for the key *)
  upload_succeeds : bool;          (* whether s3.upload_file succeeds *)
  mp3_size : N                     (* os.path.getsize(mp3_path) *)
}.

(** [docx_path.with_suffix('.mp3').name] *)
Definition mp3_name (f : DocxFile) : string := filename_stem f ++ ".mp3".

(** The catalog, the bucket and the three counters. *)
Record World : Type := {
  recordings : list Db.AudioRecording;
  segment_rows : list Db.AudioSegment;
  bucket : list (string * string);     (* (key, local file) of every upload *)
  imported : nat;
  skipped : nat;
  errors : nat
}.

Definition count_skipped (w : World) : World :=
  {| recordings := recordings w; segment_rows := segment_rows w;
     bucket := bucket w; imported := imported w;
     skipped := S (skipped w); errors := errors w |}.

Definition count_error (w : World) : World :=
  {| recordings := recordings w; segment_rows := segment_rows w;
     bucket := bucket w; imported := imported w;
     skipped := skipped w; errors := S (errors w) |}.

(** [session.query(AudioRecording).filter(AudioRecording.original_filename
    == name).first()] is not [None]. *)
Definition existing (w : World) (name : string) : bool :=
  List.existsb (fun r => String.eqb (Db.original_filename r) name) (recordings w).

(** [upload_to_s3]: the object is stored when the upload succeeds. *)
Definition upload_to_s3 (w : World) (local_path s3_key : string) : World :=
  {| recordings := recordings w; segment_rows := segment_rows w;
     bucket := bucket w ++ [(s3_key, local_path)]; imported := imported w;
     skipped := skipped w; errors := errors w |}.

(** [session.add(recording); session.flush(); session.add(segment) ...;
    session.commit(); imported += 1].  The key of the new row is the next
    number of the table. *)
Definition persist (w : World) (f : DocxFile) (persona_id : option nat)
    (s3_key : string) (parsed : Transcript) : World :=
  let rid := S (List.length (recordings w)) in
  let recording :=
    {| Db.id := rid;
       Db.filename := sanitize (filename_stem f) ++ ".mp3";
       Db.original_filename := mp3_name f;
       Db.s3_key := s3_key;
       Db.s3_bucket := "mv-brain";
       Db.file_size_bytes := mp3_size f;
       Db.duration_seconds := duration_seconds parsed;
       Db.format := "mp3";
       Db.title := title parsed;
       Db.recording_date := recording_date parsed;
       Db.speakers := speakers parsed;
       Db.keywords := keywords parsed;
       Db.persona_id := persona_id;
       Db.source := "otter_ai";
       Db.status := "transcribed" |} in
  let rows :=
    List.map (fun seg =>
      {| Db.audio_id := rid;
         Db.segment_index := segment_index seg;
         Db.start_time := start_time seg;
         Db.end_time := end_time seg;
         Db.text := text seg;
         Db.speaker := speaker seg |}) (segments parsed) in
  {| recordings := recordings w ++ [recording];
     segment_rows := segment_rows w ++ rows;
     bucket := bucket w;
     imported := S (imported w);
     skipped := skipped w;
     errors := errors w |}.

(** The body of [for docx_path in docx_files].  An exception of the
    parser, or of [DocxDocument] before it, is caught and counted as an
    error. *)
Definition import_one (persona_id : option nat) (upload_audio : bool)
    (w : World) (f : DocxFile) : World :=
  if negb (mp3_exists f) then count_skipped w
  else if existing w (mp3_name f) then count_skipped w
  else
    match bind (document f) (parse_otter_docx (filename_stem f)) with
    | Raised => count_error w
    | Returned None => count_error w
    | Returned (Some parsed) =>
        let s3_key := otter_s3_key (filename_stem f) (uuid4 f) in
        if upload_audio then
          if upload_succeeds f
          then persist (upload_to_s3 w (mp3_name f) s3_key) f persona_id s3_key parsed
          else count_error w
        else persist w f persona_id s3_key parsed
    end.

(** The loop [for docx_path in docx_files]: the files are handled one
    after the other. *)
Definition import_loop (persona_id : option nat) (upload_audio : bool)
    (w : World) (docx_files : list DocxFile) : World :=
  List.fold_left (import_one persona_id upload_audio) docx_files w.

(** [imported = 0; skipped = 0; errors = 0]: the counters belong to one
    call; the catalog and the bucket are those found. *)
Definition start_run (w : World) : World :=
  {| recordings := recordings w; segment_rows := segment_rows w;
     bucket := bucket w; imported := 0; skipped := 0; errors := 0 |}.

(** [import_otter_export]: the world after the call, with the three
    counters that it prints. *)
Definition import_otter_export (persona_id : option nat) (upload_audio : bool)
    (w : World) (docx_files : list DocxFile) : World :=
  import_loop persona_id upload_audio (start_run w) docx_files.

(* ===================================================================== *)
(** * Sample documents *)
(* ===================================================================== *)

Module Examples.

(** An export in the layout of the docstring of [parse_otter_docx]. *)
Definition town_hall : list string :=
  ["Town hall"; "Fri, Dec 05, 2025 10:47AM • 21:01"; "  ";
   "SUMMARY KEYWORDS"; "ai, policy, nasa";
   "SPEAKERS"; "Dan Goldin, Jane Doe";
   "Dan Goldin  0:05"; "Good morning"; " and welcome. ";
   "Jane Doe  1:30"; "Thank you.";
   "Jane Doe  2:10";
   "2:45"; "Let us begin."].

Definition town_hall_transcript : Transcript :=
  {| title := "Town hall";
     recording_date := Some (Date 2025 12 5);
     duration_seconds := Some 1261%Z;
     keywords := ["ai"; "policy"; "nasa"];
     speakers := ["Dan Goldin"; "Jane Doe"];
     segments :=
       [{| segment_index := 0; start_time := 5; speaker := Some "Dan Goldin";
           text := "Good morning and welcome."; end_time := 90 |};
        {| segment_index := 1; start_time := 90; speaker := Some "Jane Doe";
           text := "Thank you."; end_time := 165 |};
        {| segment_index := 2; start_time := 165; speaker := Some "Jane Doe";
           text := "Let us begin."; end_time := 1261 |}] |}.

(** A header whose duration token is [0:00]. *)
Definition zero_duration : list string :=
  ["Memo"; "2025-12-05 0:00"; "SUMMARY KEYWORDS"; "memo"; "SPEAKERS"; "Bob";
   "Bob  0:05"; "Short note."].

(** The last timestamp lies after the declared duration. *)
Definition late_segment : list string :=
  ["Memo"; "Fri, Dec 05, 2025 10:47AM • 21:01";
   "SUMMARY KEYWORDS"; "memo"; "SPEAKERS"; "Bob";
   "Bob  25:00"; "Closing words."].

(** A date line with a text of the ISO shape that is no date, followed by
    a compact date. *)
Definition two_dates : list string :=
  ["Memo"; "2025-13-45 20251205"; "Body"].

(** A labeled timestamp line followed by a bare one. *)
Definition bare_timestamp : list string :=
  ["Memo"; "Fri, Dec 05, 2025 10:47AM • 21:01";
   "SUMMARY KEYWORDS"; "memo"; "SPEAKERS"; "Alice";
   "Alice  0:05"; "Hello."; "00:16"; "More from the same speaker."].

(** The export as a file of a directory, and a catalog with nothing in
    it. *)
Definition town_hall_file : DocxFile :=
  {| filename_stem := "Town hall (Dec 5)";
     mp3_exists := true;
     document := Returned town_hall;
     uuid4 := 24197857161011715162171839636988778104%N;
     upload_succeeds := true;
     mp3_size := 1048576%N |}.

Definition empty_world : World :=
  {| recordings := []; segment_rows := []; bucket := [];
     imported := 0; skipped := 0; errors := 0 |}.

End Examples.

(* ===================================================================== *)
(** * Predicates of the proofs and of the specification *)
(* ===================================================================== *)

Definition fits (hi : option nat) (n : nat) : Prop :=
  match hi with Some h => (n <= h)%nat | None => True end.

(** [matched r cs t s cs']: [r] can consume the text [t] in front of the
    rest [s], turning the groups [cs] into [cs']. *)
Inductive matched : re -> caps -> string -> string -> caps -> Prop :=
| M_Eps cs s : matched Eps cs "" s cs
| M_Chr p c cs s : p c = true -> matched (Chr p) cs (String c "") s cs
| M_Seq r1 r2 cs cs1 cs2 t1 t2 s :
    matched r1 cs t1 (t2 ++ s) cs1 -> matched r2 cs1 t2 s cs2 ->
    matched (Seq r1 r2) cs (t1 ++ t2) s cs2
| M_AltL r1 r2 cs t s cs' :
    matched r1 cs t s cs' -> matched (Alt r1 r2) cs t s cs'
| M_AltR r1 r2 cs t s cs' :
    matched r2 cs t s cs' -> matched (Alt r1 r2) cs t s cs'
| M_Rep g lo hi p cs t s :
    Str.all p t = true -> (lo <= String.length t)%nat ->
    fits hi (String.length t) ->
    matched (Rep g lo hi p) cs t s cs
| M_OptYes r cs t s cs' :
    matched r cs t s cs' -> matched (Opt r) cs t s cs'
| M_OptNo r cs s : matched (Opt r) cs "" s cs
| M_Grp n r cs t s cs' :
    matched r cs t s cs' -> matched (Grp n r) cs t s ((n, t) :: cs')
| M_Bos cs s : matched Bos cs "" s cs
| M_Eos cs s : s = "" \/ s = String "010" "" -> matched Eos cs "" s cs.

Definition digits (s : string) : Prop :=
  Str.nonempty s = true /\ Str.all Chars.is_digit s = true.

(** The texts of [\d+:\d+(?::\d+)?]. *)
Inductive is_clock : string -> Prop :=
| clock_ms a b : digits a -> digits b -> is_clock (a ++ String ":" b)
| clock_hms a b c :
    digits a -> digits b -> digits c ->
    is_clock (a ++ String ":" (b ++ String ":" c)).

Ltac invert_matched :=
  repeat match goal with
  | H : matched (Seq _ _) _ _ _ _ |- _ => inversion H; subst; clear H
  | H : matched (Opt _) _ _ _ _ |- _ => inversion H; subst; clear H
  | H : matched (Grp _ _) _ _ _ _ |- _ => inversion H; subst; clear H
  | H : matched (Chr _) _ _ _ _ |- _ => inversion H; subst; clear H
  | H : matched (Rep _ _ _ _) _ _ _ _ |- _ => inversion H; subst; clear H
  | H : matched Bos _ _ _ _ |- _ => inversion H; subst; clear H
  | H : matched Eos _ _ _ _ |- _ => inversion H; subst; clear H
  end.

(** The value of a clock token, as the source computes it. *)
Inductive clock_value : string -> Z -> Prop :=
| value_ms a b :
    digits a -> digits b ->
    clock_value (a ++ String ":" b)
                (digits_value 0 a * 60 + digits_value 0 b)
| value_hms a b c :
    digits a -> digits b -> digits c ->
    clock_value (a ++ String ":" (b ++ String ":" c))
                (digits_value 0 a * 3600 + digits_value 0 b * 60
                 + digits_value 0 c).

(** The indices handed out so far are 0, 1, ..., and the counter is the
    next one. *)
Definition indexed (st : Scan.state) : Prop :=
  List.map p_segment_index (Scan.segments st) = List.seq 0 (Scan.segment_index st).

(** Only non-empty lines are accumulated, and no segment has an empty
    text. *)
Definition worded (st : Scan.state) : Prop :=
  Forall (fun p => Str.nonempty p = true) (Scan.current_text st) /\
  Forall (fun seg => Str.nonempty (p_text seg) = true) (Scan.segments st).

(** What the specification says about end times (C1), as a predicate of a
    transcript: each segment but the last ends where the next one starts,
    and the last one ends at the duration when there is one and at its
    start plus 30 seconds otherwise. *)
Definition contiguous_as_specified (t : Transcript) : Prop :=
  (forall i a b,
      nth_error (segments t) i = Some a ->
      nth_error (segments t) (S i) = Some b ->
      end_time a = start_time b) /\
  (forall front a,
      segments t = (front ++ [a])%list ->
      end_time a = match duration_seconds t with
                   | Some d => d
                   | None => (start_time a + 30)%Z
                   end).

(** The same with the test of the source, [elif result['duration_seconds']],
    which takes a duration of zero for no duration. *)
Definition contiguous_as_coded (t : Transcript) : Prop :=
  (forall i a b,
      nth_error (segments t) i = Some a ->
      nth_error (segments t) (S i) = Some b ->
      end_time a = start_time b) /\
  (forall front a,
      segments t = (front ++ [a])%list ->
      end_time a = match duration_seconds t with
                   | Some d => if (d =? 0)%Z then (start_time a + 30)%Z else d
                   | None => (start_time a + 30)%Z
                   end).

(** What the specification says about the two times of a segment (C4). *)
Definition ends_after_start (t : Transcript) : Prop :=
  forall a, In a (segments t) -> (start_time a <= end_time a)%Z.

(** A line that starts a segment, and a line that the scan neither takes
    for a timestamp nor accumulates. *)
Definition is_timestamp (para : string) : Prop :=
  re_match timestamp_pattern para <> None.

Definition not_accumulated (para : string) : Prop :=
  re_match timestamp_pattern para = None /\
  (Str.nonempty para && negb (Str.startswith "SUMMARY" para)
   && negb (Str.startswith "SPEAKERS" para))%bool = false.

(** The date that one pattern yields on a line: the pattern matches and
    the matched text converts. *)
Definition date_of (pattern : re) (date_line : string) : option date :=
  match re_search pattern date_line with
  | Some m =>
      match group m 1 with
      | Some date_str => convert_date date_str
      | None => None
      end
  | None => None
  end.

(** The pattern matches, but the matched text is no calendar date. *)
Definition matches_without_date (pattern : re) (date_line : string) : Prop :=
  exists m date_str,
    re_search pattern date_line = Some m /\ group m 1 = Some date_str /\
    convert_date date_str = None.

(** The date is that of the first pattern of the list that yields one. *)
Definition first_date (patterns : list re) (date_line : string)
    (result : option date) : Prop :=
  match result with
  | Some d =>
      exists before pattern after,
        patterns = (before ++ pattern :: after)%list /\
        date_of pattern date_line = Some d /\
        Forall (fun q => date_of q date_line = None) before
  | None => Forall (fun q => date_of q date_line = None) patterns
  end.

(** What the specification says about a failed conversion (C5). *)
Definition stops_after_failed_conversion : Prop :=
  forall docx_stem doc t date_line,
    parse_otter_docx docx_stem doc = Returned (Some t) ->
    nth_error (paragraphs_of doc) 1 = Some date_line ->
    (exists pattern, In pattern date_patterns /\
                     matches_without_date pattern date_line) ->
    recording_date t = None.

(** The repetition of the class [p] cannot go on into [rest]. *)
Definition blocked (p : ascii -> bool) (rest : string) : Prop :=
  match rest with
  | EmptyString => True
  | String c _ => p c = false
  end.

Definition clock_char (c : ascii) : bool :=
  (Chars.is_digit c || Ascii.eqb c ":")%bool.

(** The line ends in the token: it is the token, or the token stands
    behind a character that is neither a digit nor a colon. *)
Definition ends_in_token (date_line token : string) : Prop :=
  date_line = token \/
  exists pre x,
    date_line = pre ++ String x token /\
    Chars.is_digit x = false /\ x <> ":"%char.

(** The disambiguating token: eight hexadecimal characters. *)
Definition is_token (tok : string) : Prop :=
  String.length tok = 8%nat /\ Str.all Chars.is_hex tok = true.

(** [video_extensions = {'.mp4', '.mov', '.MP4', '.MOV'}] of
    [batch_upload]. *)
Definition video_extensions : list string := [".mp4"; ".mov"; ".MP4"; ".MOV"].

(** A name that [source_path.rglob(f'*{ext}')] finds for one of the
    extensions. *)
Definition found_by_rglob (name : string) : Prop :=
  exists base ext, In ext video_extensions /\ name = base ++ ext.

(** The key of a video in the words of the specification,
    [<category>/<sanitized-stem>_<8-hex-token>.<ext>] with the stem of the
    file name, for every file that [batch_upload] finds; the extension is
    left open. *)
Definition video_key_as_specified : Prop :=
  forall (md5 : string -> N) (path_str name : string),
    found_by_rglob name ->
    exists token ext,
      is_token token /\
      video_s3_key md5 path_str name
        = "videos" ++ "/" ++ spec_sanitized (path_stem name) ++ "_"
            ++ token ++ "." ++ ext.

(** A call that starts from [w] and ends in [w'] uploaded and inserted
    nothing, and its counters read: nothing imported, no error, [n] files
    skipped. *)
Definition call_only_skipped (n : nat) (w w' : World) : Prop :=
  recordings w' = recordings w /\
  segment_rows w' = segment_rows w /\
  bucket w' = bucket w /\
  imported w' = 0%nat /\
  errors w' = 0%nat /\
  skipped w' = n.

(** Between [w] and [w'] nothing was uploaded or inserted, nothing was
    imported or failed, and [n] files were skipped. *)
Definition only_skipped (n : nat) (w w' : World) : Prop :=
  recordings w' = recordings w /\
  segment_rows w' = segment_rows w /\
  bucket w' = bucket w /\
  imported w' = imported w /\
  errors w' = errors w /\
  skipped w' = (skipped w + n)%nat.

(* ===================================================================== *)
(** * The command line of [import_otter_ai.py] *)
(* ===================================================================== *)

Module Cli.

(** The three values handed to [import_otter_export]. *)
Record args : Type := {
  export_dir : string;
  persona_name : option string;
  upload_audio : bool
}.

(** [for arg in sys.argv[2:]: if arg == '--no-upload': upload_audio = False
    else: persona_name = arg] *)
Fixpoint arg_loop (rest : list string) (persona_name : option string)
    (upload_audio : bool) : option string * bool :=
  match rest with
  | [] => (persona_name, upload_audio)
  | arg :: rest' =>
      if String.eqb arg "--no-upload"
      then arg_loop rest' persona_name false
      else arg_loop rest' (Some arg) upload_audio
  end.

(** The [__main__] block: [None] is the usage message with [sys.exit(1)]. *)
Definition main (argv : list string) : option args :=
  if (List.length argv <? 2)%nat then None
  else
    let r := arg_loop (List.skipn 2 argv) None true in
    Some {| export_dir := List.nth 1 argv EmptyString;
            persona_name := fst r;
            upload_audio := snd r |}.

End Cli.

(* ===================================================================== *)
(** * [batch_upload.py]: the metadata of a path *)
(* ===================================================================== *)

(** [s[n:]] *)
Fixpoint str_drop (n : nat) (s : string) : string :=
  match n, s with
  | S n', String _ s' => str_drop n' s'
  | _, _ => s
  end.

(** [sub in s] *)
Fixpoint contains_sub (sub s : string) : bool :=
  if String.prefix sub s then true
  else match s with
       | EmptyString => false
       | String _ s' => contains_sub sub s'
       end.

(** [s.split(sep, 1)] for a separator that is not empty: the text before
    the first occurrence and the text after it, or [s] alone. *)
Fixpoint split_first (sep s : string) : list string :=
  if String.prefix sep s then [EmptyString; str_drop (String.length sep) s]
  else match s with
       | EmptyString => [EmptyString]
       | String c s' =>
           match split_first sep s' with
           | [a; b] => [String c a; b]
           | _ => [s]
           end
       end.

(** [str(n)] of an integer, as an f-string renders it. *)
Definition decimal (n : Z) : string := NilZero.string_of_int (Z.to_int n).

Module Meta.

(** The dictionary that [extract_metadata_from_path] returns. *)
Record t : Type := {
  speaker : string;
  event_name : option string;
  event_date : option date;
  description : option string
}.

(** [r'/(\d{6}) -'] *)
Definition yyyymm : re :=
  seq [lit "/"; Grp 1 (times 6 Chars.is_digit); lit " "; lit "-"].

(** The first attempt: [re.search(r'(\d{8})', path_str)] and
    [strptime(date_str, '%Y%m%d')] under [try ... except ValueError]. *)
Definition date_from_day (path_str : string) : option date :=
  match re_search date_compact path_str with
  | Some m =>
      match group m 1 with
      | Some date_str => Strptime.strptime Strptime.fmt_compact date_str
      | None => None
      end
  | None => None
  end.

(** The second attempt: the month of a folder name, on its first day. *)
Definition date_from_month (path_str : string) : option date :=
  match re_search yyyymm path_str with
  | Some m =>
      match group m 1 with
      | Some date_str => Strptime.strptime Strptime.fmt_compact (date_str ++ "01")
      | None => None
      end
  | None => None
  end.

(** [if not metadata['event_date']:] guards the second attempt. *)
Definition find_date (path_str : string) : option date :=
  match date_from_day path_str with
  | Some d => Some d
  | None => date_from_month path_str
  end.

(** [for part in parts: if ' - ' in part: ... break] *)
Fixpoint find_event (parts : list string) : option string :=
  match parts with
  | [] => None
  | part :: rest =>
      if contains_sub " - " part then
        match split_first " - " part with
        | _ :: after :: _ => Some (Str.strip after)
        | _ => find_event rest
        end
      else find_event rest
  end.

(** The era of the year. *)
Definition describe (event_date : option date) : option string :=
  match event_date with
  | Some d =>
      let year := year d in
      if ((1992 <=? year) && (year <=? 2001))%bool%Z then
        Some ("From Dan Goldin's tenure as NASA Administrator ("
              ++ decimal year ++ ")")
      else if (2001 <? year)%Z then
        Some ("Post-NASA speaking engagement (" ++ decimal year ++ ")")
      else None
  | None => None
  end.

(** [extract_metadata_from_path]: [path_str] is [str(file_path)] and
    [parts] is [file_path.parts]. *)
Definition extract_metadata_from_path (path_str : string) (parts : list string) : t :=
  let event_date := find_date path_str in
  {| speaker := "Dan Goldin";
     event_name := find_event parts;
     event_date := event_date;
     description := describe event_date |}.

End Meta.

(* ===================================================================== *)
(** * [batch_upload.py]: the upload loop *)
(* ===================================================================== *)

(** What the dry run prints: the names of the first ten files and the
    number in ["... and N more"], which is [len(video_files) - 10]. *)
Record DryRun : Type := {
  would_upload : list string;
  and_more : Z
}.

Definition dry_run_report (names : list string) : DryRun :=
  {| would_upload := List.firstn 10 names;
     and_more := (Z.of_nat (List.length names) - 10)%Z |}.

Section BatchLoop.

(** [hashlib.md5(data).digest()] as a number, the bucket of the
    configuration, and the durations that [ffprobe] reports with the test
    [duration > 0] on them. *)
Variable md5 : string -> N.
Variable s3_bucket : string.
Variable seconds : Type.
Variable positive : seconds -> bool.

(** A row of [Video]. *)
Record Video : Type := {
  v_filename : string;
  v_original_filename : string;
  v_s3_key : string;
  v_s3_bucket : string;
  v_file_size_bytes : N;
  v_duration_seconds : option seconds;
  v_format : string;
  v_status : string;
  v_speaker : string;
  v_event_name : option string;
  v_event_date : option date;
  v_description : option string
}.

(** One video file together with what the environment answers while it
    is handled. *)
Record VideoFile : Type := {
  path_str : string;               (* str(video_path) *)
  name : string;                   (* video_path.name *)
  parts : list string;             (* video_path.parts *)
  query_raises : bool;             (* whether the query for the name raises *)
  stat_size : exn N;               (* video_path.stat().st_size, or it raises *)
  probed : seconds;                (* get_video_duration(video_path) *)
  upload_raises : bool;            (* whether s3.upload_file raises *)
  commit_raises : bool             (* whether the insertion of the row raises *)
}.

(** The table, the bucket and the three counters. *)
Record Library : Type := {
  videos : list Video;
  objects : list (string * string);    (* (key, local file) of every upload *)
  uploaded : nat;
  skipped_videos : nat;
  failed : nat
}.

Definition known (l : Library) (name : string) : bool :=
  List.existsb (fun v => String.eqb (v_original_filename v) name) (videos l).

Definition video_format (f : VideoFile) : string :=
  Str.lstrip_char "." (Str.map Chars.lower (path_suffix (name f))).

(** [failed += 1] of the [except] clause. *)
Definition count_failed (l : Library) : Library :=
  {| videos := videos l; objects := objects l; uploaded := uploaded l;
     skipped_videos := skipped_videos l; failed := S (failed l) |}.

(** The body of [for video_path in tqdm(video_files)]: an exception of
    the query, of [stat], of the upload or of the insertion is counted as a
    failure; one of the insertion comes after the upload, so that the
    object is in the bucket without a row. *)
Definition upload_one (l : Library) (f : VideoFile) : Library :=
  let s3_key := video_s3_key md5 (path_str f) (name f) in
  if query_raises f then count_failed l
  else if known l (name f) then
    {| videos := videos l; objects := objects l; uploaded := uploaded l;
       skipped_videos := S (skipped_videos l); failed := failed l |}
  else
    match stat_size f with
    | Raised => count_failed l
    | Returned file_size =>
        let duration := probed f in
        let metadata := Meta.extract_metadata_from_path (path_str f) (parts f) in
        if upload_raises f then count_failed l
        else
          let stored :=
            {| videos := videos l;
               objects := objects l ++ [(s3_key, path_str f)];
               uploaded := uploaded l;
               skipped_videos := skipped_videos l;
               failed := failed l |} in
          if commit_raises f then count_failed stored
          else
            {| videos := videos stored ++
                 [{| v_filename := name f;
                     v_original_filename := name f;
                     v_s3_key := s3_key;
                     v_s3_bucket := s3_bucket;
                     v_file_size_bytes := file_size;
                     v_duration_seconds :=
                       if positive duration then Some duration else None;
                     v_format := video_format f;
                     v_status := "uploaded";
                     v_speaker := Meta.speaker metadata;
                     v_event_name := Meta.event_name metadata;
                     v_event_date := Meta.event_date metadata;
                     v_description := Meta.description metadata |}];
               objects := objects stored;
               uploaded := S (uploaded stored);
               skipped_videos := skipped_videos stored;
               failed := failed stored |}
    end.

(** [batch_upload(source_dir)] without [dry_run]: the counters start at
    zero and the files are handled one after the other. *)
Definition batch_upload (l : Library) (video_files : list VideoFile) : Library :=
  List.fold_left upload_one video_files
    {| videos := videos l; objects := objects l;
       uploaded := 0; skipped_videos := 0; failed := 0 |}.

End BatchLoop.

Arguments v_filename {seconds} _.
Arguments v_original_filename {seconds} _.
Arguments v_s3_key {seconds} _.
Arguments v_s3_bucket {seconds} _.
Arguments v_file_size_bytes {seconds} _.
Arguments v_duration_seconds {seconds} _.
Arguments v_format {seconds} _.
Arguments v_status {seconds} _.
Arguments v_speaker {seconds} _.
Arguments v_event_name {seconds} _.
Arguments v_event_date {seconds} _.
Arguments v_description {seconds} _.
Arguments path_str {seconds} _.
Arguments name {seconds} _.
Arguments parts {seconds} _.
Arguments query_raises {seconds} _.
Arguments stat_size {seconds} _.
Arguments probed {seconds} _.
Arguments upload_raises {seconds} _.
Arguments commit_raises {seconds} _.
Arguments videos {seconds} _.
Arguments objects {seconds} _.
Arguments uploaded {seconds} _.
Arguments skipped_videos {seconds} _.
Arguments failed {seconds} _.
Arguments known {seconds} _ _.
Arguments video_format {seconds} _.
Arguments count_failed {seconds} _.
Arguments upload_one md5 s3_bucket {seconds} positive l f.
Arguments batch_upload md5 s3_bucket {seconds} positive l video_files.

(* ===================================================================== *)
(** * More examples *)
(* ===================================================================== *)

Module MoreExamples.

(** A video of the archive, a file of the same name in another folder, and
    a table with nothing in it. *)
Definition launch_video : VideoFile Z :=
  {| path_str := "/archive/19990512 - Space Summit/launch.MP4";
     name := "launch.MP4";
     parts := ["/"; "archive"; "19990512 - Space Summit"; "launch.MP4"];
     query_raises := false;
     stat_size := Returned 1048576%N;
     probed := 95%Z;
     upload_raises := false;
     commit_raises := false |}.

Definition launch_copy : VideoFile Z :=
  {| path_str := "/archive/copies/launch.MP4";
     name := "launch.MP4";
     parts := ["/"; "archive"; "copies"; "launch.MP4"];
     query_raises := false;
     stat_size := Returned 1048576%N;
     probed := 95%Z;
     upload_raises := false;
     commit_raises := false |}.

Definition empty_library : Library Z :=
  {| videos := []; objects := []; uploaded := 0; skipped_videos := 0;
     failed := 0 |}.

(** An export with a line between the header and the first timestamp
    line. *)
Definition preface : list string :=
  ["Memo"; "Fri, Dec 05, 2025 10:47AM • 21:01";
   "SUMMARY KEYWORDS"; "memo"; "SPEAKERS"; "Alice";
   "Transcribed by a machine"; "Alice  0:05"; "Hello there."].

End MoreExamples.

(* ===================================================================== *)
(** * Predicates of the further properties *)
(* ===================================================================== *)

(** ** The orchestrator *)

(** The file will be imported: it has its media file and no record, its
    document has at least three lines, and the upload, when there is
    one, succeeds. *)
Definition importable (upload_audio : bool) (w : World) (f : DocxFile) : bool :=
  (mp3_exists f && negb (existing w (mp3_name f))
   && match document f with
      | Returned doc => (3 <=? List.length (paragraphs_of doc))%nat
      | Raised => false
      end
   && (negb upload_audio || upload_succeeds f))%bool.

(** What a call added: the new recordings, in order, and the objects
    stored for them. *)
Definition added (upload_audio : bool) (w w' : World) : Prop :=
  exists rs os,
    recordings w' = (recordings w ++ rs)%list /\
    bucket w' = (bucket w ++ os)%list /\
    List.length rs = imported w' /\
    (if upload_audio
     then os = List.map (fun r => (Db.s3_key r, Db.original_filename r)) rs
     else os = []).

(** The original file names of the catalog. *)
Definition names (w : World) : list string :=
  List.map Db.original_filename (recordings w).

(** The objects that the uploads of the recordings [rs] put into the
    bucket. *)
Definition stored (upload_audio : bool) (rs : list Db.AudioRecording)
    : list (string * string) :=
  if upload_audio
  then List.map (fun r => (Db.s3_key r, Db.original_filename r)) rs
  else [].

(** ** The parser *)

(** The test of the segment loop as a boolean. *)
Definition is_timestamp_line (para : string) : bool :=
  match re_match timestamp_pattern para with
  | Some _ => true
  | None => false
  end.

(** The list comes from a labeled block of the header: [label] stands at
    an index from 2 to 9, and the list is made of the trimmed pieces of the
    line behind it. *)
Definition from_block (paragraphs : list string) (label : string)
    (pieces : list string) : Prop :=
  exists i values,
    (2 <= i < 10)%nat /\
    nth_error paragraphs i = Some label /\
    nth_error paragraphs (i + 1) = Some values /\
    pieces = List.map Str.strip (Str.split "," values) /\
    pieces <> [].

(** The two states differ at most in the text accumulated before any
    timestamp line. *)
Definition same_but_loose_text (a b : Scan.state) : Prop :=
  Scan.segments a = Scan.segments b /\
  Scan.current_speaker a = Scan.current_speaker b /\
  Scan.current_start a = Scan.current_start b /\
  Scan.segment_index a = Scan.segment_index b /\
  (Scan.current_start a = None \/ Scan.current_text a = Scan.current_text b).

(** One if a segment has been started, zero otherwise. *)
Definition started (st : Scan.state) : nat :=
  match Scan.current_start st with Some _ => 1 | None => 0 end.

(** No start is negative. *)
Definition starts_nonneg (st : Scan.state) : Prop :=
  (forall v, Scan.current_start st = Some v -> (0 <= v)%Z) /\
  Forall (fun seg => (0 <= p_start_time seg)%Z) (Scan.segments st).

(** Two states with the same loose text take the same turn. *)
Definition same_turn (x y : exn Scan.state) : Prop :=
  match x, y with
  | Returned a, Returned b => same_but_loose_text a b
  | Raised, Raised => True
  | _, _ => False
  end.

(** The guard of the text branch of the segment loop. *)
Definition spoken (para : string) : bool :=
  (Str.nonempty para && negb (Str.startswith "SUMMARY" para)
   && negb (Str.startswith "SPEAKERS" para))%bool.

(** The segments of the state begin with [base]. *)
Definition extends (base : list Pending) (st : Scan.state) : Prop :=
  exists more, Scan.segments st = (base ++ more)%list.

(** The timestamp pattern behind its first group: [\s*(clock)\s*$]. *)
Definition timestamp_rest : re :=
  seq [star Chars.is_space; Grp 2 clock; star Chars.is_space; Eos].

(** What the matcher of the timestamp pattern does once the first group
    has taken [t1] (or nothing). *)
Definition after_name (t1 : string) (j : nat) (s1 : string) (cs1 : caps)
    : option caps :=
  rmatch timestamp_rest j s1 cs1 (fun t2 => accept (t1 ++ t2)).

(** Blanks, then characters that are no blanks, then blanks: [phase] is 0
    in the first run, 1 in the second and 2 in the third. *)
Fixpoint spaced (phase : nat) (s : string) : bool :=
  match s with
  | EmptyString => true
  | String c s' =>
      match phase with
      | 0 => if Chars.is_space c then spaced 0 s' else spaced 1 s'
      | 1 => if Chars.is_space c then spaced 2 s' else spaced 1 s'
      | _ => if Chars.is_space c then spaced 2 s' else false
      end
  end.

(** ** The batch upload *)

(** The original file names of the table of videos. *)
Definition video_names {seconds : Type} (l : Library seconds) : list string :=
  List.map v_original_filename (videos l).

(** [v] is the row that the loop writes for the file [f]. *)
Definition registered {seconds : Type} (md5 : string -> N)
    (s3_bucket : string) (f : VideoFile seconds) (v : Video seconds) : Prop :=
  v_filename v = name f /\
  v_original_filename v = name f /\
  v_s3_key v = video_s3_key md5 (path_str f) (name f) /\
  v_s3_bucket v = s3_bucket /\
  v_status v = "uploaded" /\
  v_speaker v = "Dan Goldin" /\
  v_event_name v = Meta.find_event (parts f) /\
  v_event_date v = Meta.find_date (path_str f).

(** [sub] occurs in [s]. *)
Definition occurs (sub s : string) : Prop :=
  exists a b, s = a ++ sub ++ b.

(** [s] is [a], the first occurrence of [sep] and [b]. *)
Definition first_cut (sep s a b : string) : Prop :=
  s = a ++ sep ++ b /\
  forall a' b', s = a' ++ sep ++ b' ->
                (String.length a <= String.length a')%nat.

(** The leftmost [n] consecutive digits of [s]. *)
Fixpoint leftmost_digits (n : nat) (s : string) : option string :=
  if (Nat.eqb (String.length (Str.take n s)) n
      && Str.all Chars.is_digit (Str.take n s))%bool
  then Some (Str.take n s)
  else match s with
       | EmptyString => None
       | String _ s' => leftmost_digits n s'
       end.

(* ===================================================================== *)
(** * Facts about strings *)
(* ===================================================================== *)

Module StrFacts.

Lemma app_assoc (a b c : string) : (a ++ b) ++ c = a ++ (b ++ c).
Proof. induction a as [|x a IH]; simpl; [reflexivity | now rewrite IH]. Qed.

Lemma app_nil_r (a : string) : a ++ "" = a.
Proof. induction a as [|x a IH]; simpl; [reflexivity | now rewrite IH]. Qed.

Lemma length_app (a b : string) :
  String.length (a ++ b) = (String.length a + String.length b)%nat.
Proof. induction a as [|x a IH]; simpl; [reflexivity | now rewrite IH]. Qed.

Lemma all_app p (a b : string) :
  Str.all p (a ++ b) = (Str.all p a && Str.all p b)%bool.
Proof.
  induction a as [|x a IH]; simpl; [reflexivity|].
  rewrite IH. now rewrite andb_assoc.
Qed.

Lemma nonempty_length (a : string) :
  (1 <= String.length a)%nat -> Str.nonempty a = true.
Proof. destruct a; simpl; [lia | reflexivity]. Qed.

Lemma nonempty_app_l (a b : string) :
  Str.nonempty a = true -> Str.nonempty (a ++ b) = true.
Proof. destruct a; simpl; [discriminate | reflexivity]. Qed.

(** A piece without the separator, followed by the separator, is the
    first piece of the split. *)
Lemma split_piece sep (a r : string) :
  Str.all (fun c => negb (Ascii.eqb c sep)) a = true ->
  Str.split sep (a ++ String sep r) = a :: Str.split sep r.
Proof.
  induction a as [|x a IH]; simpl; intros H.
  - now rewrite Ascii.eqb_refl.
  - apply andb_true_iff in H as [Hx Ha].
    apply negb_true_iff in Hx. rewrite Hx, (IH Ha). reflexivity.
Qed.

Lemma split_last sep (a : string) :
  Str.all (fun c => negb (Ascii.eqb c sep)) a = true ->
  Str.split sep a = [a].
Proof.
  induction a as [|x a IH]; simpl; intros H; [reflexivity|].
  apply andb_true_iff in H as [Hx Ha].
  apply negb_true_iff in Hx. rewrite Hx, (IH Ha). reflexivity.
Qed.

Lemma all_impl (p q : ascii -> bool) (a : string) :
  (forall c, p c = true -> q c = true) ->
  Str.all p a = true -> Str.all q a = true.
Proof.
  intros Hpq. induction a as [|x a IH]; simpl; [reflexivity|].
  intros H. apply andb_true_iff in H as [Hx Ha].
  now rewrite (Hpq _ Hx), (IH Ha).
Qed.

Lemma digit_not_colon c : Chars.is_digit c = true -> negb (Ascii.eqb c ":") = true.
Proof.
  intros H. destruct (Ascii.eqb_spec c ":") as [->|]; [discriminate H | reflexivity].
Qed.

End StrFacts.

(* ===================================================================== *)
(** * Soundness of the matcher *)
(* ===================================================================== *)

Module ReFacts.

Lemma rep_sound {A} g p : forall s lo hi i (k : string -> nat -> string -> option A) a,
  rep g p lo hi i s k = Some a ->
  exists t s' j, s = t ++ s' /\ Str.all p t = true /\
    (lo <= String.length t)%nat /\ fits hi (String.length t) /\
    k t j s' = Some a.
Proof.
  assert (Hstop : forall s lo hi i (k : string -> nat -> string -> option A) a,
    (if Nat.eqb lo 0 then k "" i s else None) = Some a ->
    exists t s' j, s = t ++ s' /\ Str.all p t = true /\
      (lo <= String.length t)%nat /\ fits hi (String.length t) /\
      k t j s' = Some a).
  { intros s lo hi i k a H. destruct (Nat.eqb_spec lo 0) as [->|]; [|discriminate].
    exists "", s, i. repeat split; simpl; auto; try lia.
    destruct hi; simpl; lia || exact I. }
  induction s as [|c s IH]; intros lo hi i k a H.
  - destruct g; simpl in H.
    + eapply Hstop; eassumption.
    + destruct (if Nat.eqb lo 0 then k "" i "" else None) eqn:E.
      * inversion H; subst. eapply Hstop; eassumption.
      * discriminate.
  - assert (Hmore :
      (if (p c && room hi)%bool
       then rep g p (pred lo) (less hi) (S i) s (fun t => k (String c t))
       else None) = Some a ->
      exists t s' j, String c s = t ++ s' /\ Str.all p t = true /\
        (lo <= String.length t)%nat /\ fits hi (String.length t) /\
        k t j s' = Some a).
    { intros Hm. destruct (p c && room hi)%bool eqn:E; [|discriminate].
      apply andb_true_iff in E as [Hp Hr].
      apply IH in Hm as (t & s' & j & -> & Hall & Hlo & Hhi & Hk).
      exists (String c t), s', j. simpl. rewrite Hp, Hall.
      repeat split; auto; try lia.
      destruct hi as [[|h]|]; simpl in *; try discriminate; try lia; exact I. }
    destruct g; simpl in H.
    + match type of H with
      | match ?x with _ => _ end = _ =>
          case_eq x; [intros a0 E | intros E]; rewrite E in H
      end.
      * inversion H; subst. apply Hmore. exact E.
      * eapply Hstop; eassumption.
    + match type of H with
      | match ?x with _ => _ end = _ =>
          case_eq x; [intros a0 E | intros E]; rewrite E in H
      end.
      * inversion H; subst. eapply Hstop; eassumption.
      * apply Hmore. exact H.
Qed.

Theorem rmatch_sound r : forall i s cs k res,
  rmatch r i s cs k = Some res ->
  exists t s' j cs', s = t ++ s' /\ matched r cs t s' cs' /\
    k t j s' cs' = Some res.
Proof.
  induction r as [|p|r1 IH1 r2 IH2|r1 IH1 r2 IH2|g lo hi p|r1 IH1|n r1 IH1| |];
    intros i s cs k res H; simpl in H.
  - exists "", s, i, cs. repeat split; auto. constructor.
  - destruct s as [|c s]; [discriminate|].
    destruct (p c) eqn:Hp; [|discriminate].
    exists (String c ""), s, (S i), cs. repeat split; auto. now constructor.
  - apply IH1 in H as (t1 & s1 & j1 & cs1 & -> & M1 & H).
    apply IH2 in H as (t2 & s2 & j2 & cs2 & -> & M2 & H).
    exists (t1 ++ t2), s2, j2, cs2. rewrite StrFacts.app_assoc.
    repeat split; auto. econstructor; eassumption.
  - destruct (rmatch r1 i s cs k) eqn:E.
    + inversion H; subst. apply IH1 in E as (t & s' & j & cs' & -> & M & E).
      exists t, s', j, cs'. repeat split; auto. now apply M_AltL.
    + apply IH2 in H as (t & s' & j & cs' & -> & M & E').
      exists t, s', j, cs'. repeat split; auto. now apply M_AltR.
  - apply rep_sound in H as (t & s' & j & -> & Hall & Hlo & Hhi & H).
    exists t, s', j, cs. repeat split; auto. now constructor.
  - destruct (rmatch r1 i s cs k) eqn:E.
    + inversion H; subst. apply IH1 in E as (t & s' & j & cs' & -> & M & E).
      exists t, s', j, cs'. repeat split; auto. now apply M_OptYes.
    + exists "", s, i, cs. repeat split; auto. apply M_OptNo.
  - apply IH1 in H as (t & s' & j & cs' & -> & M & H).
    exists t, s', j, ((n, t) :: cs'). repeat split; auto. now constructor.
  - destruct (Nat.eqb i 0); [|discriminate].
    exists "", s, i, cs. repeat split; auto. constructor.
  - destruct s as [|c [|c' s]]; try discriminate.
    + exists "", "", i, cs. repeat split; auto. constructor. now left.
    + destruct (Ascii.eqb_spec c "010") as [->|]; [|discriminate].
      exists "", (String "010" ""), i, cs. repeat split; auto.
      constructor. now right.
Qed.

End ReFacts.

(* ===================================================================== *)
(** * The clock tokens of the two patterns *)
(* ===================================================================== *)

Module ClockFacts.

Import ReFacts.

Lemma same_eq a c : Chars.same a c = true -> c = a.
Proof. unfold Chars.same. intros H. symmetry. now apply Ascii.eqb_eq. Qed.

Lemma digits_of_rep t :
  Str.all Chars.is_digit t = true -> (1 <= String.length t)%nat -> digits t.
Proof. intros H1 H2. split; [now apply StrFacts.nonempty_length | exact H1]. Qed.

Lemma clock_shape cs t s cs' :
  matched clock cs t s cs' -> is_clock t /\ cs' = cs.
Proof.
  cbv [clock seq plus lit]. intros H. invert_matched;
    repeat match goal with
    | H : Chars.same _ _ = true |- _ => apply same_eq in H; subst
    end; simpl; split; try reflexivity.
  - apply clock_hms; now apply digits_of_rep.
  - rewrite StrFacts.app_nil_r. apply clock_ms; now apply digits_of_rep.
Qed.

Lemma int_digits a : digits a -> int a = Returned (digits_value 0 a).
Proof. intros [H1 H2]. unfold int. now rewrite H1, H2. Qed.

Lemma digits_no_colon a :
  digits a -> Str.all (fun c => negb (Ascii.eqb c ":")) a = true.
Proof.
  intros [_ H]. revert H. apply StrFacts.all_impl, StrFacts.digit_not_colon.
Qed.

Lemma clock_seconds_value old t v :
  clock_value t v -> clock_seconds old (Str.split ":" t) = Returned (Some v).
Proof.
  intros [a b Ha Hb | a b c Ha Hb Hc].
  - rewrite StrFacts.split_piece by now apply digits_no_colon.
    rewrite StrFacts.split_last by now apply digits_no_colon.
    simpl. now rewrite (int_digits _ Ha), (int_digits _ Hb).
  - rewrite StrFacts.split_piece by now apply digits_no_colon.
    rewrite StrFacts.split_piece by now apply digits_no_colon.
    rewrite StrFacts.split_last by now apply digits_no_colon.
    simpl. now rewrite (int_digits _ Ha), (int_digits _ Hb), (int_digits _ Hc).
Qed.

Lemma clock_has_value t : is_clock t -> exists v, clock_value t v.
Proof.
  intros [a b Ha Hb | a b c Ha Hb Hc]; eexists; constructor; assumption.
Qed.

(** [int] never raises on the fields of a clock token. *)
Lemma int_of_clock_field old t :
  is_clock t -> exists v, clock_seconds old (Str.split ":" t) = Returned (Some v).
Proof.
  intros H. destruct (clock_has_value _ H) as [v Hv].
  exists v. now apply clock_seconds_value.
Qed.

(** A match of the timestamp pattern always has group 2, a clock token. *)
Lemma timestamp_group2 para m :
  re_match timestamp_pattern para = Some m ->
  exists tc, group m 2 = Some tc /\ is_clock tc.
Proof.
  unfold re_match. intros H.
  apply rmatch_sound in H as (t & s' & j & cs' & _ & M & H).
  unfold accept in H. inversion H; subst; clear H.
  cbv [timestamp_pattern seq star lazy_plus] in M.
  invert_matched;
    match goal with
    | H : matched clock _ _ _ _ |- _ => apply clock_shape in H as [Hc ->]
    end; eexists; (split; [reflexivity | exact Hc]).
Qed.

Lemma search_from_sound r : forall s i m,
  search_from r i s = Some m ->
  exists a b j, s = a ++ b /\ rmatch r j b [] accept = Some m.
Proof.
  induction s as [|c s IH]; intros i m H; simpl in H.
  - destruct (rmatch r i "" [] accept) eqn:E; [|discriminate].
    inversion H; subst. now exists "", "", i.
  - destruct (rmatch r i (String c s) [] accept) eqn:E.
    + inversion H; subst. now exists "", (String c s), i.
    + apply IH in H as (a & b & j & -> & H).
      now exists (String c a), b, j.
Qed.

(** A match of the duration pattern always has group 1, a clock token. *)
Lemma duration_group1 line m :
  re_search duration_pattern line = Some m ->
  exists tc, group m 1 = Some tc /\ is_clock tc.
Proof.
  unfold re_search. intros H.
  apply search_from_sound in H as (a & b & j & _ & H).
  apply rmatch_sound in H as (t & s' & j' & cs' & _ & M & H).
  unfold accept in H. inversion H; subst; clear H.
  cbv [duration_pattern seq star] in M.
  invert_matched;
    match goal with
    | H : matched clock _ _ _ _ |- _ => apply clock_shape in H as [Hc ->]
    end; eexists; (split; [reflexivity | exact Hc]).
Qed.

End ClockFacts.

(* ===================================================================== *)
(** * The parser returns *)
(* ===================================================================== *)

Module ParserFacts.

Import ClockFacts.

Lemma step_returns st para : exists st', Scan.step st para = Returned st'.
Proof.
  unfold Scan.step. destruct (re_match timestamp_pattern para) as [m|] eqn:E.
  - destruct (timestamp_group2 _ _ E) as (tc & Hg & Hc).
    unfold Scan.on_timestamp. rewrite Hg.
    destruct (int_of_clock_field (Scan.current_start (Scan.flush st)) _ Hc)
      as [v Hv].
    rewrite Hv. cbn [bind]. eauto.
  - eauto.
Qed.

Lemma run_returns paras : forall st, exists st', Scan.run st paras = Returned st'.
Proof.
  induction paras as [|para rest IH]; intros st; cbn [Scan.run]; [eauto|].
  destruct (step_returns st para) as [st' ->]. cbn [bind]. apply IH.
Qed.

Lemma scan_returns paras : exists segs, Scan.scan paras = Returned segs.
Proof.
  unfold Scan.scan. destruct (run_returns paras Scan.init) as [st ->].
  cbn [bind]. eauto.
Qed.

Lemma extract_duration_returns line : exists v, extract_duration line = Returned v.
Proof.
  unfold extract_duration.
  destruct (re_search duration_pattern line) as [m|] eqn:E; [|eauto].
  destruct (duration_group1 _ _ E) as (tc & -> & Hc).
  destruct (int_of_clock_field None _ Hc) as [v Hv]. eauto.
Qed.

Lemma bind_inv {A B} (x : exn A) (f : A -> exn B) b :
  bind x f = Returned b -> exists a, x = Returned a /\ f a = Returned b.
Proof. destruct x as [a|]; simpl; [eauto | discriminate]. Qed.

Lemma returned_inj {A} (a b : A) : Returned a = Returned b -> a = b.
Proof. congruence. Qed.

Lemma some_inj {A} (a b : A) : Some a = Some b -> a = b.
Proof. congruence. Qed.

(** What a returned transcript is made of. *)
Lemma parse_inv stem doc t :
  parse_otter_docx stem doc = Returned (Some t) ->
  (3 <= List.length (paragraphs_of doc))%nat /\
  exists date_line segs,
    nth_error (paragraphs_of doc) 1 = Some date_line /\
    extract_duration date_line = Returned (duration_seconds t) /\
    recording_date t = extract_date date_line /\
    Scan.scan (List.skipn 6 (paragraphs_of doc)) = Returned segs /\
    segments t = add_end_times (duration_seconds t) segs.
Proof.
  unfold parse_otter_docx.
  destruct (Nat.ltb_spec (List.length (paragraphs_of doc)) 3) as [Hlt|Hge];
    [discriminate|].
  intros H. split; [exact Hge|].
  apply bind_inv in H as ([dt du] & Hh & H).
  apply bind_inv in H as (segs & Hs & H).
  apply returned_inj, some_inj in H. subst t.
  cbn [duration_seconds recording_date segments fst snd].
  destruct (nth_error (paragraphs_of doc) 1) as [date_line|] eqn:E1.
  - apply bind_inv in Hh as (d & Hd & Hh). inversion Hh; subst; clear Hh.
    exists date_line, segs. repeat split; assumption.
  - apply nth_error_None in E1. lia.
Qed.

(** The parser never raises: it returns [None] for a short document and a
    transcript for any other. *)
Lemma parse_returns stem doc :
  ((List.length (paragraphs_of doc) < 3)%nat ->
     parse_otter_docx stem doc = Returned None) /\
  ((3 <= List.length (paragraphs_of doc))%nat ->
     exists t, parse_otter_docx stem doc = Returned (Some t)).
Proof.
  unfold parse_otter_docx.
  destruct (Nat.ltb_spec (List.length (paragraphs_of doc)) 3) as [Hlt|Hge];
    split; intros H; try lia; [reflexivity|].
  destruct (scan_returns (List.skipn 6 (paragraphs_of doc))) as [segs Hs].
  destruct (nth_error (paragraphs_of doc) 1) as [date_line|].
  - destruct (extract_duration_returns date_line) as [d Hd].
    eexists. rewrite Hd. cbn [bind]. rewrite Hs. cbn [bind]. reflexivity.
  - eexists. cbn [bind]. rewrite Hs. cbn [bind]. reflexivity.
Qed.

(** An invariant of the scan is kept by every turn of the loop. *)
Lemma run_invariant (P : Scan.state -> Prop) :
  (forall st para st', P st -> Scan.step st para = Returned st' -> P st') ->
  forall paras st st', P st -> Scan.run st paras = Returned st' -> P st'.
Proof.
  intros Hstep. induction paras as [|para rest IH]; intros st st' HP H;
    cbn [Scan.run] in H.
  - now inversion H; subst.
  - destruct (Scan.step st para) as [st1|] eqn:E; cbn [bind] in H; [|discriminate].
    eapply IH; [|exact H]. eapply Hstep; eassumption.
Qed.

(** The two shapes of a turn. *)
Lemma step_cases st para st' :
  Scan.step st para = Returned st' ->
  (exists m start,
      re_match timestamp_pattern para = Some m /\
      st' = {| Scan.segments := Scan.segments (Scan.flush st);
               Scan.current_speaker :=
                 Scan.update_speaker (group m 1)
                   (Scan.current_speaker (Scan.flush st));
               Scan.current_start := Some start;
               Scan.current_text := [];
               Scan.segment_index := Scan.segment_index (Scan.flush st) |})
  \/ (re_match timestamp_pattern para = None /\ st' = Scan.on_text st para).
Proof.
  unfold Scan.step. destruct (re_match timestamp_pattern para) as [m|] eqn:E.
  - intros H. left. destruct (timestamp_group2 _ _ E) as (tc & Hg & Hc).
    unfold Scan.on_timestamp in H. rewrite Hg in H.
    destruct (int_of_clock_field (Scan.current_start (Scan.flush st)) _ Hc)
      as [v Hv].
    rewrite Hv in H. cbn [bind] in H. inversion H; subst. eauto.
  - intros H. right. inversion H; subst. auto.
Qed.

Lemma header_loop_turn fuel paragraphs i kw sp :
  header_loop (S fuel) paragraphs i kw sp =
  if ((i <? List.length paragraphs) && (i <? 10))%bool%nat then
    match nth_error paragraphs i, nth_error paragraphs (i + 1) with
    | Some line, Some values =>
        if String.eqb line "SUMMARY KEYWORDS" then
          header_loop fuel paragraphs (i + 2)
            (List.map Str.strip (Str.split "," values)) sp
        else if String.eqb line "SPEAKERS" then
          header_loop fuel paragraphs (i + 2)
            kw (List.map Str.strip (Str.split "," values))
        else header_loop fuel paragraphs (i + 1) kw sp
    | _, _ => header_loop fuel paragraphs (i + 1) kw sp
    end
  else (kw, sp).
Proof. reflexivity. Qed.

(** Eight turns are enough for the header loop: more fuel changes
    nothing. *)
Lemma header_loop_fuel paragraphs : forall fuel i kw sp,
  (10 - i <= fuel)%nat ->
  header_loop (S fuel) paragraphs i kw sp = header_loop fuel paragraphs i kw sp.
Proof.
  induction fuel as [|fuel IH]; intros i kw sp H.
  - rewrite header_loop_turn.
    destruct (Nat.ltb_spec i 10); [lia|]. now rewrite andb_false_r.
  - rewrite (header_loop_turn (S fuel) paragraphs i kw sp).
    rewrite (header_loop_turn fuel paragraphs i kw sp).
    destruct ((i <? List.length paragraphs) && (i <? 10))%bool%nat;
      [|reflexivity].
    destruct (nth_error paragraphs i) as [line|];
      [destruct (nth_error paragraphs (i + 1)) as [values|]|];
      try (apply IH; lia).
    destruct (String.eqb line "SUMMARY KEYWORDS"); [apply IH; lia|].
    destruct (String.eqb line "SPEAKERS"); apply IH; lia.
Qed.

(** The export of the docstring: date 2025-12-05, duration 1261 seconds,
    three keywords, two speakers, and three segments (the timestamp line
    without text leaves none). *)
Example town_hall_parsed :
  parse_otter_docx "town_hall" Examples.town_hall
  = Returned (Some Examples.town_hall_transcript).
Proof. vm_compute. reflexivity. Qed.

End ParserFacts.

(* ===================================================================== *)
(** * Invariants of the segment scan *)
(* ===================================================================== *)

Module ScanFacts.

Import ParserFacts.

Lemma flush_cases st :
  (exists start line rest,
      Scan.current_start st = Some start /\
      Scan.current_text st = line :: rest /\
      Scan.segments (Scan.flush st) =
        (Scan.segments st ++
          [{| p_segment_index := Scan.segment_index st;
              p_start_time := start;
              p_speaker := Scan.current_speaker st;
              p_text := Str.join " " (line :: rest) |}])%list /\
      Scan.segment_index (Scan.flush st) = S (Scan.segment_index st) /\
      Scan.current_speaker (Scan.flush st) = Scan.current_speaker st /\
      Scan.current_text (Scan.flush st) = Scan.current_text st)
  \/ ((Scan.current_start st = None \/ Scan.current_text st = []) /\
      Scan.flush st = st).
Proof.
  unfold Scan.flush.
  destruct (Scan.current_start st) as [start|] eqn:Es;
    destruct (Scan.current_text st) as [|line rest] eqn:Et; simpl; auto.
  left. exists start, line, rest. auto 10.
Qed.

Lemma flush_indexed st : indexed st -> indexed (Scan.flush st).
Proof.
  unfold indexed. intros H.
  destruct (flush_cases st) as [(start & line & rest & _ & _ & -> & -> & _) | [_ ->]];
    [|exact H].
  rewrite List.map_app, H, List.seq_S. reflexivity.
Qed.

Lemma join_nonempty line rest :
  Str.nonempty line = true -> Str.nonempty (Str.join " " (line :: rest)) = true.
Proof.
  intros H. unfold Str.join. simpl. destruct rest; [exact H|].
  now apply StrFacts.nonempty_app_l.
Qed.

Lemma flush_worded st : worded st -> worded (Scan.flush st).
Proof.
  unfold worded. intros [Ht Hs].
  destruct (flush_cases st)
    as [(start & line & rest & _ & Et & -> & _ & _ & ->) | [_ ->]]; [|now split].
  split; [exact Ht|].
  apply Forall_app. split; [exact Hs|].
  constructor; [|constructor]. simpl.
  rewrite Et in Ht. inversion Ht; subst. now apply join_nonempty.
Qed.

Lemma on_text_cases st para :
  (Scan.on_text st para = st) \/
  (Str.nonempty para = true /\
   Scan.segments (Scan.on_text st para) = Scan.segments st /\
   Scan.segment_index (Scan.on_text st para) = Scan.segment_index st /\
   Scan.current_text (Scan.on_text st para) = (Scan.current_text st ++ [para])%list).
Proof.
  unfold Scan.on_text.
  destruct (Str.nonempty para) eqn:E; simpl; [|now left].
  destruct (negb (Str.startswith "SUMMARY" para)
            && negb (Str.startswith "SPEAKERS" para))%bool; [|now left].
  right. auto.
Qed.

Lemma step_indexed st para st' :
  indexed st -> Scan.step st para = Returned st' -> indexed st'.
Proof.
  intros H Hs. apply step_cases in Hs as [(m & start & _ & ->) | [_ ->]].
  - apply flush_indexed in H. exact H.
  - destruct (on_text_cases st para) as [-> | (_ & Hseg & Hidx & _)]; [exact H|].
    unfold indexed. now rewrite Hseg, Hidx.
Qed.

Lemma step_worded st para st' :
  worded st -> Scan.step st para = Returned st' -> worded st'.
Proof.
  intros H Hs. apply step_cases in Hs as [(m & start & _ & ->) | [_ ->]].
  - apply flush_worded in H. destruct H as [_ H]. split; [constructor | exact H].
  - destruct (on_text_cases st para) as [-> | (Hne & Hseg & _ & Htxt)]; [exact H|].
    destruct H as [Ht Hs]. unfold worded. rewrite Hseg, Htxt. split; [|exact Hs].
    apply Forall_app. split; [exact Ht | now repeat constructor].
Qed.

Lemma scan_indexed paras segs :
  Scan.scan paras = Returned segs ->
  List.map p_segment_index segs = List.seq 0 (List.length segs).
Proof.
  unfold Scan.scan. intros H. apply bind_inv in H as (st & Hrun & H).
  apply returned_inj in H. subst segs.
  assert (Hi : indexed (Scan.flush st)).
  { apply flush_indexed.
    eapply (run_invariant indexed); [apply step_indexed | | exact Hrun].
    reflexivity. }
  unfold indexed in Hi.
  assert (Hl : List.length (Scan.segments (Scan.flush st))
               = Scan.segment_index (Scan.flush st)).
  { rewrite <- (List.length_map p_segment_index), Hi. apply List.length_seq. }
  now rewrite Hl.
Qed.

Lemma scan_worded paras segs :
  Scan.scan paras = Returned segs ->
  Forall (fun seg => Str.nonempty (p_text seg) = true) segs.
Proof.
  unfold Scan.scan. intros H. apply bind_inv in H as (st & Hrun & H).
  apply returned_inj in H. subst segs.
  apply flush_worded.
  eapply (run_invariant worded); [apply step_worded | | exact Hrun].
  split; constructor.
Qed.

(** ** The end-time pass *)

Lemma enumerate_lookup {A} (l : list A) : forall k i,
  nth_error (enumerate_from k l) i =
  match nth_error l i with Some x => Some ((k + i)%nat, x) | None => None end.
Proof.
  induction l as [|x l IH]; intros k [|i]; simpl; try reflexivity.
  - now rewrite Nat.add_0_r.
  - rewrite IH. now rewrite Nat.add_succ_r.
Qed.

Lemma enumerate_length {A} (l : list A) : forall k,
  List.length (enumerate_from k l) = List.length l.
Proof. induction l; intros k; simpl; [reflexivity | now rewrite IHl]. Qed.

Lemma add_end_times_length d segs :
  List.length (add_end_times d segs) = List.length segs.
Proof. unfold add_end_times. now rewrite List.length_map, enumerate_length. Qed.

Lemma add_end_times_lookup d segs i :
  nth_error (add_end_times d segs) i =
  match nth_error segs i with
  | Some seg => Some (close_segment d segs i seg)
  | None => None
  end.
Proof.
  unfold add_end_times. rewrite List.nth_error_map, enumerate_lookup.
  destruct (nth_error segs i); reflexivity.
Qed.

Lemma add_end_times_map {B} (f : Segment -> B) (g : Pending -> B) d segs :
  (forall i seg, f (close_segment d segs i seg) = g seg) ->
  List.map f (add_end_times d segs) = List.map g segs.
Proof.
  intros H. unfold add_end_times. rewrite List.map_map.
  assert (G : forall l k,
    List.map (fun ix => f (close_segment d segs (fst ix) (snd ix)))
             (enumerate_from k l) = List.map g l).
  { induction l as [|x l IH]; intros k; simpl; [reflexivity|].
    now rewrite H, IH. }
  apply G.
Qed.

End ScanFacts.

(* ===================================================================== *)
(** * The properties of the specification: the parser *)
(* ===================================================================== *)

Import ParserFacts ScanFacts.

(** C2.  A document with fewer than three non-empty trimmed lines makes the
    parser return [None] (the MalformedDocument condition) and no
    transcript; a document with at least three such lines makes it return
    a transcript, so it does not fail with that condition (nor raise). *)
Theorem short_document_rejected (docx_stem : string) (doc : list string) :
  if (List.length (paragraphs_of doc) <? 3)%nat
  then parse_otter_docx docx_stem doc = Returned None
  else exists t, parse_otter_docx docx_stem doc = Returned (Some t).
Proof.
  destruct (parse_returns docx_stem doc) as [Hshort Hlong].
  destruct (Nat.ltb_spec (List.length (paragraphs_of doc)) 3); auto.
Qed.

(** C3.  For a document with at least three non-empty lines the parser
    returns a transcript whose segments carry the indices 0, 1, ..., N-1 in
    list order, N being the number of segments. *)
Theorem segment_index_sequence (docx_stem : string) (doc : list string) :
  (3 <= List.length (paragraphs_of doc))%nat ->
  exists t,
    parse_otter_docx docx_stem doc = Returned (Some t) /\
    List.map segment_index (segments t) = List.seq 0 (List.length (segments t)).
Proof.
  intros Hlen. destruct (parse_returns docx_stem doc) as [_ Hlong].
  destruct (Hlong Hlen) as [t Ht]. exists t. split; [exact Ht|].
  destruct (parse_inv _ _ _ Ht) as (_ & line & segs & _ & _ & _ & Hscan & ->).
  rewrite add_end_times_length.
  rewrite (add_end_times_map segment_index p_segment_index) by reflexivity.
  now apply scan_indexed in Hscan.
Qed.

(** The sample export has three segments, numbered 0, 1, 2. *)
Lemma segment_index_sequence_witness :
  (3 <= List.length (paragraphs_of Examples.town_hall))%nat /\
  exists t,
    parse_otter_docx "town_hall" Examples.town_hall = Returned (Some t) /\
    List.map segment_index (segments t) = List.seq 0 (List.length (segments t)).
Proof.
  assert (H : (3 <= List.length (paragraphs_of Examples.town_hall))%nat)
    by (vm_compute; lia).
  split; [exact H | exact (segment_index_sequence "town_hall" Examples.town_hall H)].
Defined.

Lemma closed_lookup t d segs i a :
  segments t = add_end_times d segs ->
  nth_error (segments t) i = Some a ->
  exists seg, nth_error segs i = Some seg /\ a = close_segment d segs i seg.
Proof.
  intros -> H. rewrite add_end_times_lookup in H.
  destruct (nth_error segs i) as [seg|]; [|discriminate].
  exists seg. split; [reflexivity | congruence].
Qed.

Lemma end_time_inner d segs i seg next :
  nth_error segs (S i) = Some next ->
  end_time (close_segment d segs i seg) = p_start_time next.
Proof.
  intros H. cbn [end_time close_segment]. unfold end_time_at.
  assert (Hlt : (S i < List.length segs)%nat)
    by (apply nth_error_Some; congruence).
  replace (i + 1)%nat with (S i) by lia.
  destruct (Nat.ltb_spec (S i) (List.length segs)); [|lia].
  now rewrite H.
Qed.

Lemma end_time_last d segs i seg :
  List.length segs = S i ->
  end_time (close_segment d segs i seg) =
  match d with
  | Some d => if (d =? 0)%Z then (p_start_time seg + 30)%Z else d
  | None => (p_start_time seg + 30)%Z
  end.
Proof.
  intros H. cbn [end_time close_segment]. unfold end_time_at.
  destruct (Nat.ltb_spec (i + 1) (List.length segs)); [lia | reflexivity].
Qed.

(** In a parsed transcript a segment that has a successor ends where the
    successor starts. *)
Lemma parsed_inner_end docx_stem doc t i a b :
  parse_otter_docx docx_stem doc = Returned (Some t) ->
  nth_error (segments t) i = Some a ->
  nth_error (segments t) (S i) = Some b ->
  end_time a = start_time b.
Proof.
  intros Ht Ha Hb.
  destruct (parse_inv _ _ _ Ht) as (_ & line & segs & _ & _ & _ & _ & Hsegs).
  destruct (closed_lookup _ _ _ _ _ Hsegs Ha) as (sa & Hsa & ->).
  destruct (closed_lookup _ _ _ _ _ Hsegs Hb) as (sb & Hsb & ->).
  now rewrite (end_time_inner _ _ _ _ _ Hsb).
Qed.

(** The last segment ends at the duration when it is truthy, and 30
    seconds after its start otherwise. *)
Lemma parsed_last_end docx_stem doc t front a :
  parse_otter_docx docx_stem doc = Returned (Some t) ->
  segments t = (front ++ [a])%list ->
  end_time a = match duration_seconds t with
               | Some d => if (d =? 0)%Z then (start_time a + 30)%Z else d
               | None => (start_time a + 30)%Z
               end.
Proof.
  intros Ht Hfront.
  destruct (parse_inv _ _ _ Ht) as (_ & line & segs & _ & _ & _ & _ & Hsegs).
  assert (Ha : nth_error (segments t) (List.length front) = Some a).
  { rewrite Hfront, List.nth_error_app2, Nat.sub_diag by lia. reflexivity. }
  destruct (closed_lookup _ _ _ _ _ Hsegs Ha) as (sa & Hsa & ->).
  rewrite end_time_last; [reflexivity|].
  rewrite <- (add_end_times_length (duration_seconds t)), <- Hsegs, Hfront.
  rewrite List.length_app. simpl. lia.
Qed.

(** C1, as amended.  In every parsed transcript each segment but the last
    ends where the next one starts; the last segment ends at the recovered
    duration when there is one and it is not zero, and at its start plus
    30 seconds when no duration was recovered or the duration is zero. *)
Theorem end_times_contiguous (docx_stem : string) (doc : list string)
    (t : Transcript) :
  parse_otter_docx docx_stem doc = Returned (Some t) ->
  contiguous_as_coded t.
Proof.
  intros Ht. unfold contiguous_as_coded. split.
  - intros i a b Ha Hb.
    exact (parsed_inner_end docx_stem doc t i a b Ht Ha Hb).
  - intros front a Hfront.
    exact (parsed_last_end docx_stem doc t front a Ht Hfront).
Qed.

(** The sample export: 5-90, 90-165, and 165 to the duration 1261. *)
Lemma end_times_contiguous_witness :
  parse_otter_docx "town_hall" Examples.town_hall
    = Returned (Some Examples.town_hall_transcript) /\
  contiguous_as_coded Examples.town_hall_transcript.
Proof.
  assert (H : parse_otter_docx "town_hall" Examples.town_hall
              = Returned (Some Examples.town_hall_transcript))
    by (vm_compute; reflexivity).
  split; [exact H | exact (end_times_contiguous _ _ _ H)].
Defined.

(** C1 fails as stated: with the header duration [0:00] the duration is
    recovered (it is 0), but the last segment ends at its start plus 30. *)
Lemma end_times_zero_duration :
  ~ (forall docx_stem doc t,
       parse_otter_docx docx_stem doc = Returned (Some t) ->
       contiguous_as_specified t).
Proof.
  intros H.
  destruct (parse_returns "memo" Examples.zero_duration) as [_ Hlong].
  destruct Hlong as [t Ht]; [vm_compute; lia|].
  destruct (H _ _ _ Ht) as [_ Hlast].
  revert Ht Hlast. vm_compute. intros Ht Hlast.
  apply returned_inj, some_inj in Ht. subst t.
  specialize (Hlast [] _ eq_refl). discriminate Hlast.
Qed.

Lemma last_split {A} (l : list A) i a :
  nth_error l i = Some a -> nth_error l (S i) = None ->
  l = (List.firstn i l ++ [a])%list.
Proof.
  revert i. induction l as [|x l IH]; intros [|i] Ha Hn; simpl in *; try discriminate.
  - inversion Ha; subst. destruct l; [reflexivity | discriminate].
  - f_equal. now apply IH.
Qed.

(** C4, as amended.  The parser checks no order: a segment ends at the
    start of the next one, or at the duration.  So every segment has
    [end_time >= start_time] in a transcript whose start times do not
    decrease along the list and whose duration, when recovered and not
    zero, is not before the start of the last segment. *)
Theorem end_not_before_start (docx_stem : string) (doc : list string)
    (t : Transcript) :
  parse_otter_docx docx_stem doc = Returned (Some t) ->
  (forall i a b,
      nth_error (segments t) i = Some a ->
      nth_error (segments t) (S i) = Some b ->
      (start_time a <= start_time b)%Z) ->
  (forall front a d,
      segments t = (front ++ [a])%list ->
      duration_seconds t = Some d -> d <> 0%Z ->
      (start_time a <= d)%Z) ->
  ends_after_start t.
Proof.
  intros Ht Hmono Hdur a Hin.
  apply List.In_nth_error in Hin as [i Hi].
  destruct (nth_error (segments t) (S i)) as [b|] eqn:Hb.
  - rewrite (parsed_inner_end _ _ _ _ _ _ Ht Hi Hb). eapply Hmono; eassumption.
  - pose proof (last_split _ _ _ Hi Hb) as Hsplit.
    rewrite (parsed_last_end _ _ _ _ _ Ht Hsplit).
    destruct (duration_seconds t) as [d|] eqn:Hd; [|lia].
    destruct (Z.eqb_spec d 0); [lia|].
    eapply Hdur; eauto.
Qed.

(** The sample export has increasing start times and a duration after the
    last of them. *)
Lemma end_not_before_start_witness :
  parse_otter_docx "town_hall" Examples.town_hall
    = Returned (Some Examples.town_hall_transcript) /\
  ends_after_start Examples.town_hall_transcript.
Proof.
  assert (H : parse_otter_docx "town_hall" Examples.town_hall
              = Returned (Some Examples.town_hall_transcript))
    by (vm_compute; reflexivity).
  split; [exact H|].
  apply (end_not_before_start "town_hall" Examples.town_hall _ H).
  - intros [|[|[|i]]] a b Ha Hb; simpl in Ha, Hb;
      try discriminate; inversion Ha; inversion Hb; subst; simpl; lia.
  - intros front a d Hf Hd _. simpl in Hd. inversion Hd; subst.
    destruct front as [|x1 [|x2 [|x3 [|x4 front]]]]; simpl in Hf;
      inversion Hf; subst; simpl; try lia.
Defined.

(** C4 fails as stated: a last timestamp of 25:00 under a declared
    duration of 21:01 gives a segment from 1500 to 1261. *)
Lemma end_before_start :
  ~ (forall docx_stem doc t,
       parse_otter_docx docx_stem doc = Returned (Some t) ->
       ends_after_start t).
Proof.
  intros H.
  destruct (parse_returns "memo" Examples.late_segment) as [_ Hlong].
  destruct Hlong as [t Ht]; [vm_compute; lia|].
  pose proof (H _ _ _ Ht) as Hall.
  revert Ht Hall. vm_compute. intros Ht Hall.
  apply returned_inj, some_inj in Ht. subst t.
  apply (Hall _ (or_introl eq_refl)). reflexivity.
Qed.

Lemma run_not_accumulated mid : forall st st',
  Forall not_accumulated mid -> Scan.run st mid = Returned st' -> st' = st.
Proof.
  induction mid as [|para mid IH]; intros st st' Hmid H; cbn [Scan.run] in H.
  - now apply returned_inj in H.
  - inversion Hmid as [|? ? [Hno Hskip] Hrest]; subst.
    unfold Scan.step in H. rewrite Hno in H. cbn [bind] in H.
    unfold Scan.on_text in H. rewrite Hskip in H. now apply IH.
Qed.

Lemma flush_idle st : Scan.current_text st = [] -> Scan.flush st = st.
Proof.
  intros H. unfold Scan.flush. rewrite H. now destruct (Scan.current_start st).
Qed.

(** C10.  No segment of a parsed transcript has an empty text.  A
    timestamp line followed by no accumulated text line, up to the next
    timestamp line or the end of the input, leaves no segment behind: after
    it the list of segments and the index counter are what the flush of
    the segment before it made them, the final flush adds nothing, and
    the next timestamp line adds nothing and keeps the counter. *)
Theorem no_empty_segment :
  (forall docx_stem doc t,
      parse_otter_docx docx_stem doc = Returned (Some t) ->
      Forall (fun seg => text seg <> "") (segments t)) /\
  (forall st ts mid st1,
      is_timestamp ts -> Forall not_accumulated mid ->
      Scan.run st (ts :: mid) = Returned st1 ->
      Scan.segments st1 = Scan.segments (Scan.flush st) /\
      Scan.segment_index st1 = Scan.segment_index (Scan.flush st) /\
      Scan.segments (Scan.flush st1) = Scan.segments st1 /\
      forall ts2 st2,
        is_timestamp ts2 -> Scan.step st1 ts2 = Returned st2 ->
        Scan.segments st2 = Scan.segments st1 /\
        Scan.segment_index st2 = Scan.segment_index st1).
Proof.
  split.
  - intros docx_stem doc t Ht.
    destruct (parse_inv _ _ _ Ht) as (_ & line & segs & _ & _ & _ & Hscan & Hsegs).
    apply scan_worded in Hscan.
    assert (G : Forall (fun s => s <> "") (List.map text (segments t))).
    { rewrite Hsegs, (add_end_times_map text p_text) by reflexivity.
      apply (proj2 (Forall_map p_text (fun s => s <> "") segs)).
      revert Hscan. apply Forall_impl.
      intros seg H E. rewrite E in H. discriminate. }
    exact (proj1 (Forall_map text (fun s => s <> "") (segments t)) G).
  - intros st ts mid st1 Hts Hmid Hrun.
    cbn [Scan.run] in Hrun. apply bind_inv in Hrun as (st0 & Hstep & Hrun).
    apply (run_not_accumulated _ _ _ Hmid) in Hrun. subst st1.
    apply step_cases in Hstep as [(m & start & _ & ->) | [Hno _]];
      [|contradiction].
    cbn [Scan.segments Scan.segment_index].
    split; [reflexivity|]. split; [reflexivity|].
    split; [now rewrite flush_idle|].
    intros ts2 st2 Hts2 Hstep2.
    apply step_cases in Hstep2 as [(m2 & start2 & _ & ->) | [Hno _]];
      [|contradiction].
    cbn [Scan.segments Scan.segment_index].
    now rewrite flush_idle.
Qed.

(** The sample export, and a scan that meets a timestamp line followed
    only by a line that is not accumulated. *)
Lemma no_empty_segment_witness :
  (parse_otter_docx "town_hall" Examples.town_hall
     = Returned (Some Examples.town_hall_transcript) /\
   Forall (fun seg => text seg <> "") (segments Examples.town_hall_transcript)) /\
  (exists st1,
     is_timestamp "Jane Doe  2:10" /\
     Forall not_accumulated ["SUMMARY of the day"] /\
     Scan.run Scan.init ["Jane Doe  2:10"; "SUMMARY of the day"] = Returned st1 /\
     Scan.segments st1 = [] /\ Scan.segment_index st1 = 0%nat).
Proof.
  split.
  - assert (H : parse_otter_docx "town_hall" Examples.town_hall
                = Returned (Some Examples.town_hall_transcript))
      by (vm_compute; reflexivity).
    split; [exact H | exact (proj1 no_empty_segment _ _ _ H)].
  - eexists.
    assert (H1 : is_timestamp "Jane Doe  2:10") by (vm_compute; discriminate).
    assert (H2 : Forall not_accumulated ["SUMMARY of the day"])
      by (repeat constructor).
    assert (H3 : Scan.run Scan.init ["Jane Doe  2:10"; "SUMMARY of the day"]
                 = Returned
                     {| Scan.segments := []; Scan.current_speaker := Some "Jane Doe";
                        Scan.current_start := Some 130%Z; Scan.current_text := [];
                        Scan.segment_index := 0 |})
      by (vm_compute; reflexivity).
    destruct (proj2 no_empty_segment _ _ _ _ H1 H2 H3) as (Hs & Hi & _).
    exact (conj H1 (conj H2 (conj H3 (conj Hs Hi)))).
Defined.

(* ===================================================================== *)
(** * The speaker of a timestamp line *)
(* ===================================================================== *)

(** The assignment [if speaker_part: current_speaker = ...] is the only one
    to the current speaker: a turn of the loop keeps the speaker unless
    the line matches with a first group that is not empty. *)
Lemma speaker_kept_without_part st para st' :
  Scan.step st para = Returned st' ->
  (forall m, re_match timestamp_pattern para = Some m ->
             group m 1 = None \/ group m 1 = Some "") ->
  Scan.current_speaker st' = Scan.current_speaker st.
Proof.
  intros Hstep Hpart.
  assert (Hf : Scan.current_speaker (Scan.flush st) = Scan.current_speaker st).
  { destruct (flush_cases st)
      as [(start & line & rest & _ & _ & _ & _ & H & _) | [_ ->]]; auto. }
  apply step_cases in Hstep as [(m & start & Hm & ->) | [_ ->]].
  - cbn [Scan.current_speaker]. rewrite Hf.
    destruct (Hpart m Hm) as [-> | ->]; reflexivity.
  - unfold Scan.on_text.
    destruct (Str.nonempty para && negb (Str.startswith "SUMMARY" para)
              && negb (Str.startswith "SPEAKERS" para))%bool; reflexivity.
Qed.

(** ** Where the matcher succeeds at once *)

Module GreedyFacts.

Import ClockFacts.

(** A greedy repetition that can take a whole run and is stopped behind
    it hands the run to its continuation first. *)
Lemma rep_greedy_all {A} p :
  forall a lo i rest (k : string -> nat -> string -> option A) r,
  Str.all p a = true -> (lo <= String.length a)%nat -> blocked p rest ->
  (forall j, k a j rest = Some r) ->
  rep true p lo None i (a ++ rest) k = Some r.
Proof.
  induction a as [|x a IH]; intros lo i rest k r Hall Hlo Hb Hk.
  - simpl in Hlo. assert (lo = 0%nat) by lia. subst lo.
    cbn [append]. destruct rest as [|c rest]; cbn [rep].
    + apply Hk.
    + simpl in Hb. rewrite Hb. cbn. apply Hk.
  - simpl in Hall. apply andb_true_iff in Hall as [Hx Ha].
    cbn [append rep]. rewrite Hx. cbn [room less andb].
    rewrite (IH (pred lo) (S i) rest (fun t => k (String x t)) r); auto.
    simpl in Hlo. lia.
Qed.

Lemma rep_greedy_end {A} p a lo i (k : string -> nat -> string -> option A) r :
  Str.all p a = true -> (lo <= String.length a)%nat ->
  (forall j, k a j "" = Some r) ->
  rep true p lo None i a k = Some r.
Proof.
  intros Hall Hlo Hk. rewrite <- (StrFacts.app_nil_r a) at 1.
  apply rep_greedy_all; simpl; auto.
Qed.

(** A lazy repetition that may stop tries its continuation first. *)
Lemma rep_lazy_stop {A} p hi i s (k : string -> nat -> string -> option A) r :
  k "" i s = Some r -> rep false p 0 hi i s k = Some r.
Proof. intros H. destruct s; cbn [rep Nat.eqb]; now rewrite H. Qed.

Lemma digits_length a : digits a -> (1 <= String.length a)%nat.
Proof. intros [H _]. destruct a; simpl in *; [discriminate | lia]. Qed.

(** The clock pattern reads a clock token that ends the input in one go. *)
Lemma clock_complete T : is_clock T -> forall i cs k r,
  (forall j, k T j "" cs = Some r) -> rmatch clock i T cs k = Some r.
Proof.
  intros [a b Ha Hb | a b c Ha Hb Hc] i cs k r Hk;
    cbv [clock seq plus lit]; cbn [rmatch].
  - apply rep_greedy_all; [apply Ha | now apply digits_length | reflexivity |].
    intros j. cbn.
    apply rep_greedy_end; [apply Hb | now apply digits_length |].
    intros j'. cbn. rewrite StrFacts.app_nil_r. apply Hk.
  - apply rep_greedy_all; [apply Ha | now apply digits_length | reflexivity |].
    intros j. cbn.
    apply rep_greedy_all; [apply Hb | now apply digits_length | reflexivity |].
    intros j'. cbn.
    rewrite rep_greedy_end with (r := r);
      [reflexivity | apply Hc | now apply digits_length |].
    intros j''. cbn. apply Hk.
Qed.

Lemma digit_is_dot d : Chars.is_digit d = true -> Chars.is_dot d = true.
Proof.
  intros H. unfold Chars.is_dot.
  destruct (Ascii.eqb_spec d "010") as [->|]; [discriminate H | reflexivity].
Qed.

Lemma digit_not_space d : Chars.is_digit d = true -> Chars.is_space d = false.
Proof.
  unfold Chars.is_digit, Chars.is_space, Chars.between. intros H.
  apply andb_true_iff in H as [H1 H2].
  apply N.leb_le in H1, H2.
  apply orb_false_iff. split; apply andb_false_iff.
  - right. apply N.leb_gt. lia.
  - right. apply N.leb_gt. lia.
Qed.

Lemma clock_blocks_space T : is_clock T -> blocked Chars.is_space T.
Proof.
  intros [a b [Ha Hd] _ | a b c [Ha Hd] _ _]; destruct a as [|x a];
    try discriminate; simpl in *;
    apply andb_true_iff in Hd as [Hx _]; now apply digit_not_space.
Qed.

End GreedyFacts.

(** A bare timestamp line whose first field has two digits or more is a
    digit [d] in front of a clock token [T].  The first group, tried
    first and lazy, takes [d] alone; what follows is a clock token, so the
    match succeeds there: the speaker part is [d] and the time is read
    from [T], the line without its first digit. *)
Lemma leading_digit_taken d T :
  Chars.is_digit d = true -> is_clock T ->
  re_match timestamp_pattern (String d T)
  = Some [(0, String d T); (2, T); (1, String d "")].
Proof.
  intros Hd HT. unfold re_match.
  cbv [timestamp_pattern seq star lazy_plus]. cbn [rmatch].
  cbn [rep Nat.eqb pred less room].
  rewrite (GreedyFacts.digit_is_dot d Hd). cbn [andb].
  match goal with
  | |- match ?x with _ => _ end = Some ?res =>
      assert (E : x = Some res); [|rewrite E; reflexivity]
  end.
  apply GreedyFacts.rep_lazy_stop.
  apply (GreedyFacts.rep_greedy_all Chars.is_space "" 0 1 T);
    [reflexivity | simpl; lia | now apply GreedyFacts.clock_blocks_space |].
  intros j. apply GreedyFacts.clock_complete; [exact HT|].
  intros j'. cbn [rep Nat.eqb rmatch accept append].
  rewrite !StrFacts.app_nil_r. reflexivity.
Qed.

(** On such a line the scan sets the speaker to the digit and the start
    to the value of the shortened token, whatever the speaker was. *)
Lemma leading_digit_becomes_speaker st d T v :
  Chars.is_digit d = true -> clock_value T v ->
  exists st',
    Scan.step st (String d T) = Returned st' /\
    Scan.current_speaker st' = Some (String d "") /\
    Scan.current_start st' = Some v.
Proof.
  intros Hd Hv.
  assert (HT : is_clock T) by (destruct Hv; constructor; assumption).
  unfold Scan.step. rewrite (leading_digit_taken d T Hd HT).
  unfold Scan.on_timestamp. cbn [group Nat.eqb].
  rewrite (ClockFacts.clock_seconds_value _ T v Hv). cbn [bind].
  eexists. split; [reflexivity|]. cbn [Scan.current_speaker Scan.current_start].
  split; [|reflexivity].
  unfold Scan.update_speaker. cbn [Str.nonempty].
  unfold Str.strip. cbn [Str.lstrip].
  rewrite (GreedyFacts.digit_not_space d Hd). cbn [Str.rstrip].
  now rewrite (GreedyFacts.digit_not_space d Hd).
Qed.

(** C7 (the code departs from it).  The comment of the source gives a bare
    ["00:16"] as a timestamp line without speaker, and such a line should
    keep the speaker of the labeled line before it.  But the optional
    first group [(.+?)?] is tried before the clock token and takes the
    leading digit: on ["00:16"] group 1 is ["0"] and group 2 is ["0:16"].
    In the sample the segment started by that line carries the speaker
    ["0"], not the speaker ["Alice"] of the line before. *)
Theorem bare_timestamp_takes_digit_as_speaker :
  re_match timestamp_pattern "00:16" = Some [(0, "00:16"); (2, "0:16"); (1, "0")]
  /\ exists t,
       parse_otter_docx "memo" Examples.bare_timestamp = Returned (Some t) /\
       List.map speaker (segments t) = [Some "Alice"; Some "0"] /\
       List.map start_time (segments t) = [5%Z; 16%Z].
Proof.
  split; [vm_compute; reflexivity|].
  eexists. split; [vm_compute; reflexivity|]. split; reflexivity.
Qed.

(** The same defect reads the clock short: ["12:34"] is taken for the
    speaker ["1"] at 2:34, and ["1:02:03"] for the speaker ["1:"] at
    2:03. *)
Lemma bare_timestamp_clock_cut :
  re_match timestamp_pattern "12:34" = Some [(0, "12:34"); (2, "2:34"); (1, "1")]
  /\ re_match timestamp_pattern "1:02:03"
     = Some [(0, "1:02:03"); (2, "02:03"); (1, "1:")]
  /\ re_match timestamp_pattern "0:16" = Some [(0, "0:16"); (2, "0:16")].
Proof. repeat split; vm_compute; reflexivity. Qed.

(* ===================================================================== *)
(** * The date and the duration of the header *)
(* ===================================================================== *)

Lemma date_loop_cons pattern rest date_line :
  date_loop (pattern :: rest) date_line =
  match date_of pattern date_line with
  | Some d => Some d
  | None => date_loop rest date_line
  end.
Proof.
  unfold date_of. cbn [date_loop].
  destruct (re_search pattern date_line) as [m|]; [|reflexivity].
  destruct (group m 1) as [date_str|]; reflexivity.
Qed.

Lemma date_loop_first patterns date_line :
  first_date patterns date_line (date_loop patterns date_line).
Proof.
  induction patterns as [|pattern rest IH].
  - constructor.
  - rewrite date_loop_cons. destruct (date_of pattern date_line) as [d|] eqn:E.
    + exists [], pattern, rest. repeat split; auto.
    + unfold first_date in *. destruct (date_loop rest date_line) as [d|].
      * destruct IH as (before & q & after & -> & Hq & Hb).
        exists (pattern :: before), q, after. repeat split; auto.
      * now constructor.
Qed.

(** C5, as amended.  The [break] of the date loop sits inside the [try],
    after the conversion: a pattern that matches a text that does not
    convert is passed over and the remaining patterns are still tried.
    The recording date is the date of the first pattern, in the order of
    the list, that matches and converts; it is unset exactly when no
    pattern does both. *)
Theorem date_patterns_all_tried (docx_stem : string) (doc : list string)
    (t : Transcript) (date_line : string) :
  parse_otter_docx docx_stem doc = Returned (Some t) ->
  nth_error (paragraphs_of doc) 1 = Some date_line ->
  first_date date_patterns date_line (recording_date t).
Proof.
  intros Ht Hline.
  destruct (parse_inv _ _ _ Ht) as (_ & line & segs & Hl & _ & -> & _ & _).
  rewrite Hline in Hl. apply some_inj in Hl. subst line.
  apply date_loop_first.
Qed.

(** The date line of the counterexample: the third pattern gives the date
    although the second matched without one. *)
Lemma date_patterns_all_tried_witness :
  exists t,
    parse_otter_docx "memo" Examples.two_dates = Returned (Some t) /\
    nth_error (paragraphs_of Examples.two_dates) 1 = Some "2025-13-45 20251205" /\
    recording_date t = Some (Date 2025 12 5) /\
    first_date date_patterns "2025-13-45 20251205" (recording_date t).
Proof.
  eexists.
  assert (H : parse_otter_docx "memo" Examples.two_dates
              = Returned (Some
                  {| title := "Memo"; recording_date := Some (Date 2025 12 5);
                     duration_seconds := None; keywords := []; speakers := [];
                     segments := [] |}))
    by (vm_compute; reflexivity).
  assert (H1 : nth_error (paragraphs_of Examples.two_dates) 1
               = Some "2025-13-45 20251205") by (vm_compute; reflexivity).
  exact (conj H (conj H1 (conj eq_refl
           (date_patterns_all_tried "memo" Examples.two_dates _ _ H H1)))).
Defined.

(** C5 fails as stated: on ["2025-13-45 20251205"] the ISO pattern matches
    ["2025-13-45"], which is no date, and the parser goes on to the
    compact pattern and sets the date 2025-12-05. *)
Lemma date_found_after_failed_conversion : ~ stops_after_failed_conversion.
Proof.
  intros H.
  destruct (parse_returns "memo" Examples.two_dates) as [_ Hlong].
  destruct Hlong as [t Ht]; [vm_compute; lia|].
  assert (Hnone : recording_date t = None).
  { apply (H "memo" Examples.two_dates t "2025-13-45 20251205" Ht).
    - vm_compute. reflexivity.
    - exists date_iso. split; [simpl; auto|].
      exists [(0, "2025-13-45"); (1, "2025-13-45")], "2025-13-45".
      repeat split; vm_compute; reflexivity. }
  revert Ht Hnone. vm_compute. intros Ht Hnone.
  apply returned_inj, some_inj in Ht. subst t. discriminate Hnone.
Qed.

(** ** The duration *)

Module DurationFacts.

Import ReFacts ClockFacts.

Lemma digits_clock_chars a : digits a -> Str.all clock_char a = true.
Proof.
  intros [_ H]. revert H. apply StrFacts.all_impl.
  intros c Hc. unfold clock_char. now rewrite Hc.
Qed.

Lemma clock_chars t : is_clock t -> Str.all clock_char t = true.
Proof.
  intros [a b Ha Hb | a b c Ha Hb Hc];
    repeat (rewrite StrFacts.all_app || cbn [Str.all]);
    rewrite ?(digits_clock_chars _ Ha), ?(digits_clock_chars _ Hb),
            ?(digits_clock_chars _ Hc); reflexivity.
Qed.

(** A text made of clock characters followed by blanks cannot run across
    a character [x] that is no clock character and is followed by a
    character [y] that is no blank. *)
Lemma no_token_across x y rest : forall u t w,
  clock_char x = false -> Chars.is_space y = false ->
  Str.all clock_char t = true -> Str.all Chars.is_space w = true ->
  u ++ String x (String y rest) = t ++ w -> t = "".
Proof.
  induction u as [|c u IH]; intros t w Hx Hy Ht Hw E.
  - destruct t as [|c' t]; [reflexivity|].
    simpl in E. inversion E; subst. simpl in Ht.
    rewrite Hx in Ht. discriminate.
  - destruct t as [|c' t]; [reflexivity|].
    simpl in E. inversion E; subst. simpl in Ht.
    apply andb_true_iff in Ht as [_ Ht].
    assert (Hnil : t = "") by (eapply IH; eauto).
    subst t. simpl in H1. clear E.
    (* the blanks would have to hold [y] *)
    exfalso. rewrite <- H1 in Hw. rewrite StrFacts.all_app in Hw.
    simpl in Hw. rewrite Hy in Hw.
    rewrite andb_false_r, ?andb_false_r in Hw. discriminate.
Qed.

Lemma clock_nonempty t : is_clock t -> t <> "".
Proof.
  intros [a b [Ha _] _ | a b c [Ha _] _ _]; destruct a; simpl in *;
    discriminate.
Qed.

(** The duration pattern does not match at a position from which the
    text runs across such a pair of characters. *)
Lemma no_match_across x y rest u i :
  clock_char x = false -> Chars.is_space y = false ->
  rmatch duration_pattern i (u ++ String x (String y rest)) [] accept = None.
Proof.
  intros Hx Hy.
  destruct (rmatch duration_pattern i (u ++ String x (String y rest)) [] accept)
    as [m|] eqn:E; [|reflexivity].
  exfalso.
  apply rmatch_sound in E as (t & s' & j & cs' & Hs & M & _).
  cbv [duration_pattern seq star] in M. invert_matched.
  match goal with
  | H : matched clock _ _ _ _ |- _ => apply clock_shape in H as [Hc _]
  end.
  apply (clock_nonempty _ Hc).
  match type of Hs with
  | _ = (?tc ++ ?ws ++ "") ++ ?s' =>
      apply (no_token_across x y rest u tc (ws ++ s') Hx Hy)
  end.
  - now apply clock_chars.
  - rewrite StrFacts.all_app.
    match goal with H : Str.all Chars.is_space _ = true |- _ => rewrite H end.
    match goal with H : _ \/ _ |- _ => destruct H as [-> | ->] end; reflexivity.
  - rewrite Hs, StrFacts.app_nil_r, StrFacts.app_assoc. reflexivity.
Qed.

(** A token that the pattern accepts at any position is found behind any
    prefix that ends in a character that is no clock character. *)
Lemma search_behind_prefix x y rest m :
  clock_char x = false -> Chars.is_space y = false ->
  (forall j, rmatch duration_pattern j (String y rest) [] accept = Some m) ->
  forall pre i,
    search_from duration_pattern i (pre ++ String x (String y rest)) = Some m.
Proof.
  intros Hx Hy Hm.
  induction pre as [|c pre IH]; intros i.
  - pose proof (no_match_across x y rest "" i Hx Hy) as Hn.
    cbn [append] in *. cbn [search_from].
    rewrite Hn. cbn [search_from]. now rewrite Hm.
  - pose proof (no_match_across x y rest (String c pre) i Hx Hy) as Hn.
    cbn [append] in *. cbn [search_from].
    rewrite Hn. apply IH.
Qed.

End DurationFacts.

Lemma duration_of_token token m v :
  (exists y rest, token = String y rest /\ Chars.is_space y = false) ->
  (forall j, rmatch duration_pattern j token [] accept = Some m) ->
  group m 1 = Some token ->
  clock_seconds None (Str.split ":" token) = Returned (Some v) ->
  forall date_line,
    ends_in_token date_line token ->
    extract_duration date_line = Returned (Some v).
Proof.
  intros (y & rest & -> & Hy) Hm Hg Hv date_line Hend.
  assert (Hs : re_search duration_pattern date_line = Some m).
  { destruct Hend as [-> | (pre & x & -> & Hd & Hc)].
    - unfold re_search. cbn [search_from]. now rewrite Hm.
    - apply DurationFacts.search_behind_prefix; auto.
      unfold clock_char. rewrite Hd.
      destruct (Ascii.eqb_spec x ":"); [contradiction | reflexivity]. }
  unfold extract_duration. now rewrite Hs, Hg.
Qed.

(** C6.  For a document with at least three lines the parser returns a
    transcript (no error is raised by the duration), and with [date_line]
    its second line: a line ending in the token ["21:01"] gives the
    duration 1261, a line ending in ["1:21:01"] gives 4861, and a line in
    which the duration pattern finds no token leaves the duration unset. *)
Theorem header_duration (docx_stem : string) (doc : list string)
    (date_line : string) :
  (3 <= List.length (paragraphs_of doc))%nat ->
  nth_error (paragraphs_of doc) 1 = Some date_line ->
  exists t,
    parse_otter_docx docx_stem doc = Returned (Some t) /\
    (ends_in_token date_line "21:01" -> duration_seconds t = Some 1261%Z) /\
    (ends_in_token date_line "1:21:01" -> duration_seconds t = Some 4861%Z) /\
    (duration_token date_line = None -> duration_seconds t = None).
Proof.
  intros Hlen Hline.
  destruct (parse_returns docx_stem doc) as [_ Hlong].
  destruct (Hlong Hlen) as [t Ht]. exists t. split; [exact Ht|].
  destruct (parse_inv _ _ _ Ht) as (_ & line & segs & Hl & Hd & _ & _ & _).
  rewrite Hline in Hl. apply some_inj in Hl. subst line.
  split; [|split].
  - intros Hend.
    assert (E : extract_duration date_line = Returned (Some 1261%Z)).
    { apply (duration_of_token "21:01" [(0, "21:01"); (1, "21:01")]);
        [ exists "2"%char, "1:01"; split; reflexivity
        | intros j; vm_compute; reflexivity
        | reflexivity
        | vm_compute; reflexivity
        | exact Hend ]. }
    rewrite E in Hd. now apply returned_inj in Hd.
  - intros Hend.
    assert (E : extract_duration date_line = Returned (Some 4861%Z)).
    { apply (duration_of_token "1:21:01" [(0, "1:21:01"); (1, "1:21:01")]);
        [ exists "1"%char, ":21:01"; split; reflexivity
        | intros j; vm_compute; reflexivity
        | reflexivity
        | vm_compute; reflexivity
        | exact Hend ]. }
    rewrite E in Hd. now apply returned_inj in Hd.
  - unfold duration_token, extract_duration in *. intros Hnone.
    destruct (re_search duration_pattern date_line) as [m|] eqn:E.
    + destruct (ClockFacts.duration_group1 _ _ E) as (tc & Hg & _).
      rewrite Hg in Hnone. discriminate.
    + now apply returned_inj in Hd.
Qed.

(** The date line of the docstring. *)
Lemma header_duration_witness :
  (3 <= List.length (paragraphs_of Examples.town_hall))%nat /\
  nth_error (paragraphs_of Examples.town_hall) 1
    = Some "Fri, Dec 05, 2025 10:47AM • 21:01" /\
  ends_in_token "Fri, Dec 05, 2025 10:47AM • 21:01" "21:01" /\
  exists t,
    parse_otter_docx "town_hall" Examples.town_hall = Returned (Some t) /\
    duration_seconds t = Some 1261%Z.
Proof.
  assert (H1 : (3 <= List.length (paragraphs_of Examples.town_hall))%nat)
    by (vm_compute; lia).
  assert (H2 : nth_error (paragraphs_of Examples.town_hall) 1
               = Some "Fri, Dec 05, 2025 10:47AM • 21:01")
    by (vm_compute; reflexivity).
  assert (H3 : ends_in_token "Fri, Dec 05, 2025 10:47AM • 21:01" "21:01").
  { right. exists "Fri, Dec 05, 2025 10:47AM •", " "%char.
    split; [reflexivity|]. split; [reflexivity | discriminate]. }
  destruct (header_duration "town_hall" Examples.town_hall _ H1 H2)
    as (t & Ht & H21 & _ & _).
  exact (conj H1 (conj H2 (conj H3 (ex_intro _ t (conj Ht (H21 H3)))))).
Defined.

(* ===================================================================== *)
(** * Storage keys *)
(* ===================================================================== *)

Module KeyFacts.

Lemma sanitize_spec s : sanitize s = spec_sanitized s.
Proof.
  unfold sanitize, spec_sanitized.
  induction s as [|c s IH]; cbn [re_sub_class Str.map]; [reflexivity|].
  rewrite IH. unfold unsafe_char, Chars.is_word.
  destruct (Chars.is_alnum c);
    repeat match goal with
           | |- context [Ascii.eqb c ?x] => destruct (Ascii.eqb c x)
           end; reflexivity.
Qed.

(** Sanitising keeps the dots and makes no new one. *)
Lemma sanitize_dots s : Str.contains "." (sanitize s) = Str.contains "." s.
Proof.
  rewrite sanitize_spec. unfold spec_sanitized.
  induction s as [|c s IH]; cbn [Str.map Str.contains]; [reflexivity|].
  rewrite IH. f_equal.
  destruct (Ascii.eqb_spec c ".") as [->|Hc]; [reflexivity|].
  destruct (Chars.is_alnum c || Ascii.eqb c "-" || Ascii.eqb c "_" || false)%bool;
    [|reflexivity].
  now apply Ascii.eqb_neq.
Qed.

Lemma sanitize_cons c s :
  sanitize (String c s) =
  String (if (Chars.is_alnum c || Ascii.eqb c "-" || Ascii.eqb c "_"
              || Ascii.eqb c ".")%bool then c else "_"%char) (sanitize s).
Proof. now rewrite !sanitize_spec. Qed.

(** The stem of the sanitised name is the sanitised stem. *)
Lemma sanitize_before_last_dot s :
  before_last_dot (sanitize s) = sanitize (before_last_dot s).
Proof.
  induction s as [|c s IH]; [reflexivity|].
  rewrite sanitize_cons. cbn [before_last_dot].
  rewrite sanitize_dots. destruct (Str.contains "." s).
  - now rewrite IH, sanitize_cons.
  - destruct (Ascii.eqb c ".") eqn:Hc.
    + apply Ascii.eqb_eq in Hc. subst c. reflexivity.
    + rewrite sanitize_cons, Hc.
      destruct (Chars.is_alnum c || Ascii.eqb c "-" || Ascii.eqb c "_"
                || false)%bool.
      * now rewrite Hc.
      * reflexivity.
Qed.

Lemma hex_digit_is_hex d : (d < 16)%N -> Chars.is_hex (hex_digit d) = true.
Proof.
  intros H. destruct d as [|p]; [reflexivity|].
  do 4 (try destruct p as [p|p|]); try reflexivity; lia.
Qed.

Lemma hex_fixed_length w n : String.length (hex_fixed w n) = w.
Proof. induction w as [|w IH]; cbn [hex_fixed String.length]; congruence. Qed.

Lemma hex_fixed_is_hex w n : Str.all Chars.is_hex (hex_fixed w n) = true.
Proof.
  induction w as [|w IH]; cbn [hex_fixed Str.all]; [reflexivity|].
  rewrite IH, hex_digit_is_hex; [reflexivity|].
  apply N.mod_lt. discriminate.
Qed.

Lemma take_length k : forall s,
  (k <= String.length s)%nat -> String.length (Str.take k s) = k.
Proof.
  induction k as [|k IH]; intros [|c s] H; simpl in *; try lia.
  now rewrite IH by lia.
Qed.

Lemma take_all p k : forall s,
  Str.all p s = true -> Str.all p (Str.take k s) = true.
Proof.
  induction k as [|k IH]; intros [|c s] H; simpl in *; try reflexivity.
  apply andb_true_iff in H as [Hc Hs]. now rewrite Hc, IH.
Qed.

Lemma token_of n : is_token (Str.take 8 (hex_fixed 32 n)).
Proof.
  split.
  - apply take_length. rewrite hex_fixed_length. lia.
  - apply take_all, hex_fixed_is_hex.
Qed.

(** For a name with an extension the text before the last dot is the
    stem of the path. *)
Lemma before_last_dot_stem name :
  path_suffix name <> "" -> before_last_dot name = path_stem name.
Proof.
  unfold path_suffix, path_stem.
  destruct (Str.contains "." name
            && (0 <? String.length (before_last_dot name))
            && (String.length (before_last_dot name) <? String.length name - 1))%bool%nat;
    [reflexivity | congruence].
Qed.

End KeyFacts.

Module PathFacts.

Lemma contains_app c a b :
  Str.contains c (a ++ b) = (Str.contains c a || Str.contains c b)%bool.
Proof.
  induction a as [|x a IH]; cbn [append Str.contains]; [reflexivity|].
  now rewrite IH, orb_assoc.
Qed.

Lemma contains_dot_ext stem ext :
  Str.contains "." (stem ++ String "." ext) = true.
Proof.
  rewrite contains_app. cbn [Str.contains]. rewrite Ascii.eqb_refl.
  cbn [orb]. apply orb_true_r.
Qed.

Lemma before_last_dot_ext ext : forall stem,
  Str.contains "." ext = false ->
  before_last_dot (stem ++ String "." ext) = stem.
Proof.
  intros stem He. induction stem as [|c stem IH]; cbn [append before_last_dot].
  - now rewrite He.
  - now rewrite contains_dot_ext, IH.
Qed.

Lemma from_last_dot_ext ext : forall stem,
  Str.contains "." ext = false ->
  from_last_dot (stem ++ String "." ext) = String "." ext.
Proof.
  intros stem He. induction stem as [|c stem IH]; cbn [append from_last_dot].
  - now rewrite He.
  - now rewrite contains_dot_ext, IH.
Qed.

(** [PurePath.suffix] of a name with a stem and an extension. *)
Lemma path_suffix_ext stem ext :
  stem <> "" -> ext <> "" -> Str.contains "." ext = false ->
  path_suffix (stem ++ String "." ext) = String "." ext.
Proof.
  intros Hs He Hd. unfold path_suffix.
  rewrite (before_last_dot_ext ext stem Hd), contains_dot_ext,
          (from_last_dot_ext ext stem Hd), StrFacts.length_app.
  assert (H1 : (0 <? String.length stem)%nat = true).
  { apply Nat.ltb_lt. destruct stem; [contradiction | cbn; lia]. }
  assert (H2 : (String.length stem
                <? String.length stem + String.length (String "." ext) - 1)%nat
               = true).
  { apply Nat.ltb_lt. destruct ext; [contradiction | cbn; lia]. }
  now rewrite H1, H2.
Qed.

(** [PurePath.stem] of a name with a stem and an extension. *)
Lemma path_stem_ext stem ext :
  stem <> "" -> ext <> "" -> Str.contains "." ext = false ->
  path_stem (stem ++ String "." ext) = stem.
Proof.
  intros Hs He Hd. unfold path_stem.
  rewrite (before_last_dot_ext ext stem Hd), contains_dot_ext,
          StrFacts.length_app.
  assert (H1 : (0 <? String.length stem)%nat = true).
  { apply Nat.ltb_lt. destruct stem; [contradiction | cbn; lia]. }
  assert (H2 : (String.length stem
                <? String.length stem + String.length (String "." ext) - 1)%nat
               = true).
  { apply Nat.ltb_lt. destruct ext; [contradiction | cbn; lia]. }
  now rewrite H1, H2.
Qed.

(** The four extensions that [batch_upload] looks for. *)
Lemma video_extension ext :
  In (String "." ext) video_extensions ->
  Str.contains "." ext = false /\ ext <> "" /\
  Str.lstrip_char "." (Str.map Chars.lower (String "." ext))
    = Str.map Chars.lower ext /\
  In (Str.map Chars.lower ext) ["mp4"; "mov"].
Proof.
  unfold video_extensions. cbn [In].
  intros [E | [E | [E | [E | []]]]]; inversion E; subst ext;
    (split; [reflexivity|]); (split; [discriminate|]);
    (split; [reflexivity|]); cbn; auto.
Qed.

(** [PurePath.suffix] of a name that is a dot and an extension. *)
Lemma path_suffix_hidden ext :
  Str.contains "." ext = false -> path_suffix (String "." ext) = "".
Proof.
  intros Hd. unfold path_suffix.
  pose proof (before_last_dot_ext ext "" Hd) as E. cbn [append] in E.
  rewrite E.
  change (0 <? String.length "")%nat with false.
  now rewrite andb_false_r.
Qed.

End PathFacts.

(** C9, as amended.  Both scripts build the storage key as
    [<category>/<sanitized-stem>_<8-hex-token>.<ext>].  The importer does
    so for every document: under [audio/otter_ai], from the stem of the
    document, with the extension [mp3].  The batch upload does so for
    every video whose name is a stem that is not empty in front of one of
    the extensions it looks for: under [videos], from that stem, which is
    the stem of the path, with the extension in lower case.  The stem is
    sanitised character by character as the specification says and the
    token is eight hexadecimal characters.  For a video whose name is the
    extension alone the key has neither stem nor extension: it is
    [videos/_<8-hex-token>.]. *)
Theorem storage_key_format :
  (forall (filename_stem : string) (uuid4 : N),
      exists token,
        is_token token /\
        otter_s3_key filename_stem uuid4
          = "audio/otter_ai" ++ "/" ++ spec_sanitized filename_stem ++ "_"
              ++ token ++ "." ++ "mp3") /\
  (forall (md5 : string -> N) (path_str stem ext : string),
      stem <> "" -> In (String "." ext) video_extensions ->
      exists token,
        is_token token /\
        path_stem (stem ++ String "." ext) = stem /\
        path_suffix (stem ++ String "." ext) = String "." ext /\
        video_s3_key md5 path_str (stem ++ String "." ext)
          = "videos" ++ "/" ++ spec_sanitized stem ++ "_"
              ++ token ++ "." ++ Str.map Chars.lower ext) /\
  (forall (md5 : string -> N) (path_str ext : string),
      In (String "." ext) video_extensions ->
      exists token,
        is_token token /\
        path_stem (String "." ext) = String "." ext /\
        path_suffix (String "." ext) = "" /\
        video_s3_key md5 path_str (String "." ext)
          = "videos" ++ "/" ++ "_" ++ token ++ ".").
Proof.
  split; [|split].
  - intros filename_stem uuid4.
    exists (Str.take 8 (hex_fixed 32 uuid4)).
    split; [apply KeyFacts.token_of|].
    unfold otter_s3_key. now rewrite KeyFacts.sanitize_spec.
  - intros md5 path_str stem ext Hs Hext.
    destruct (PathFacts.video_extension ext Hext) as (Hdot & Hne & Hlow & _).
    exists (Str.take 8 (hex_fixed 32 (md5 path_str))).
    split; [apply KeyFacts.token_of|].
    split; [now apply PathFacts.path_stem_ext|].
    split; [now apply PathFacts.path_suffix_ext|].
    unfold video_s3_key.
    rewrite KeyFacts.sanitize_before_last_dot,
            (PathFacts.before_last_dot_ext ext stem Hdot),
            (PathFacts.path_suffix_ext stem ext Hs Hne Hdot), Hlow,
            KeyFacts.sanitize_spec.
    reflexivity.
  - intros md5 path_str ext Hext.
    destruct (PathFacts.video_extension ext Hext) as (Hdot & _ & _ & _).
    exists (Str.take 8 (hex_fixed 32 (md5 path_str))).
    split; [apply KeyFacts.token_of|].
    pose proof (PathFacts.path_suffix_hidden ext Hdot) as Hsuffix.
    pose proof (PathFacts.before_last_dot_ext ext "" Hdot) as Hbefore.
    cbn [append] in Hbefore.
    split.
    { unfold path_stem. rewrite Hbefore.
      change (0 <? String.length "")%nat with false.
      now rewrite andb_false_r. }
    split; [exact Hsuffix|].
    unfold video_s3_key.
    rewrite KeyFacts.sanitize_before_last_dot, Hbefore, Hsuffix.
    reflexivity.
Qed.

(** A document with blanks and brackets in its name, and a video with an
    extension in capitals. *)
Lemma storage_key_format_witness :
  (exists token,
      is_token token /\
      otter_s3_key "Town hall (Dec 5)" 24197857161011715162171839636988778104%N
        = "audio/otter_ai" ++ "/" ++ spec_sanitized "Town hall (Dec 5)" ++ "_"
            ++ token ++ "." ++ "mp3") /\
  (exists token,
      is_token token /\
      path_stem ("launch day" ++ String "." "MP4") = "launch day" /\
      path_suffix ("launch day" ++ String "." "MP4") = String "." "MP4" /\
      video_s3_key (fun _ => 0%N) "/archive/launch day.MP4"
        ("launch day" ++ String "." "MP4")
        = "videos" ++ "/" ++ spec_sanitized "launch day" ++ "_"
            ++ token ++ "." ++ Str.map Chars.lower "MP4").
Proof.
  split.
  - apply (proj1 storage_key_format).
  - apply (proj1 (proj2 storage_key_format) (fun _ => 0%N)
             "/archive/launch day.MP4" "launch day" "MP4").
    + discriminate.
    + unfold video_extensions. cbn [In]. right. right. left. reflexivity.
Defined.

(** C9 fails as stated: [rglob('*.mp4')] finds a file named [.mp4], whose
    stem is [.mp4] and which has no suffix; its key is
    [videos/_<8-hex-token>.], which does not hold the stem. *)
Lemma storage_key_without_stem : ~ video_key_as_specified.
Proof.
  intros H.
  destruct (H (fun _ => 0%N) "/archive/.mp4" ".mp4") as (token & ext & _ & E).
  - exists "", ".mp4". split; [|reflexivity].
    unfold video_extensions. cbn [In]. left. reflexivity.
  - vm_compute in E. discriminate E.
Qed.

(* ===================================================================== *)
(** * The orchestrator *)
(* ===================================================================== *)

Module ImportFacts.

Section Run.

Variable persona_id : option nat.
Variable upload_audio : bool.

Local Abbreviation step := (import_one persona_id upload_audio).
Local Abbreviation run := (import_loop persona_id upload_audio).

Lemma run_cons w f files : run w (f :: files) = run (step w f) files.
Proof. reflexivity. Qed.

(** A file whose media name has a record is skipped. *)
Lemma step_existing w f :
  existing w (mp3_name f) = true -> step w f = count_skipped w.
Proof.
  intros H. unfold import_one. rewrite H.
  now destruct (negb (mp3_exists f)).
Qed.

Lemma only_skipped_refl w : only_skipped 0 w w.
Proof. unfold only_skipped. repeat split; lia. Qed.

Lemma only_skipped_step n w w' :
  only_skipped n w w' -> only_skipped (S n) w (count_skipped w').
Proof.
  unfold only_skipped. intros (H1 & H2 & H3 & H4 & H5 & H6).
  cbn [count_skipped recordings segment_rows bucket imported errors skipped].
  repeat split; auto; lia.
Qed.

Lemma existing_same w w' name :
  recordings w' = recordings w -> existing w' name = existing w name.
Proof. unfold existing. now intros ->. Qed.

(** Over files that all have a record, the run only skips. *)
Lemma run_all_existing files : forall n w0 w,
  only_skipped n w0 w ->
  Forall (fun f => existing w (mp3_name f) = true) files ->
  only_skipped (n + List.length files) w0 (run w files).
Proof.
  induction files as [|f files IH]; intros n w0 w Hw Hall.
  - cbn [List.length]. rewrite Nat.add_0_r. exact Hw.
  - inversion Hall as [|? ? Hf Hrest]; subst.
    rewrite run_cons, (step_existing _ _ Hf).
    cbn [List.length]. rewrite Nat.add_succ_r.
    apply (IH (S n)).
    + now apply only_skipped_step.
    + revert Hrest. apply Forall_impl. intros g Hg.
      now rewrite (existing_same w (count_skipped w)).
Qed.

Lemma existing_app w name r :
  existing w name = true ->
  List.existsb (fun x => String.eqb (Db.original_filename x) name)
               (recordings w ++ r) = true.
Proof.
  unfold existing. intros H. rewrite List.existsb_app, H. reflexivity.
Qed.

(** A record is never removed. *)
Lemma step_keeps w f name :
  existing w name = true -> existing (step w f) name = true.
Proof.
  intros H. unfold import_one.
  destruct (negb (mp3_exists f)); [exact H|].
  destruct (existing w (mp3_name f)); [exact H|].
  destruct (bind (document f) (parse_otter_docx (filename_stem f)))
    as [[parsed|]|]; try exact H.
  destruct upload_audio; [destruct (upload_succeeds f)|];
    try exact H; unfold existing, persist; cbn [recordings];
    now apply existing_app.
Qed.

Lemma run_keeps files : forall w name,
  existing w name = true -> existing (run w files) name = true.
Proof.
  induction files as [|f files IH]; intros w name H; [exact H|].
  rewrite run_cons. apply IH. now apply step_keeps.
Qed.

(** One turn imports at most one file, and an imported file has a
    record under its media name. *)
Lemma step_imported w f :
  (imported (step w f) = imported w) \/
  (imported (step w f) = S (imported w) /\
   existing (step w f) (mp3_name f) = true).
Proof.
  unfold import_one.
  destruct (negb (mp3_exists f)); [now left|].
  destruct (existing w (mp3_name f)); [now left|].
  destruct (bind (document f) (parse_otter_docx (filename_stem f)))
    as [[parsed|]|]; try now left.
  assert (Hnew : forall w0 key,
    existing (persist w0 f persona_id key parsed) (mp3_name f) = true).
  { intros w0 key. unfold existing, persist. cbn [recordings].
    rewrite List.existsb_app. cbn [List.existsb Db.original_filename].
    rewrite String.eqb_refl. now rewrite orb_true_r. }
  destruct upload_audio; [destruct (upload_succeeds f)|];
    try (now left); right; split; (reflexivity || apply Hnew).
Qed.

Lemma run_imported_le files : forall w,
  (imported (run w files) <= imported w + List.length files)%nat.
Proof.
  induction files as [|f files IH]; intros w; cbn [List.length].
  - cbn. lia.
  - rewrite run_cons. specialize (IH (step w f)).
    destruct (step_imported w f) as [E | [E _]]; lia.
Qed.

(** When a run imports every file, every file has a record after it. *)
Lemma run_all_imported files : forall w,
  imported (run w files) = (imported w + List.length files)%nat ->
  Forall (fun f => existing (run w files) (mp3_name f) = true) files.
Proof.
  induction files as [|f files IH]; intros w H; [constructor|].
  rewrite run_cons in *. cbn [List.length] in H.
  pose proof (run_imported_le files (step w f)) as Hle.
  destruct (step_imported w f) as [E | [E Hex]]; [lia|].
  constructor.
  - now apply run_keeps.
  - apply IH. lia.
Qed.

Lemma same_names (files files' : list DocxFile) (w : World) :
  List.map filename_stem files' = List.map filename_stem files ->
  Forall (fun f => existing w (mp3_name f) = true) files ->
  Forall (fun f => existing w (mp3_name f) = true) files'.
Proof.
  revert files'. induction files as [|f files IH];
    intros [|f' files'] E H; try discriminate; [constructor|].
  cbn [List.map] in E. inversion E as [[Ef Erest]].
  inversion H as [|? ? Hf Hrest]; subst.
  constructor; [|now apply IH].
  unfold mp3_name in *. now rewrite Ef.
Qed.

End Run.

End ImportFacts.

(** C8.  A file whose media name already has a record is skipped: nothing
    is uploaded, nothing is inserted, and the skip counter grows by one.
    Hence, after a call that imported every file of a directory, a second
    call over the same files (whatever the environment answers this time)
    uploads and inserts nothing, imports nothing, and skips as many files
    as the first call imported. *)
Theorem existing_recording_skipped (persona_id : option nat)
    (upload_audio : bool) :
  (forall w f,
      existing w (mp3_name f) = true ->
      only_skipped 1 w (import_one persona_id upload_audio w f)) /\
  (forall w files files',
      imported (import_otter_export persona_id upload_audio w files)
        = List.length files ->
      List.map filename_stem files' = List.map filename_stem files ->
      call_only_skipped (List.length files)
        (import_otter_export persona_id upload_audio w files)
        (import_otter_export persona_id upload_audio
           (import_otter_export persona_id upload_audio w files) files')).
Proof.
  split.
  - intros w f H. rewrite (ImportFacts.step_existing _ _ _ _ H).
    apply ImportFacts.only_skipped_step, ImportFacts.only_skipped_refl.
  - intros w files files' Himp Hnames.
    assert (Hlen : List.length files' = List.length files)
      by (rewrite <- (List.length_map filename_stem files'), Hnames;
          apply List.length_map).
    set (w1 := import_otter_export persona_id upload_audio w files) in *.
    assert (Hall : Forall (fun f => existing (start_run w1) (mp3_name f) = true)
                          files').
    { apply (ImportFacts.same_names files); [exact Hnames|].
      assert (H1 : Forall (fun f => existing w1 (mp3_name f) = true) files)
        by (apply ImportFacts.run_all_imported; exact Himp).
      revert H1. apply Forall_impl. intros f Hf.
      now rewrite (ImportFacts.existing_same w1 (start_run w1)). }
    destruct (ImportFacts.run_all_existing persona_id upload_audio files' 0
                (start_run w1) (start_run w1)
                (ImportFacts.only_skipped_refl _) Hall)
      as (H1 & H2 & H3 & H4 & H5 & H6).
    unfold call_only_skipped.
    change (import_otter_export persona_id upload_audio w1 files')
      with (import_loop persona_id upload_audio (start_run w1) files').
    rewrite H1, H2, H3, H4, H5, H6, Hlen.
    cbn [start_run recordings segment_rows bucket imported errors skipped].
    auto 10.
Qed.

(** One file imported into an empty catalog, then met again. *)
Lemma existing_recording_skipped_witness :
  (existing (import_otter_export None true Examples.empty_world
               [Examples.town_hall_file])
            (mp3_name Examples.town_hall_file) = true /\
   only_skipped 1
     (import_otter_export None true Examples.empty_world [Examples.town_hall_file])
     (import_one None true
        (import_otter_export None true Examples.empty_world
           [Examples.town_hall_file])
        Examples.town_hall_file)) /\
  (imported (import_otter_export None true Examples.empty_world
               [Examples.town_hall_file]) = 1%nat /\
   call_only_skipped 1
     (import_otter_export None true Examples.empty_world [Examples.town_hall_file])
     (import_otter_export None true
        (import_otter_export None true Examples.empty_world
           [Examples.town_hall_file])
        [Examples.town_hall_file])).
Proof.
  assert (H1 : existing (import_otter_export None true Examples.empty_world
                           [Examples.town_hall_file])
                        (mp3_name Examples.town_hall_file) = true)
    by (vm_compute; reflexivity).
  assert (H2 : imported (import_otter_export None true Examples.empty_world
                           [Examples.town_hall_file])
               = List.length [Examples.town_hall_file])
    by (vm_compute; reflexivity).
  split.
  - exact (conj H1 (proj1 (existing_recording_skipped None true) _ _ H1)).
  - exact (conj H2
             (proj2 (existing_recording_skipped None true)
                Examples.empty_world [Examples.town_hall_file]
                [Examples.town_hall_file] H2 eq_refl)).
Defined.

(* ===================================================================== *)
(** * Further properties of the orchestrator *)
(* ===================================================================== *)

Module TallyFacts.

Lemma step_counts persona_id upload_audio w f :
  (imported (import_one persona_id upload_audio w f)
   + skipped (import_one persona_id upload_audio w f)
   + errors (import_one persona_id upload_audio w f)
   = S (imported w + skipped w + errors w))%nat.
Proof.
  unfold import_one.
  destruct (negb (mp3_exists f)); [cbn; lia|].
  destruct (existing w (mp3_name f)); [cbn; lia|].
  destruct (bind (document f) (parse_otter_docx (filename_stem f)))
    as [[parsed|]|]; try (cbn; lia).
  destruct upload_audio; [destruct (upload_succeeds f)|]; cbn; lia.
Qed.

Lemma loop_counts persona_id upload_audio files : forall w,
  (imported (import_loop persona_id upload_audio w files)
   + skipped (import_loop persona_id upload_audio w files)
   + errors (import_loop persona_id upload_audio w files)
   = imported w + skipped w + errors w + List.length files)%nat.
Proof.
  induction files as [|f files IH]; intros w; cbn [import_loop List.fold_left List.length].
  - lia.
  - change (List.fold_left (import_one persona_id upload_audio) files
              (import_one persona_id upload_audio w f))
      with (import_loop persona_id upload_audio
              (import_one persona_id upload_audio w f) files).
    rewrite IH. pose proof (step_counts persona_id upload_audio w f). lia.
Qed.

End TallyFacts.

(** X1.  A call of [import_otter_export] counts every file of the
    directory once: imported, skipped and errors add up to the number of
    documents found. *)
Theorem import_counts_every_file (persona_id : option nat) (upload_audio : bool)
    (w : World) (docx_files : list DocxFile) :
  (imported (import_otter_export persona_id upload_audio w docx_files)
   + skipped (import_otter_export persona_id upload_audio w docx_files)
   + errors (import_otter_export persona_id upload_audio w docx_files)
   = List.length docx_files)%nat.
Proof.
  unfold import_otter_export.
  rewrite TallyFacts.loop_counts. cbn. lia.
Qed.

Module DecisionFacts.

Lemma parsed_indices docx_stem doc t :
  parse_otter_docx docx_stem doc = Returned (Some t) ->
  List.map segment_index (segments t) = List.seq 0 (List.length (segments t)).
Proof.
  intros Ht.
  destruct (parse_inv _ _ _ Ht) as (_ & line & segs & _ & _ & _ & Hscan & ->).
  rewrite add_end_times_length.
  rewrite (add_end_times_map segment_index p_segment_index) by reflexivity.
  now apply scan_indexed in Hscan.
Qed.

(** The document of an importable file parses. *)
Lemma importable_parses upload_audio w f :
  importable upload_audio w f = true ->
  mp3_exists f = true /\ existing w (mp3_name f) = false /\
  (upload_audio = true -> upload_succeeds f = true) /\
  exists parsed,
    bind (document f) (parse_otter_docx (filename_stem f))
    = Returned (Some parsed).
Proof.
  unfold importable. intros H.
  apply andb_true_iff in H as [H Hup].
  apply andb_true_iff in H as [H Hdoc].
  apply andb_true_iff in H as [Hmp3 Hex].
  apply negb_true_iff in Hex.
  repeat split; auto.
  - intros ->. exact Hup.
  - destruct (document f) as [doc|]; [|discriminate].
    apply Nat.leb_le in Hdoc.
    destruct (parse_returns (filename_stem f) doc) as [_ Hlong].
    destruct (Hlong Hdoc) as [t Ht]. exists t. exact Ht.
Qed.

(** The document of any other file that has its media file and no record
    does not parse, or the upload fails. *)
Lemma not_importable upload_audio w f :
  importable upload_audio w f = false ->
  mp3_exists f = false \/ existing w (mp3_name f) = true \/
  bind (document f) (parse_otter_docx (filename_stem f)) = Raised \/
  bind (document f) (parse_otter_docx (filename_stem f)) = Returned None \/
  (upload_audio = true /\ upload_succeeds f = false).
Proof.
  unfold importable. intros H.
  destruct (mp3_exists f); [|now left].
  destruct (existing w (mp3_name f)); [now right; left|].
  cbn [negb andb] in H.
  destruct (document f) as [doc|]; [|now right; right; left].
  destruct (Nat.leb_spec 3 (List.length (paragraphs_of doc))) as [Hge|Hlt].
  - cbn [andb] in H. right; right; right; right.
    destruct upload_audio; [|discriminate]. now split.
  - right; right; right; left. cbn [bind].
    destruct (parse_returns (filename_stem f) doc) as [Hshort _].
    now apply Hshort.
Qed.

End DecisionFacts.

(** X2.  Whether a file is imported is decided by four tests: the media
    file exists, its name has no record, the document has at least three
    lines, and the upload (when uploading is on) succeeds.  When all hold,
    one recording is appended under the media name, and its segment rows
    point to it, are numbered from 0 and carry the texts of the parsed
    segments in order.  When one fails, catalog and bucket stay as they
    are and the file is counted as skipped or as an error. *)
Theorem import_decided (persona_id : option nat) (upload_audio : bool)
    (w : World) (f : DocxFile) :
  if importable upload_audio w f then
    exists parsed r rows,
      bind (document f) (parse_otter_docx (filename_stem f))
        = Returned (Some parsed) /\
      recordings (import_one persona_id upload_audio w f)
        = (recordings w ++ [r])%list /\
      segment_rows (import_one persona_id upload_audio w f)
        = (segment_rows w ++ rows)%list /\
      Db.original_filename r = mp3_name f /\
      Db.title r = title parsed /\
      Forall (fun row => Db.audio_id row = Db.id r) rows /\
      List.map Db.segment_index rows = List.seq 0 (List.length rows) /\
      List.map Db.text rows = List.map text (segments parsed) /\
      imported (import_one persona_id upload_audio w f) = S (imported w)
  else
    recordings (import_one persona_id upload_audio w f) = recordings w /\
    segment_rows (import_one persona_id upload_audio w f) = segment_rows w /\
    bucket (import_one persona_id upload_audio w f) = bucket w /\
    imported (import_one persona_id upload_audio w f) = imported w /\
    (skipped (import_one persona_id upload_audio w f)
     + errors (import_one persona_id upload_audio w f)
     = S (skipped w + errors w))%nat.
Proof.
  destruct (importable upload_audio w f) eqn:E.
  - apply DecisionFacts.importable_parses in E
      as (Hmp3 & Hex & Hup & parsed & Hp).
    assert (Hshape : forall w0 key,
      recordings w0 = recordings w -> segment_rows w0 = segment_rows w ->
      imported w0 = imported w ->
      exists r rows,
        recordings (persist w0 f persona_id key parsed) = (recordings w ++ [r])%list /\
        segment_rows (persist w0 f persona_id key parsed) = (segment_rows w ++ rows)%list /\
        Db.original_filename r = mp3_name f /\
        Db.title r = title parsed /\
        Forall (fun row => Db.audio_id row = Db.id r) rows /\
        List.map Db.segment_index rows = List.seq 0 (List.length rows) /\
        List.map Db.text rows = List.map text (segments parsed) /\
        imported (persist w0 f persona_id key parsed) = S (imported w)).
    { intros w0 key H1 H2 H3. unfold persist.
      cbn [recordings segment_rows imported]. rewrite H1, H2, H3.
      eexists. eexists. split; [reflexivity|]. split; [reflexivity|].
      cbn [Db.original_filename Db.title Db.id].
      split; [reflexivity|]. split; [reflexivity|].
      split; [apply Forall_map, Forall_forall; intros; reflexivity|].
      rewrite List.length_map, !List.map_map.
      cbn [Db.segment_index Db.text].
      split; [|split; reflexivity].
      destruct (document f) as [doc|]; [|discriminate].
      cbn [bind] in Hp.
      exact (DecisionFacts.parsed_indices _ _ _ Hp). }
    unfold import_one. rewrite Hmp3, Hex, Hp. cbn [negb].
    destruct upload_audio.
    + rewrite (Hup eq_refl).
      destruct (Hshape (upload_to_s3 w (mp3_name f)
                          (otter_s3_key (filename_stem f) (uuid4 f)))
                       (otter_s3_key (filename_stem f) (uuid4 f))
                       eq_refl eq_refl eq_refl) as (r & rows & H).
      exists parsed, r, rows. split; [reflexivity | exact H].
    + destruct (Hshape w (otter_s3_key (filename_stem f) (uuid4 f))
                       eq_refl eq_refl eq_refl) as (r & rows & H).
      exists parsed, r, rows. split; [reflexivity | exact H].
  - apply DecisionFacts.not_importable in E.
    unfold import_one.
    destruct E as [E | [E | [E | [E | [E1 E2]]]]].
    + rewrite E. cbn. repeat split; lia.
    + rewrite E. destruct (negb (mp3_exists f)); cbn; repeat split; lia.
    + rewrite E. destruct (negb (mp3_exists f));
        [|destruct (existing w (mp3_name f))]; cbn; repeat split; lia.
    + rewrite E. destruct (negb (mp3_exists f));
        [|destruct (existing w (mp3_name f))]; cbn; repeat split; lia.
    + subst. rewrite E2. destruct (negb (mp3_exists f));
        [|destruct (existing w (mp3_name f));
          [|destruct (bind (document f) (parse_otter_docx (filename_stem f)))
              as [[p|]|]]]; cbn; repeat split; lia.
Qed.

Module CatalogFacts.

Lemma existing_in w name : existing w name = true <-> In name (names w).
Proof.
  unfold existing, names. rewrite List.existsb_exists, List.in_map_iff.
  split.
  - intros (r & Hin & Heq). apply String.eqb_eq in Heq. eauto.
  - intros (r & Heq & Hin). exists r. split; [exact Hin|].
    now apply String.eqb_eq.
Qed.

Lemma persist_names w f persona_id key parsed :
  names (persist w f persona_id key parsed) = (names w ++ [mp3_name f])%list.
Proof. unfold names, persist. cbn [recordings]. now rewrite List.map_app. Qed.

Lemma step_names persona_id upload_audio w f :
  names (import_one persona_id upload_audio w f) = names w \/
  (existing w (mp3_name f) = false /\
   names (import_one persona_id upload_audio w f)
   = (names w ++ [mp3_name f])%list).
Proof.
  unfold import_one.
  destruct (negb (mp3_exists f)); [now left|].
  destruct (existing w (mp3_name f)) eqn:E; [now left|].
  destruct (bind (document f) (parse_otter_docx (filename_stem f)))
    as [[parsed|]|]; try now left.
  destruct upload_audio; [destruct (upload_succeeds f)|];
    try (now left); right; (split; [reflexivity | rewrite persist_names; reflexivity]).
Qed.

Lemma step_nodup persona_id upload_audio w f :
  NoDup (names w) -> NoDup (names (import_one persona_id upload_audio w f)).
Proof.
  intros H. destruct (step_names persona_id upload_audio w f) as [-> | [E ->]];
    [exact H|].
  apply NoDup_app; [exact H | repeat constructor; intros [] | ].
  - intros x Hx [<- | []]. apply existing_in in Hx. congruence.
Qed.

Lemma loop_nodup persona_id upload_audio files : forall w,
  NoDup (names w) -> NoDup (names (import_loop persona_id upload_audio w files)).
Proof.
  induction files as [|f files IH]; intros w H; [exact H|].
  apply (IH (import_one persona_id upload_audio w f)).
  now apply step_nodup.
Qed.

End CatalogFacts.

(** X3.  The catalog never gets two recordings with the same original
    file name: when the names are distinct before a call, they are
    distinct after it, whatever the directory holds. *)
Theorem one_recording_per_name (persona_id : option nat) (upload_audio : bool)
    (w : World) (docx_files : list DocxFile) :
  NoDup (List.map Db.original_filename (recordings w)) ->
  NoDup (List.map Db.original_filename
           (recordings (import_otter_export persona_id upload_audio w docx_files))).
Proof.
  intros H. unfold import_otter_export.
  apply (CatalogFacts.loop_nodup persona_id upload_audio docx_files (start_run w)).
  exact H.
Qed.

(** Two documents with the same stem in one call: the second one is
    skipped. *)
Lemma one_recording_per_name_witness :
  NoDup (List.map Db.original_filename (recordings Examples.empty_world)) /\
  NoDup (List.map Db.original_filename
           (recordings (import_otter_export None true Examples.empty_world
                          [Examples.town_hall_file; Examples.town_hall_file]))).
Proof.
  assert (H : NoDup (List.map Db.original_filename
                       (recordings Examples.empty_world)))
    by constructor.
  exact (conj H (one_recording_per_name None true Examples.empty_world
                   [Examples.town_hall_file; Examples.town_hall_file] H)).
Defined.

Module AddedFacts.

Lemma stored_app upload_audio rs1 rs2 :
  stored upload_audio (rs1 ++ rs2)
  = (stored upload_audio rs1 ++ stored upload_audio rs2)%list.
Proof. unfold stored. destruct upload_audio; [apply List.map_app | reflexivity]. Qed.

Lemma step_added persona_id upload_audio w f :
  exists rs,
    recordings (import_one persona_id upload_audio w f) = (recordings w ++ rs)%list /\
    bucket (import_one persona_id upload_audio w f)
      = (bucket w ++ stored upload_audio rs)%list /\
    imported (import_one persona_id upload_audio w f)
      = (imported w + List.length rs)%nat.
Proof.
  assert (Hsame : forall w', recordings w' = recordings w -> bucket w' = bucket w ->
            imported w' = imported w ->
            exists rs, recordings w' = (recordings w ++ rs)%list /\
              bucket w' = (bucket w ++ stored upload_audio rs)%list /\
              imported w' = (imported w + List.length rs)%nat).
  { intros w' H1 H2 H3. exists []. rewrite H1, H2, H3, !List.app_nil_r.
    unfold stored. destruct upload_audio; cbn; rewrite ?List.app_nil_r;
      repeat split; lia. }
  unfold import_one.
  destruct (negb (mp3_exists f)); [now apply Hsame|].
  destruct (existing w (mp3_name f)); [now apply Hsame|].
  destruct (bind (document f) (parse_otter_docx (filename_stem f)))
    as [[parsed|]|]; try now apply Hsame.
  destruct upload_audio; [destruct (upload_succeeds f)|];
    try now apply Hsame.
  - eexists [_]. unfold persist, upload_to_s3, stored.
    cbn [recordings bucket imported List.map List.length Db.s3_key
         Db.original_filename].
    repeat split. lia.
  - eexists [_]. unfold persist, stored.
    cbn [recordings bucket imported List.length].
    rewrite List.app_nil_r. repeat split. lia.
Qed.

Lemma loop_added persona_id upload_audio files : forall w,
  exists rs,
    recordings (import_loop persona_id upload_audio w files)
      = (recordings w ++ rs)%list /\
    bucket (import_loop persona_id upload_audio w files)
      = (bucket w ++ stored upload_audio rs)%list /\
    imported (import_loop persona_id upload_audio w files)
      = (imported w + List.length rs)%nat.
Proof.
  induction files as [|f files IH]; intros w.
  - exists []. cbn. rewrite !List.app_nil_r.
    unfold stored. destruct upload_audio; cbn; rewrite ?List.app_nil_r;
      repeat split; lia.
  - destruct (step_added persona_id upload_audio w f) as (rs1 & H1 & H2 & H3).
    destruct (IH (import_one persona_id upload_audio w f)) as (rs2 & G1 & G2 & G3).
    exists (rs1 ++ rs2)%list.
    change (import_loop persona_id upload_audio w (f :: files))
      with (import_loop persona_id upload_audio
              (import_one persona_id upload_audio w f) files).
    rewrite G1, G2, G3, H1, H2, H3, stored_app, List.length_app,
      !List.app_assoc.
    repeat split. lia.
Qed.

End AddedFacts.

(** X4.  A call only appends: the recordings found stay in place, and the
    number of new ones is the imported count.  With uploading on, the
    bucket receives exactly one object per new recording, in the same
    order, under the key written in the recording; with [--no-upload] the
    bucket is not touched. *)
Theorem import_only_appends (persona_id : option nat) (upload_audio : bool)
    (w : World) (docx_files : list DocxFile) :
  added upload_audio w (import_otter_export persona_id upload_audio w docx_files).
Proof.
  unfold added, import_otter_export.
  destruct (AddedFacts.loop_added persona_id upload_audio docx_files (start_run w))
    as (rs & H1 & H2 & H3).
  exists rs, (stored upload_audio rs).
  cbn [start_run recordings bucket imported] in H1, H2, H3.
  rewrite H1, H2, H3. repeat split.
  unfold stored. destruct upload_audio; reflexivity.
Qed.

(* ===================================================================== *)
(** * Further properties of the parser *)
(* ===================================================================== *)

Module TimeFacts.

Import ClockFacts.

Lemma digit_code c : Chars.is_digit c = true -> (48 <= Z.of_N (Chars.code c))%Z.
Proof.
  unfold Chars.is_digit, Chars.between. intros H.
  apply andb_true_iff in H as [H _]. apply N.leb_le in H. lia.
Qed.

Lemma digits_value_nonneg s : forall acc,
  Str.all Chars.is_digit s = true -> (0 <= acc)%Z -> (0 <= digits_value acc s)%Z.
Proof.
  induction s as [|c s IH]; intros acc H Hacc; cbn [digits_value]; [exact Hacc|].
  cbn [Str.all] in H. apply andb_true_iff in H as [Hc Hs].
  apply IH; [exact Hs|]. pose proof (digit_code c Hc). lia.
Qed.

Lemma clock_value_nonneg T v : clock_value T v -> (0 <= v)%Z.
Proof.
  intros [a b [_ Ha] [_ Hb] | a b c [_ Ha] [_ Hb] [_ Hc]];
    pose proof (digits_value_nonneg a 0 Ha ltac:(lia));
    pose proof (digits_value_nonneg b 0 Hb ltac:(lia));
    try pose proof (digits_value_nonneg c 0 Hc ltac:(lia)); lia.
Qed.

(** The two shapes of a turn, with the value of the clock token. *)
Lemma step_cases_value st para st' :
  Scan.step st para = Returned st' ->
  (exists m tc start,
      re_match timestamp_pattern para = Some m /\
      group m 2 = Some tc /\ clock_value tc start /\
      st' = {| Scan.segments := Scan.segments (Scan.flush st);
               Scan.current_speaker :=
                 Scan.update_speaker (group m 1)
                   (Scan.current_speaker (Scan.flush st));
               Scan.current_start := Some start;
               Scan.current_text := [];
               Scan.segment_index := Scan.segment_index (Scan.flush st) |})
  \/ (re_match timestamp_pattern para = None /\ st' = Scan.on_text st para).
Proof.
  unfold Scan.step. destruct (re_match timestamp_pattern para) as [m|] eqn:E.
  - intros H. left. destruct (timestamp_group2 _ _ E) as (tc & Hg & Hc).
    destruct (clock_has_value _ Hc) as [v Hv].
    unfold Scan.on_timestamp in H. rewrite Hg in H.
    rewrite (clock_seconds_value _ _ _ Hv) in H. cbn [bind] in H.
    apply returned_inj in H. subst st'. exists m, tc, v. auto.
  - intros H. right. apply returned_inj in H. auto.
Qed.

Lemma extract_duration_nonneg line d :
  extract_duration line = Returned (Some d) -> (0 <= d)%Z.
Proof.
  unfold extract_duration.
  destruct (re_search duration_pattern line) as [m|] eqn:E; [|discriminate].
  destruct (duration_group1 _ _ E) as (tc & -> & Hc).
  destruct (clock_has_value _ Hc) as [v Hv].
  rewrite (clock_seconds_value _ _ _ Hv). intros H.
  apply returned_inj, some_inj in H. subst. now apply clock_value_nonneg in Hv.
Qed.

Lemma flush_starts_nonneg st : starts_nonneg st -> starts_nonneg (Scan.flush st).
Proof.
  intros [Hc Hs].
  destruct (flush_cases st)
    as [(start & line & rest & Es & _ & Hseg & _ & _ & _) | [_ ->]];
    [|now split].
  split.
  - intros v Hv. apply Hc.
    unfold Scan.flush in Hv. rewrite Es in Hv.
    destruct (Scan.current_text st); cbn in Hv; congruence.
  - rewrite Hseg. apply Forall_app. split; [exact Hs|].
    constructor; [|constructor]. cbn. now apply Hc.
Qed.

Lemma step_starts_nonneg st para st' :
  starts_nonneg st -> Scan.step st para = Returned st' -> starts_nonneg st'.
Proof.
  intros H Hs.
  apply step_cases_value in Hs as [(m & tc & start & _ & _ & Hv & ->) | [_ ->]].
  - apply flush_starts_nonneg in H. destruct H as [_ H].
    split; [|exact H]. cbn. intros v Hv'. inversion Hv'; subst.
    now apply clock_value_nonneg in Hv.
  - destruct (on_text_cases st para) as [-> | (_ & Hseg & _ & _)]; [exact H|].
    destruct H as [Hc Hs]. split.
    + unfold Scan.on_text.
      destruct (Str.nonempty para && negb (Str.startswith "SUMMARY" para)
                && negb (Str.startswith "SPEAKERS" para))%bool; exact Hc.
    + now rewrite Hseg.
Qed.

Lemma scan_starts_nonneg paras segs :
  Scan.scan paras = Returned segs ->
  Forall (fun seg => (0 <= p_start_time seg)%Z) segs.
Proof.
  unfold Scan.scan. intros H. apply bind_inv in H as (st & Hrun & H).
  apply returned_inj in H. subst segs.
  apply flush_starts_nonneg.
  eapply (run_invariant starts_nonneg); [apply step_starts_nonneg | | exact Hrun].
  split; [discriminate | constructor].
Qed.

End TimeFacts.

(** X5.  No time of a parsed transcript is negative: not the duration,
    and not the start or the end of any segment. *)
Theorem times_not_negative (docx_stem : string) (doc : list string)
    (t : Transcript) :
  parse_otter_docx docx_stem doc = Returned (Some t) ->
  (forall d, duration_seconds t = Some d -> (0 <= d)%Z) /\
  Forall (fun seg => (0 <= start_time seg)%Z /\ (0 <= end_time seg)%Z)
         (segments t).
Proof.
  intros Ht.
  destruct (parse_inv _ _ _ Ht) as (_ & line & segs & _ & Hd & _ & Hscan & Hsegs).
  assert (Hdur : forall d, duration_seconds t = Some d -> (0 <= d)%Z).
  { intros d E. rewrite E in Hd.
    exact (TimeFacts.extract_duration_nonneg _ _ Hd). }
  split; [exact Hdur|].
  apply TimeFacts.scan_starts_nonneg in Hscan.
  rewrite Forall_forall in Hscan.
  apply Forall_forall. intros seg Hin.
  apply List.In_nth_error in Hin as [i Hi].
  rewrite Hsegs, add_end_times_lookup in Hi.
  destruct (nth_error segs i) as [p|] eqn:Hp; [|discriminate].
  apply some_inj in Hi. subst seg.
  assert (H0 : (0 <= p_start_time p)%Z)
    by (apply Hscan; eapply List.nth_error_In; eassumption).
  split; [exact H0|].
  cbn [end_time close_segment]. unfold end_time_at.
  destruct (i + 1 <? List.length segs)%nat.
  - destruct (nth_error segs (i + 1)) as [next|] eqn:Hn; [|exact H0].
    apply Hscan. eapply List.nth_error_In; eassumption.
  - destruct (duration_seconds t) as [d|] eqn:Ed; [|lia].
    destruct (d =? 0)%Z; [lia|]. now apply Hdur.
Qed.

(** The sample export. *)
Lemma times_not_negative_witness :
  parse_otter_docx "town_hall" Examples.town_hall
    = Returned (Some Examples.town_hall_transcript) /\
  (forall d, duration_seconds Examples.town_hall_transcript = Some d -> (0 <= d)%Z) /\
  Forall (fun seg => (0 <= start_time seg)%Z /\ (0 <= end_time seg)%Z)
         (segments Examples.town_hall_transcript).
Proof.
  assert (H : parse_otter_docx "town_hall" Examples.town_hall
              = Returned (Some Examples.town_hall_transcript))
    by (vm_compute; reflexivity).
  exact (conj H (times_not_negative _ _ _ H)).
Defined.

Module LooseTextFacts.

Lemma run_app paras1 : forall st paras2,
  Scan.run st (paras1 ++ paras2)
  = bind (Scan.run st paras1) (fun st' => Scan.run st' paras2).
Proof.
  induction paras1 as [|p rest IH]; intros st paras2; [reflexivity|].
  cbn [List.app Scan.run].
  destruct (Scan.step st p) as [st1|]; cbn [bind]; [apply IH | reflexivity].
Qed.

Lemma same_refl st : same_but_loose_text st st.
Proof. unfold same_but_loose_text. auto 6. Qed.

Lemma flush_same a b :
  same_but_loose_text a b ->
  Scan.segments (Scan.flush a) = Scan.segments (Scan.flush b) /\
  Scan.current_speaker (Scan.flush a) = Scan.current_speaker (Scan.flush b) /\
  Scan.current_start (Scan.flush a) = Scan.current_start (Scan.flush b) /\
  Scan.segment_index (Scan.flush a) = Scan.segment_index (Scan.flush b).
Proof.
  destruct a as [sa pa ca ta ia], b as [sb pb cb tb ib].
  unfold same_but_loose_text, Scan.flush. cbn.
  intros (-> & -> & -> & -> & [-> | ->]).
  - auto.
  - destruct cb; destruct tb; cbn; auto.
Qed.

Lemma on_text_same a b para :
  same_but_loose_text a b ->
  same_but_loose_text (Scan.on_text a para) (Scan.on_text b para).
Proof.
  unfold same_but_loose_text, Scan.on_text.
  intros (H1 & H2 & H3 & H4 & H5).
  destruct (Str.nonempty para && negb (Str.startswith "SUMMARY" para)
            && negb (Str.startswith "SPEAKERS" para))%bool; cbn; [|auto 6].
  repeat split; auto. destruct H5 as [H5 | H5]; [now left|right].
  now rewrite H5.
Qed.

Lemma step_same a b para :
  same_but_loose_text a b -> same_turn (Scan.step a para) (Scan.step b para).
Proof.
  intros H. unfold Scan.step.
  destruct (re_match timestamp_pattern para) as [m|].
  - destruct (flush_same a b H) as (H1 & H2 & H3 & H4).
    unfold Scan.on_timestamp. destruct (group m 2) as [tc|]; [|exact I].
    rewrite H1, H2, H3, H4.
    destruct (clock_seconds (Scan.current_start (Scan.flush b)) (Str.split ":" tc));
      cbn [bind same_turn]; [apply same_refl | exact I].
  - cbn [same_turn]. now apply on_text_same.
Qed.

Lemma run_same paras : forall a b,
  same_but_loose_text a b -> same_turn (Scan.run a paras) (Scan.run b paras).
Proof.
  induction paras as [|p rest IH]; intros a b H; cbn [Scan.run]; [exact H|].
  pose proof (step_same a b p H) as Hs.
  destruct (Scan.step a p) as [a1|], (Scan.step b p) as [b1|];
    cbn [same_turn bind] in *; try contradiction; [now apply IH | exact I].
Qed.

(** Lines in front of the first timestamp line only gather loose text. *)
Lemma run_loose pre : forall st,
  Forall (fun p => is_timestamp_line p = false) pre ->
  Scan.current_start st = None ->
  exists st', Scan.run st pre = Returned st' /\ same_but_loose_text st' st.
Proof.
  induction pre as [|p rest IH]; intros st Hall Hst.
  - exists st. split; [reflexivity | apply same_refl].
  - inversion Hall as [|? ? Hp Hrest]; subst.
    cbn [Scan.run]. unfold Scan.step. unfold is_timestamp_line in Hp.
    destruct (re_match timestamp_pattern p); [discriminate|]. cbn [bind].
    assert (Hs : same_but_loose_text (Scan.on_text st p) st).
    { unfold same_but_loose_text, Scan.on_text.
      destruct (Str.nonempty p && negb (Str.startswith "SUMMARY" p)
                && negb (Str.startswith "SPEAKERS" p))%bool; cbn; auto 6. }
    destruct (IH (Scan.on_text st p) Hrest) as (st' & Hrun & Hsame).
    { destruct Hs as (_ & _ & -> & _). exact Hst. }
    exists st'. split; [exact Hrun|].
    destruct Hsame as (A1 & A2 & A3 & A4 & _), Hs as (B1 & B2 & B3 & B4 & _).
    unfold same_but_loose_text. repeat split; try congruence.
    left. congruence.
Qed.

(** The scan of the body gives the same segments with and without the
    lines in front of the first timestamp line. *)
Lemma scan_drop (pre rest : list string) :
  Forall (fun p => is_timestamp_line p = false) pre ->
  Scan.scan (pre ++ rest) = Scan.scan rest.
Proof.
  intros Hpre. unfold Scan.scan. rewrite run_app.
  destruct (run_loose pre Scan.init Hpre eq_refl) as (st & -> & Hsame).
  cbn [bind].
  pose proof (run_same rest _ _ Hsame) as H.
  destruct (Scan.run st rest) as [a|], (Scan.run Scan.init rest) as [b|];
    cbn [same_turn bind] in *; try contradiction; [|reflexivity].
  now destruct (flush_same a b H) as (-> & _).
Qed.

End LooseTextFacts.

(** X6.  What stands in the body before the first timestamp line is
    dropped: the segments of the transcript are those of the body without
    these lines. *)
Theorem text_before_first_timestamp_dropped (docx_stem : string)
    (doc : list string) (t : Transcript) (pre rest : list string) :
  parse_otter_docx docx_stem doc = Returned (Some t) ->
  List.skipn 6 (paragraphs_of doc) = (pre ++ rest)%list ->
  Forall (fun p => is_timestamp_line p = false) pre ->
  exists segs,
    Scan.scan rest = Returned segs /\
    segments t = add_end_times (duration_seconds t) segs.
Proof.
  intros Ht Hbody Hpre.
  destruct (parse_inv _ _ _ Ht) as (_ & line & segs & _ & _ & _ & Hscan & Hsegs).
  rewrite Hbody, (LooseTextFacts.scan_drop pre rest Hpre) in Hscan.
  exists segs. split; assumption.
Qed.

Lemma text_before_first_timestamp_dropped_witness :
  exists t segs,
    parse_otter_docx "memo" MoreExamples.preface = Returned (Some t) /\
    Scan.scan ["Alice  0:05"; "Hello there."] = Returned segs /\
    segments t = add_end_times (duration_seconds t) segs.
Proof.
  destruct (proj2 (parse_returns "memo" MoreExamples.preface)) as [t Ht];
    [vm_compute; lia|].
  destruct (text_before_first_timestamp_dropped "memo" MoreExamples.preface t
              ["Transcribed by a machine"] ["Alice  0:05"; "Hello there."] Ht)
    as (segs & H1 & H2).
  - vm_compute. reflexivity.
  - repeat constructor.
  - exists t, segs. auto.
Defined.

Module CountFacts.

Lemma flush_count st :
  (List.length (Scan.segments (Scan.flush st))
   <= List.length (Scan.segments st) + started st)%nat.
Proof.
  unfold started.
  destruct (flush_cases st)
    as [(start & line & rest & -> & _ & -> & _) | [_ ->]].
  - rewrite List.length_app. cbn. lia.
  - lia.
Qed.

Lemma run_count paras : forall st st',
  Scan.run st paras = Returned st' ->
  (List.length (Scan.segments st') + started st'
   <= List.length (Scan.segments st) + started st
      + List.length (List.filter is_timestamp_line paras))%nat.
Proof.
  induction paras as [|p rest IH]; intros st st' H; cbn [Scan.run] in H.
  - apply returned_inj in H. subst. cbn. lia.
  - apply bind_inv in H as (st1 & Hstep & Hrun).
    specialize (IH _ _ Hrun).
    cbn [List.filter]. unfold is_timestamp_line at 1.
    apply step_cases in Hstep as [(m & start & -> & E1) | [-> ->]].
    + pose proof (flush_count st) as Hf.
      assert (A1 : started st1 = 1%nat) by (rewrite E1; reflexivity).
      assert (A2 : Scan.segments st1 = Scan.segments (Scan.flush st))
        by (rewrite E1; reflexivity).
      rewrite A1, A2 in IH. cbn [List.length]. lia.
    + assert (E : List.length (Scan.segments (Scan.on_text st p))
                  + started (Scan.on_text st p)
                  = List.length (Scan.segments st) + started st).
      { unfold Scan.on_text, started.
        destruct (Str.nonempty p && negb (Str.startswith "SUMMARY" p)
                  && negb (Str.startswith "SPEAKERS" p))%bool; reflexivity. }
      lia.
Qed.

End CountFacts.

(** X7.  A transcript has at most one segment for each timestamp line of
    the body, the paragraphs from the seventh on. *)
Theorem segments_bounded_by_timestamps (docx_stem : string) (doc : list string)
    (t : Transcript) :
  parse_otter_docx docx_stem doc = Returned (Some t) ->
  (List.length (segments t)
   <= List.length (List.filter is_timestamp_line
                     (List.skipn 6 (paragraphs_of doc))))%nat.
Proof.
  intros Ht.
  destruct (parse_inv _ _ _ Ht) as (_ & line & segs & _ & _ & _ & Hscan & ->).
  rewrite add_end_times_length.
  unfold Scan.scan in Hscan. apply bind_inv in Hscan as (st & Hrun & H).
  apply returned_inj in H. subst segs.
  pose proof (CountFacts.run_count _ _ _ Hrun) as Hc.
  pose proof (CountFacts.flush_count st) as Hf.
  change (List.length (Scan.segments Scan.init) + started Scan.init)%nat
    with 0%nat in Hc.
  lia.
Qed.

Lemma segments_bounded_by_timestamps_witness :
  parse_otter_docx "town_hall" Examples.town_hall
    = Returned (Some Examples.town_hall_transcript) /\
  (List.length (segments Examples.town_hall_transcript)
   <= List.length (List.filter is_timestamp_line
                     (List.skipn 6 (paragraphs_of Examples.town_hall))))%nat.
Proof.
  assert (H : parse_otter_docx "town_hall" Examples.town_hall
              = Returned (Some Examples.town_hall_transcript))
    by (vm_compute; reflexivity).
  exact (conj H (segments_bounded_by_timestamps _ _ _ H)).
Defined.

Module HeaderFacts.

Lemma split_not_nil sep s : Str.split sep s <> [].
Proof.
  destruct s as [|c s]; cbn [Str.split]; [discriminate|].
  destruct (Ascii.eqb c sep); [discriminate|].
  destruct (Str.split sep s); discriminate.
Qed.

Lemma pieces_not_nil values :
  List.map Str.strip (Str.split "," values) <> [].
Proof.
  pose proof (split_not_nil "," values) as H.
  destruct (Str.split "," values); [contradiction | discriminate].
Qed.

(** What the header loop returns is what it was given or the pieces of a
    labeled block at an index it visited. *)
Lemma header_loop_from paragraphs : forall fuel i kw sp,
  (2 <= i)%nat ->
  (fst (header_loop fuel paragraphs i kw sp) = kw \/
   from_block paragraphs "SUMMARY KEYWORDS"
     (fst (header_loop fuel paragraphs i kw sp))) /\
  (snd (header_loop fuel paragraphs i kw sp) = sp \/
   from_block paragraphs "SPEAKERS"
     (snd (header_loop fuel paragraphs i kw sp))).
Proof.
  induction fuel as [|fuel IH]; intros i kw sp Hi; [cbn; auto|].
  rewrite header_loop_turn.
  destruct (Nat.ltb_spec i (List.length paragraphs)) as [Hlen|];
    [|cbn; auto].
  destruct (Nat.ltb_spec i 10) as [H10|]; [|cbn; auto].
  cbn [andb].
  destruct (nth_error paragraphs i) as [line|] eqn:El;
    [|apply IH; lia].
  destruct (nth_error paragraphs (i + 1)) as [values|] eqn:Ev;
    [|apply IH; lia].
  destruct (String.eqb_spec line "SUMMARY KEYWORDS") as [->|_].
  { destruct (IH (i + 2)%nat
                (List.map Str.strip (Str.split "," values)) sp ltac:(lia))
      as [[E | F] S]; (split; [right | exact S]); [|exact F].
    rewrite E. exists i, values.
    repeat split; auto; try lia. apply pieces_not_nil. }
  destruct (String.eqb_spec line "SPEAKERS") as [->|_].
  { destruct (IH (i + 2)%nat kw
                (List.map Str.strip (Str.split "," values)) ltac:(lia))
      as [K [E | F]]; (split; [exact K | right]); [|exact F].
    rewrite E. exists i, values.
    repeat split; auto; try lia. apply pieces_not_nil. }
  apply IH. lia.
Qed.

(** The header of a returned transcript. *)
Lemma parse_header stem doc t :
  parse_otter_docx stem doc = Returned (Some t) ->
  title t = List.nth 0 (paragraphs_of doc) stem /\
  keywords t = fst (header_loop 8 (paragraphs_of doc) 2 [] []) /\
  speakers t = snd (header_loop 8 (paragraphs_of doc) 2 [] []).
Proof.
  unfold parse_otter_docx.
  destruct (Nat.ltb_spec (List.length (paragraphs_of doc)) 3) as [Hlt|Hge];
    [discriminate|].
  intros H.
  apply bind_inv in H as ([dt du] & Hh & H).
  apply bind_inv in H as (segs & Hs & H).
  apply returned_inj, some_inj in H. subst t.
  cbn [title keywords speakers]. auto.
Qed.

Lemma paragraph_nonempty doc p :
  In p (paragraphs_of doc) -> p <> "".
Proof.
  unfold paragraphs_of. intros H.
  apply in_map_iff in H as (x & <- & Hx).
  apply filter_In in Hx as [_ Hx]. intros E. now rewrite E in Hx.
Qed.

End HeaderFacts.

(** X8.  The keywords of a transcript are empty, or they are the trimmed
    comma-separated pieces of the paragraph behind a paragraph
    ["SUMMARY KEYWORDS"] that stands at an index from 2 to 9; the same holds
    for the speakers and ["SPEAKERS"].  The label is looked for down to the
    tenth paragraph, beyond the six lines of the header. *)
Theorem lists_come_from_labeled_blocks (docx_stem : string)
    (doc : list string) (t : Transcript) :
  parse_otter_docx docx_stem doc = Returned (Some t) ->
  (keywords t = [] \/
   from_block (paragraphs_of doc) "SUMMARY KEYWORDS" (keywords t)) /\
  (speakers t = [] \/
   from_block (paragraphs_of doc) "SPEAKERS" (speakers t)).
Proof.
  intros Ht.
  destruct (HeaderFacts.parse_header _ _ _ Ht) as (_ & -> & ->).
  apply HeaderFacts.header_loop_from. lia.
Qed.

Lemma lists_come_from_labeled_blocks_witness :
  parse_otter_docx "town_hall" Examples.town_hall
    = Returned (Some Examples.town_hall_transcript) /\
  (keywords Examples.town_hall_transcript = [] \/
   from_block (paragraphs_of Examples.town_hall) "SUMMARY KEYWORDS"
     (keywords Examples.town_hall_transcript)) /\
  (speakers Examples.town_hall_transcript = [] \/
   from_block (paragraphs_of Examples.town_hall) "SPEAKERS"
     (speakers Examples.town_hall_transcript)).
Proof.
  assert (H : parse_otter_docx "town_hall" Examples.town_hall
              = Returned (Some Examples.town_hall_transcript))
    by (vm_compute; reflexivity).
  exact (conj H (lists_come_from_labeled_blocks _ _ _ H)).
Defined.

(** X9.  The title of a transcript is its first paragraph, which is not
    empty, and the name of the file plays no part: the fallback to the stem
    of the path is never taken. *)
Theorem title_is_first_paragraph (docx_stem : string) (doc : list string)
    (t : Transcript) :
  parse_otter_docx docx_stem doc = Returned (Some t) ->
  nth_error (paragraphs_of doc) 0 = Some (title t) /\
  title t <> "" /\
  forall other_stem, parse_otter_docx other_stem doc = Returned (Some t).
Proof.
  intros Ht.
  destruct (parse_inv _ _ _ Ht) as (Hlen & _).
  destruct (HeaderFacts.parse_header _ _ _ Ht) as (Htitle & _ & _).
  assert (H0 : nth_error (paragraphs_of doc) 0 = Some (title t)).
  { rewrite Htitle. apply List.nth_error_nth'. lia. }
  split; [exact H0|]. split.
  - apply (HeaderFacts.paragraph_nonempty doc).
    eapply List.nth_error_In. exact H0.
  - intros other_stem. rewrite <- Ht. unfold parse_otter_docx.
    destruct (List.length (paragraphs_of doc) <? 3)%nat; [reflexivity|].
    rewrite (List.nth_indep (paragraphs_of doc) other_stem docx_stem);
      [reflexivity | lia].
Qed.

Lemma title_is_first_paragraph_witness :
  parse_otter_docx "town_hall" Examples.town_hall
    = Returned (Some Examples.town_hall_transcript) /\
  nth_error (paragraphs_of Examples.town_hall) 0
    = Some (title Examples.town_hall_transcript) /\
  title Examples.town_hall_transcript <> "" /\
  forall other_stem,
    parse_otter_docx other_stem Examples.town_hall
    = Returned (Some Examples.town_hall_transcript).
Proof.
  assert (H : parse_otter_docx "town_hall" Examples.town_hall
              = Returned (Some Examples.town_hall_transcript))
    by (vm_compute; reflexivity).
  exact (conj H (title_is_first_paragraph _ _ _ H)).
Defined.

Module TurnFacts.

Lemma on_text_spoken st para :
  Scan.on_text st para =
  if spoken para
  then {| Scan.segments := Scan.segments st;
          Scan.current_speaker := Scan.current_speaker st;
          Scan.current_start := Scan.current_start st;
          Scan.current_text := (Scan.current_text st ++ [para])%list;
          Scan.segment_index := Scan.segment_index st |}
  else st.
Proof. reflexivity. Qed.

(** Lines that are no timestamp lines add their spoken ones to the text. *)
Lemma run_texts texts : forall st,
  Forall (fun p => is_timestamp_line p = false) texts ->
  exists st',
    Scan.run st texts = Returned st' /\
    Scan.segments st' = Scan.segments st /\
    Scan.current_speaker st' = Scan.current_speaker st /\
    Scan.current_start st' = Scan.current_start st /\
    Scan.segment_index st' = Scan.segment_index st /\
    Scan.current_text st'
      = (Scan.current_text st ++ List.filter spoken texts)%list.
Proof.
  induction texts as [|p rest IH]; intros st Hall.
  - exists st. cbn [Scan.run List.filter]. rewrite List.app_nil_r. auto 10.
  - inversion Hall as [|? ? Hp Hrest]; subst.
    cbn [Scan.run]. unfold Scan.step. unfold is_timestamp_line in Hp.
    destruct (re_match timestamp_pattern p); [discriminate|]. cbn [bind].
    destruct (IH (Scan.on_text st p) Hrest) as (st' & -> & H1 & H2 & H3 & H4 & H5).
    exists st'. split; [reflexivity|].
    rewrite H1, H2, H3, H4, H5, on_text_spoken. cbn [List.filter].
    destruct (spoken p); cbn; auto 10.
    rewrite <- List.app_assoc. auto 10.
Qed.

Lemma flush_extends base st : extends base st -> extends base (Scan.flush st).
Proof.
  intros [more H]. unfold extends.
  destruct (flush_cases st)
    as [(start & line & rest & _ & _ & -> & _) | [_ ->]]; [|now exists more].
  rewrite H, <- List.app_assoc. eexists. reflexivity.
Qed.

Lemma step_extends base st para st' :
  extends base st -> Scan.step st para = Returned st' -> extends base st'.
Proof.
  intros H Hs. apply step_cases in Hs as [(m & start & _ & ->) | [_ ->]].
  - apply (flush_extends base st H).
  - rewrite on_text_spoken. destruct (spoken para); exact H.
Qed.

(** A started turn with text is appended by the flush. *)
Lemma flush_appends st start line rest :
  Scan.current_start st = Some start ->
  Scan.current_text st = line :: rest ->
  Scan.segments (Scan.flush st) =
    (Scan.segments st ++
      [{| p_segment_index := Scan.segment_index st;
          p_start_time := start;
          p_speaker := Scan.current_speaker st;
          p_text := Str.join " " (line :: rest) |}])%list.
Proof.
  intros Hs Ht. unfold Scan.flush. rewrite Hs, Ht. cbn. reflexivity.
Qed.

(** The turn inside a scan. *)
Lemma scan_turn before line texts after segs m tc v :
  Scan.scan (before ++ line :: texts ++ after) = Returned segs ->
  re_match timestamp_pattern line = Some m ->
  group m 2 = Some tc -> clock_value tc v ->
  Forall (fun p => is_timestamp_line p = false) texts ->
  List.filter spoken texts <> [] ->
  (after = [] \/
   exists next rest, after = next :: rest /\ is_timestamp_line next = true) ->
  exists seg,
    In seg segs /\
    p_start_time seg = v /\
    p_text seg = Str.join " " (List.filter spoken texts) /\
    (forall name, group m 1 = Some name -> name <> "" ->
                  p_speaker seg = Some (Str.strip name)).
Proof.
  intros Hscan Hm Hg Hv Htexts Hkept Hafter.
  unfold Scan.scan in Hscan. apply bind_inv in Hscan as (stf & Hrun & H).
  apply returned_inj in H. subst segs.
  rewrite LooseTextFacts.run_app in Hrun.
  apply bind_inv in Hrun as (st0 & _ & Hrun).
  cbn [Scan.run] in Hrun. apply bind_inv in Hrun as (st1 & Hstep & Hrun).
  unfold Scan.step in Hstep. rewrite Hm in Hstep.
  unfold Scan.on_timestamp in Hstep. rewrite Hg in Hstep.
  rewrite (ClockFacts.clock_seconds_value _ _ _ Hv) in Hstep.
  cbn [bind] in Hstep. apply returned_inj in Hstep.
  rewrite LooseTextFacts.run_app in Hrun.
  destruct (run_texts texts st1 Htexts) as (st2 & E2 & S1 & S2 & S3 & S4 & S5).
  rewrite E2 in Hrun. cbn [bind] in Hrun.
  assert (Hstart : Scan.current_start st2 = Some v)
    by (rewrite S3, <- Hstep; reflexivity).
  assert (Htext : Scan.current_text st2 = List.filter spoken texts)
    by (rewrite S5, <- Hstep; reflexivity).
  destruct (List.filter spoken texts) as [|l0 ls] eqn:Ek; [contradiction|].
  pose proof (flush_appends st2 v l0 ls Hstart Htext) as Hflush.
  set (seg := {| p_segment_index := Scan.segment_index st2;
                 p_start_time := v;
                 p_speaker := Scan.current_speaker st2;
                 p_text := Str.join " " (l0 :: ls) |}) in *.
  assert (Hin : In seg (Scan.segments (Scan.flush stf))).
  { destruct Hafter as [-> | (next & rest & -> & Hnext)].
    - cbn [Scan.run] in Hrun. apply returned_inj in Hrun. subst stf.
      rewrite Hflush. apply in_or_app. right. now left.
    - cbn [Scan.run] in Hrun. apply bind_inv in Hrun as (st3 & Hstep3 & Hrun).
      assert (Hext : extends (Scan.segments st2 ++ [seg]) st3).
      { apply step_cases in Hstep3 as [(m3 & s3 & _ & ->) | [Hno _]].
        - exists []. cbn [Scan.segments]. now rewrite Hflush, List.app_nil_r.
        - unfold is_timestamp_line in Hnext. now rewrite Hno in Hnext. }
      assert (Hf : extends (Scan.segments st2 ++ [seg]) (Scan.flush stf)).
      { apply flush_extends.
        eapply (run_invariant (extends (Scan.segments st2 ++ [seg])));
          [apply step_extends | exact Hext | exact Hrun]. }
      destruct Hf as [more ->].
      apply in_or_app. left. apply in_or_app. right. now left. }
  exists seg. split; [exact Hin|]. split; [reflexivity|]. split; [reflexivity|].
  intros name Hname Hne. cbn [seg p_speaker]. rewrite S2, <- Hstep.
  cbn [Scan.current_speaker]. unfold Scan.update_speaker. rewrite Hname.
  destruct name; [contradiction | reflexivity].
Qed.

End TurnFacts.

(** X10.  A turn of the body becomes a segment.  When a timestamp line of
    the body is followed by lines that are no timestamp lines, up to the
    next timestamp line or the end, and some of them count as text, then
    the transcript has a segment that starts at the value of the clock
    token and whose text is those lines joined by single spaces; when the
    line names a speaker, the segment carries that name, trimmed. *)
Theorem turn_becomes_segment (docx_stem : string) (doc : list string)
    (t : Transcript) (before : list string) (line : string)
    (texts after : list string) (m : caps) (tc : string) (v : Z) :
  parse_otter_docx docx_stem doc = Returned (Some t) ->
  List.skipn 6 (paragraphs_of doc) = (before ++ line :: texts ++ after)%list ->
  re_match timestamp_pattern line = Some m ->
  group m 2 = Some tc -> clock_value tc v ->
  Forall (fun p => is_timestamp_line p = false) texts ->
  List.filter spoken texts <> [] ->
  (after = [] \/
   exists next rest, after = next :: rest /\ is_timestamp_line next = true) ->
  exists seg,
    In seg (segments t) /\
    start_time seg = v /\
    text seg = Str.join " " (List.filter spoken texts) /\
    (forall name, group m 1 = Some name -> name <> "" ->
                  speaker seg = Some (Str.strip name)).
Proof.
  intros Ht Hbody Hm Hg Hv Htexts Hkept Hafter.
  destruct (parse_inv _ _ _ Ht) as (_ & dl & segs & _ & _ & _ & Hscan & Hsegs).
  rewrite Hbody in Hscan.
  destruct (TurnFacts.scan_turn _ _ _ _ _ _ _ _ Hscan Hm Hg Hv Htexts Hkept Hafter)
    as (p & Hin & H1 & H2 & H3).
  apply List.In_nth_error in Hin as [i Hi].
  exists (close_segment (duration_seconds t) segs i p).
  split.
  - rewrite Hsegs. apply (List.nth_error_In _ i).
    rewrite add_end_times_lookup, Hi. reflexivity.
  - cbn [close_segment start_time text speaker]. auto.
Qed.

(** The first turn of the sample export. *)
Lemma turn_becomes_segment_witness :
  exists seg,
    In seg (segments Examples.town_hall_transcript) /\
    start_time seg = 5%Z /\
    text seg = Str.join " " (List.filter spoken ["Good morning"; "and welcome."]) /\
    (forall name,
        group [(0, "Dan Goldin  0:05"); (2, "0:05"); (1, "Dan Goldin")] 1
          = Some name ->
        name <> "" -> speaker seg = Some (Str.strip name)).
Proof.
  apply (turn_becomes_segment "town_hall" Examples.town_hall
           Examples.town_hall_transcript [] "Dan Goldin  0:05"
           ["Good morning"; "and welcome."]
           ["Jane Doe  1:30"; "Thank you."; "Jane Doe  2:10"; "2:45";
            "Let us begin."]
           [(0, "Dan Goldin  0:05"); (2, "0:05"); (1, "Dan Goldin")]
           "0:05" 5%Z).
  - vm_compute. reflexivity.
  - vm_compute. reflexivity.
  - vm_compute. reflexivity.
  - reflexivity.
  - apply (value_ms "0" "05"); split; reflexivity.
  - repeat constructor.
  - vm_compute. discriminate.
  - right. exists "Jane Doe  1:30". eexists. split; [reflexivity|].
    vm_compute. reflexivity.
Defined.

Module LabelFacts.

Import ReFacts ClockFacts.

(** The matcher of the timestamp pattern, cut behind the first group. *)
Lemma timestamp_match s :
  re_match timestamp_pattern s =
  match rep false Chars.is_dot 1 None 0 s
          (fun t j s' => after_name t j s' [(1, t)]) with
  | Some m => Some m
  | None => after_name "" 0 s []
  end.
Proof. reflexivity. Qed.

(** A lazy repetition stops at the first length at which its
    continuation succeeds. *)
Lemma rep_lazy_first {A} p :
  forall a lo i rest (k : string -> nat -> string -> option A) r,
  Str.all p a = true -> (lo <= String.length a)%nat ->
  (forall a1 a2 j, a = a1 ++ a2 -> a2 <> "" ->
     k a1 j (a2 ++ rest) = None) ->
  (forall j, k a j rest = Some r) ->
  rep false p lo None i (a ++ rest) k = Some r.
Proof.
  induction a as [|x a IH]; intros lo i rest k r Hall Hlo Hnone Hk.
  - simpl in Hlo. assert (lo = 0%nat) by lia. subst lo.
    apply GreedyFacts.rep_lazy_stop. apply Hk.
  - simpl in Hall. apply andb_true_iff in Hall as [Hx Ha].
    cbn [append rep]. rewrite Hx. cbn [room andb less].
    assert (E : (if Nat.eqb lo 0 then k "" i (String x (a ++ rest)) else None)
                = None).
    { destruct (Nat.eqb lo 0); [|reflexivity].
      apply (Hnone "" (String x a) i); [reflexivity | discriminate]. }
    rewrite E.
    apply IH; auto.
    + simpl in Hlo. lia.
    + intros a1 a2 j Ea Hne. apply (Hnone (String x a1) a2 j); [|exact Hne].
      now rewrite Ea.
Qed.

(** A repetition whose continuation fails at every length fails. *)
Lemma rep_none {A} g p lo hi i s (k : string -> nat -> string -> option A) :
  (forall t s' j, s = t ++ s' -> (lo <= String.length t)%nat ->
     k t j s' = None) ->
  rep g p lo hi i s k = None.
Proof.
  intros H. destruct (rep g p lo hi i s k) as [a|] eqn:E; [|reflexivity].
  apply rep_sound in E as (t & s' & j & Es & _ & Hlo & _ & E).
  now rewrite (H t s' j Es Hlo) in E.
Qed.

(** What [after_name] accepts: blanks, a clock token, blanks. *)
Lemma after_name_shape t1 j s cs res :
  after_name t1 j s cs = Some res ->
  exists a tc w,
    s = a ++ tc ++ w /\ Str.all Chars.is_space a = true /\
    is_clock tc /\ Str.all Chars.is_space w = true.
Proof.
  unfold after_name. intros H.
  apply rmatch_sound in H as (t & s' & j' & cs' & -> & M & _).
  cbv [timestamp_rest seq star] in M.
  invert_matched.
  match goal with
  | H : matched clock _ ?tc _ _ |- _ =>
      apply clock_shape in H as [Hc _]; rename tc into token
  end.
  match goal with
  | |- exists a tc w, (?x ++ token ++ ?y ++ "") ++ ?z = _ /\ _ =>
      exists x, token, (y ++ z)
  end.
  split; [now rewrite StrFacts.app_nil_r, !StrFacts.app_assoc|].
  split; [assumption|]. split; [assumption|].
  rewrite StrFacts.all_app.
  match goal with
  | Hw : Str.all Chars.is_space ?w = true |- (Str.all _ ?w && _)%bool = true =>
      rewrite Hw
  end.
  match goal with
  | Htail : _ \/ _ |- _ => destruct Htail as [-> | ->]; reflexivity
  end.
Qed.

Lemma spaced_blank w : Str.all Chars.is_space w = true -> spaced 2 w = true.
Proof.
  induction w as [|c w IH]; cbn [Str.all spaced]; [reflexivity|].
  intros H. apply andb_true_iff in H as [-> H]. now apply IH.
Qed.

Lemma spaced_token t w :
  Str.all (fun c => negb (Chars.is_space c)) t = true ->
  Str.all Chars.is_space w = true -> spaced 1 (t ++ w) = true.
Proof.
  intros Ht Hw. induction t as [|c t IH]; cbn [append].
  - destruct w as [|c w]; [reflexivity|]. cbn [spaced].
    cbn [Str.all] in Hw. apply andb_true_iff in Hw as [-> Hw].
    now apply spaced_blank.
  - cbn [Str.all] in Ht. apply andb_true_iff in Ht as [Hc Ht].
    apply negb_true_iff in Hc. cbn [spaced]. rewrite Hc. now apply IH.
Qed.

Lemma spaced_from_2 s : spaced 2 s = true -> spaced 0 s = true.
Proof.
  induction s as [|c s IH]; cbn [spaced]; [reflexivity|].
  destruct (Chars.is_space c); [exact IH | discriminate].
Qed.

Lemma spaced_from_1 s : spaced 1 s = true -> spaced 0 s = true.
Proof.
  destruct s as [|c s]; cbn [spaced]; [reflexivity|].
  destruct (Chars.is_space c); [apply spaced_from_2 | auto].
Qed.

Lemma spaced_shape a t w :
  Str.all Chars.is_space a = true ->
  Str.all (fun c => negb (Chars.is_space c)) t = true ->
  Str.all Chars.is_space w = true -> spaced 0 (a ++ t ++ w) = true.
Proof.
  intros Ha Ht Hw. induction a as [|c a IH]; cbn [append].
  - now apply spaced_from_1, spaced_token.
  - cbn [Str.all] in Ha. apply andb_true_iff in Ha as [Hc Ha].
    cbn [spaced]. rewrite Hc. now apply IH.
Qed.

Lemma spaced_end mid d rest :
  Chars.is_space d = false -> spaced 2 (mid ++ String d rest) = false.
Proof.
  intros Hd. induction mid as [|x mid IH]; cbn [append spaced].
  - now rewrite Hd.
  - destruct (Chars.is_space x); [exact IH | reflexivity].
Qed.

(** No such text has a blank between two characters that are no
    blanks. *)
Lemma spaced_gap c w mid d rest : forall b phase,
  Chars.is_space c = false -> Chars.is_space w = true ->
  Chars.is_space d = false ->
  spaced phase (b ++ String c (String w (mid ++ String d rest))) = false.
Proof.
  intros b phase Hc Hw Hd. revert phase.
  induction b as [|x b IH]; intros phase; cbn [append].
  - destruct phase as [|[|phase]]; cbn [spaced]; rewrite Hc; try reflexivity;
      rewrite Hw; now apply spaced_end.
  - destruct phase as [|[|phase]]; cbn [spaced];
      destruct (Chars.is_space x); try apply IH; reflexivity.
Qed.

Lemma clock_not_blank tc :
  is_clock tc -> Str.all (fun c => negb (Chars.is_space c)) tc = true.
Proof.
  intros H. apply DurationFacts.clock_chars in H. revert H.
  apply StrFacts.all_impl. intros c Hc. unfold clock_char in Hc.
  apply orb_true_iff in Hc as [Hc | Hc].
  - now rewrite (GreedyFacts.digit_not_space c Hc).
  - apply Ascii.eqb_eq in Hc. subst c. reflexivity.
Qed.

Lemma clock_first tc : is_clock tc ->
  exists d rest, tc = String d rest /\ Chars.is_digit d = true.
Proof.
  intros [a b [Ha Hd] _ | a b c [Ha Hd] _ _]; destruct a as [|x a];
    try discriminate; cbn [Str.all] in Hd;
    apply andb_true_iff in Hd as [Hx _]; cbn [append]; eauto.
Qed.

Lemma suffix_last c : forall a1 a2 body,
  a1 ++ a2 = body ++ String c "" -> a2 <> "" ->
  exists b, a2 = b ++ String c "".
Proof.
  induction a1 as [|x a1 IH]; intros a2 body E Hne; cbn [append] in E.
  - now exists body.
  - destruct body as [|y body]; cbn [append] in E.
    + inversion E as [[Ex E']]. destruct a1; [|discriminate].
      cbn [append] in E'. contradiction.
    + inversion E as [[Ex E']]. now apply (IH a2 body).
Qed.

(** Behind a shorter speaker part the line cannot be completed. *)
Lemma shorter_name_fails body c ws T a1 a2 j cs :
  Chars.is_space c = false ->
  Str.all Chars.is_space ws = true -> ws <> "" -> is_clock T ->
  body ++ String c "" = a1 ++ a2 -> a2 <> "" ->
  after_name a1 j (a2 ++ (ws ++ T)) cs = None.
Proof.
  intros Hc Hws Hne HT E Ha2.
  destruct (after_name a1 j (a2 ++ (ws ++ T)) cs) as [res|] eqn:H;
    [|reflexivity].
  exfalso.
  apply after_name_shape in H as (a & tc & w & Es & Ha & Htc & Hw).
  pose proof (spaced_shape a tc w Ha (clock_not_blank tc Htc) Hw) as Hs.
  rewrite <- Es in Hs.
  destruct (suffix_last c a1 a2 body (eq_sym E) Ha2) as [b ->].
  destruct ws as [|x ws]; [contradiction|].
  cbn [Str.all] in Hws. apply andb_true_iff in Hws as [Hx _].
  destruct (clock_first T HT) as (d & rest & -> & Hd).
  rewrite StrFacts.app_assoc in Hs. cbn [append] in Hs.
  rewrite (spaced_gap c x ws d rest b 0 Hc Hx
             (GreedyFacts.digit_not_space d Hd)) in Hs.
  discriminate.
Qed.

(** Behind the whole speaker part the line is completed. *)
Lemma whole_name_succeeds name ws T j cs :
  Str.all Chars.is_space ws = true -> is_clock T ->
  after_name name j (ws ++ T) cs
  = Some ((0, name ++ (ws ++ T)) :: (2, T) :: cs).
Proof.
  intros Hws HT. unfold after_name.
  cbv [timestamp_rest seq star]. cbn [rmatch].
  apply (GreedyFacts.rep_greedy_all Chars.is_space ws 0 j T);
    [exact Hws | lia | now apply GreedyFacts.clock_blocks_space |].
  intros j1. apply GreedyFacts.clock_complete; [exact HT|].
  intros j2. cbn [rep Nat.eqb rmatch accept append].
  rewrite !StrFacts.app_nil_r. reflexivity.
Qed.

End LabelFacts.

(** X11.  A labeled timestamp line is read as its label and its time.
    When a line is a name without line break that does not end in a blank,
    then at least one blank, then a clock token, the timestamp pattern
    matches with the name as group 1 and the token as group 2, and the
    turn of the loop sets the speaker to the trimmed name and the start to
    the value of the token. *)
Theorem labeled_line_read (st : Scan.state) (body : string) (c : ascii)
    (ws T : string) (v : Z) :
  Str.all Chars.is_dot (body ++ String c "") = true ->
  Chars.is_space c = false ->
  Str.all Chars.is_space ws = true -> ws <> "" ->
  clock_value T v ->
  let name := body ++ String c "" in
  let line := name ++ (ws ++ T) in
  re_match timestamp_pattern line = Some [(0, line); (2, T); (1, name)] /\
  exists st',
    Scan.step st line = Returned st' /\
    Scan.current_speaker st' = Some (Str.strip name) /\
    Scan.current_start st' = Some v.
Proof.
  intros Hdot Hc Hws Hne Hv name line.
  assert (HT : is_clock T) by (destruct Hv; constructor; assumption).
  assert (Hm : re_match timestamp_pattern line
               = Some [(0, line); (2, T); (1, name)]).
  { rewrite LabelFacts.timestamp_match. unfold line.
    rewrite (LabelFacts.rep_lazy_first Chars.is_dot name 1 0 (ws ++ T) _
               [(0, name ++ (ws ++ T)); (2, T); (1, name)]);
      [reflexivity | exact Hdot | | | ].
    - unfold name. rewrite StrFacts.length_app. cbn. lia.
    - intros a1 a2 j E Ha2.
      now apply (LabelFacts.shorter_name_fails body c ws T a1 a2 j).
    - intros j. now apply LabelFacts.whole_name_succeeds. }
  split; [exact Hm|].
  unfold Scan.step. rewrite Hm.
  unfold Scan.on_timestamp. cbn [group Nat.eqb].
  rewrite (ClockFacts.clock_seconds_value _ T v Hv). cbn [bind].
  eexists. split; [reflexivity|]. cbn [Scan.current_speaker Scan.current_start].
  split; [|reflexivity].
  unfold Scan.update_speaker.
  assert (Hn : Str.nonempty name = true).
  { unfold name. destruct body; reflexivity. }
  now rewrite Hn.
Qed.

Lemma labeled_line_read_witness :
  re_match timestamp_pattern "Speaker 1  0:05"
    = Some [(0, "Speaker 1  0:05"); (2, "0:05"); (1, "Speaker 1")] /\
  exists st',
    Scan.step Scan.init "Speaker 1  0:05" = Returned st' /\
    Scan.current_speaker st' = Some (Str.strip "Speaker 1") /\
    Scan.current_start st' = Some 5%Z.
Proof.
  apply (labeled_line_read Scan.init "Speaker " "1" "  " "0:05" 5%Z).
  - reflexivity.
  - reflexivity.
  - reflexivity.
  - discriminate.
  - apply (value_ms "0" "05"); split; reflexivity.
Defined.

Module BareFacts.

Import ReFacts ClockFacts.

Lemma clock_has_colon tc :
  is_clock tc -> Str.all Chars.is_digit tc = false.
Proof.
  intros [a b _ _ | a b c _ _ _]; rewrite StrFacts.all_app; cbn [Str.all];
    change (Chars.is_digit ":") with false; cbn [andb];
    apply andb_false_r.
Qed.

(** Nothing that is left of [d:b] behind a speaker part can be read as a
    timestamp. *)
Lemma rest_fails d b a1 a2 j cs :
  Chars.is_digit d = true -> digits b ->
  String d (String ":" b) = a1 ++ a2 -> a1 <> "" ->
  after_name a1 j a2 cs = None.
Proof.
  intros Hd [_ Hb] E Ha1.
  destruct (after_name a1 j a2 cs) as [res|] eqn:H; [|reflexivity].
  exfalso.
  apply LabelFacts.after_name_shape in H as (a & tc & w & -> & Ha & Htc & Hw).
  destruct a1 as [|x a1]; [contradiction|].
  cbn [append] in E. inversion E as [[Ex E1]]; subst x. clear E.
  destruct a1 as [|y a1]; cbn [append] in E1.
  - (* the rest is ":b" *)
    destruct a as [|z a]; cbn [append] in E1.
    + destruct (LabelFacts.clock_first tc Htc) as (z & rest & -> & Hz).
      cbn [append] in E1. inversion E1; subst z. discriminate Hz.
    + inversion E1; subst z. cbn [Str.all] in Ha. discriminate Ha.
  - (* the rest is a part of "b" *)
    inversion E1 as [[Ey E2]]; subst y.
    rewrite E2 in Hb. rewrite !StrFacts.all_app in Hb.
    rewrite (clock_has_colon tc Htc) in Hb.
    cbn [andb] in Hb. rewrite !andb_false_r in Hb. discriminate Hb.
Qed.

End BareFacts.

(** X12.  A bare timestamp line with a one-digit first field and two
    fields, such as ["0:16"], has no speaker part: the pattern matches
    without group 1, and the turn of the loop keeps the speaker that the
    pending segment had and sets the start to the value of the token. *)
Theorem bare_short_timestamp_keeps_speaker (st : Scan.state) (d : ascii)
    (b : string) :
  Chars.is_digit d = true -> digits b ->
  let T := String d (String ":" b) in
  re_match timestamp_pattern T = Some [(0, T); (2, T)] /\
  exists st',
    Scan.step st T = Returned st' /\
    Scan.current_speaker st' = Scan.current_speaker st /\
    Scan.current_start st'
      = Some (digits_value 0 (String d "") * 60 + digits_value 0 b)%Z.
Proof.
  intros Hd Hb T.
  assert (Hda : digits (String d "")).
  { split; [reflexivity|]. cbn [Str.all]. now rewrite Hd. }
  assert (Hv : clock_value T (digits_value 0 (String d "") * 60
                              + digits_value 0 b)%Z)
    by (apply (value_ms (String d "") b); assumption).
  assert (HT : is_clock T) by (apply (clock_ms (String d "") b); assumption).
  assert (Hm : re_match timestamp_pattern T = Some [(0, T); (2, T)]).
  { rewrite LabelFacts.timestamp_match.
    rewrite LabelFacts.rep_none.
    - apply (LabelFacts.whole_name_succeeds "" "" T 0 []); [reflexivity | exact HT].
    - intros t s' j E Hlo.
      destruct t as [|x t]; [cbn in Hlo; lia|].
      apply (BareFacts.rest_fails d b (String x t) s' j);
        [exact Hd | exact Hb | exact E | discriminate]. }
  split; [exact Hm|].
  unfold Scan.step. rewrite Hm.
  unfold Scan.on_timestamp. cbn [group Nat.eqb].
  rewrite (ClockFacts.clock_seconds_value _ T _ Hv). cbn [bind].
  eexists. split; [reflexivity|]. cbn [Scan.current_speaker Scan.current_start].
  split; [|reflexivity].
  cbn [Scan.update_speaker].
  destruct (flush_cases st) as [(_ & _ & _ & _ & _ & _ & _ & -> & _) | [_ ->]];
    reflexivity.
Qed.

Lemma bare_short_timestamp_keeps_speaker_witness :
  re_match timestamp_pattern "0:16" = Some [(0, "0:16"); (2, "0:16")] /\
  exists st',
    Scan.step Scan.init "0:16" = Returned st' /\
    Scan.current_speaker st' = Scan.current_speaker Scan.init /\
    Scan.current_start st'
      = Some (digits_value 0 "0" * 60 + digits_value 0 "16")%Z.
Proof.
  apply (bare_short_timestamp_keeps_speaker Scan.init "0" "16").
  - reflexivity.
  - split; reflexivity.
Defined.

(* ===================================================================== *)
(** * The batch upload *)
(* ===================================================================== *)

Module BatchFacts.

Section Loop.

Variable md5 : string -> N.
Variable s3_bucket : string.
Variable seconds : Type.
Variable positive : seconds -> bool.

Local Abbreviation step := (upload_one md5 s3_bucket positive).

Lemma step_tally (l : Library seconds) f :
  (uploaded (step l f) + skipped_videos (step l f) + failed (step l f)
   = S (uploaded l + skipped_videos l + failed l))%nat.
Proof.
  unfold upload_one.
  destruct (query_raises f); [cbn; lia|].
  destruct (known l (name f)); [cbn; lia|].
  destruct (stat_size f); [|cbn; lia].
  destruct (upload_raises f); [cbn; lia|].
  destruct (commit_raises f); cbn; lia.
Qed.

Lemma loop_tally files : forall l : Library seconds,
  (uploaded (fold_left step files l) + skipped_videos (fold_left step files l)
   + failed (fold_left step files l)
   = uploaded l + skipped_videos l + failed l + List.length files)%nat.
Proof.
  induction files as [|f files IH]; intros l; cbn [fold_left List.length];
    [lia|].
  rewrite IH, step_tally. lia.
Qed.

Lemma known_in (l : Library seconds) n :
  known l n = false -> ~ In n (video_names l).
Proof.
  unfold known, video_names. intros H Hin.
  apply in_map_iff in Hin as (v & Hv & Hin).
  assert (E : existsb (fun v => String.eqb (v_original_filename v) n) (videos l)
             = true).
  { apply existsb_exists. exists v. split; [exact Hin|].
    rewrite Hv. apply String.eqb_refl. }
  congruence.
Qed.

Lemma upload_nodup (l : Library seconds) f :
  NoDup (video_names l) -> NoDup (video_names (step l f)).
Proof.
  intros H. unfold upload_one.
  destruct (query_raises f); [exact H|].
  destruct (known l (name f)) eqn:Ek; [exact H|].
  destruct (stat_size f); [|exact H].
  destruct (upload_raises f); [exact H|].
  destruct (commit_raises f); [exact H|].
  unfold video_names. cbn [videos]. rewrite List.map_app. cbn [List.map].
  cbn [v_original_filename].
  apply NoDup_app; [exact H | repeat constructor; intros [] | ].
  intros x Hx [<- | []]. now apply known_in in Ek.
Qed.

Lemma batch_nodup files : forall l : Library seconds,
  NoDup (video_names l) -> NoDup (video_names (fold_left step files l)).
Proof.
  induction files as [|f files IH]; intros l H; [exact H|].
  cbn [fold_left]. apply IH. now apply upload_nodup.
Qed.

(** The rows and the objects that a run adds. *)
Lemma step_registered (l : Library seconds) f :
  (videos (step l f) = videos l /\
   uploaded (step l f) = uploaded l /\
   (objects (step l f) = objects l \/
    objects (step l f)
      = (objects l ++ [(video_s3_key md5 (path_str f) (name f), path_str f)])%list))
  \/
  (exists v,
     videos (step l f) = (videos l ++ [v])%list /\
     uploaded (step l f) = S (uploaded l) /\
     objects (step l f) = (objects l ++ [(v_s3_key v, path_str f)])%list /\
     registered md5 s3_bucket f v /\ known l (name f) = false).
Proof.
  unfold upload_one.
  destruct (query_raises f); [left; auto|].
  destruct (known l (name f)) eqn:Ek; [left; auto|].
  destruct (stat_size f) as [file_size|]; [|left; auto].
  destruct (upload_raises f); [left; auto|].
  destruct (commit_raises f); [left; cbn; auto|].
  right. eexists. cbn [videos uploaded objects].
  split; [reflexivity|]. split; [reflexivity|]. split; [reflexivity|].
  split; [|reflexivity].
  unfold registered. cbn. auto 10.
Qed.

Lemma loop_registered files : forall l : Library seconds,
  exists vs os,
    videos (fold_left step files l) = (videos l ++ vs)%list /\
    objects (fold_left step files l) = (objects l ++ os)%list /\
    uploaded (fold_left step files l) = (uploaded l + List.length vs)%nat /\
    Forall (fun v => exists f, In f files /\ registered md5 s3_bucket f v /\
                               In (v_s3_key v, path_str f) os) vs.
Proof.
  induction files as [|f files IH]; intros l.
  - exists [], []. cbn. rewrite !List.app_nil_r. repeat split; auto.
  - cbn [fold_left].
    destruct (IH (step l f)) as (vs & os & Hv & Ho & Hu & Hall).
    assert (Hweak : forall os0,
      Forall (fun v => exists g, In g files /\ registered md5 s3_bucket g v /\
                                 In (v_s3_key v, path_str g) os) vs ->
      Forall (fun v => exists g, In g (f :: files) /\
                                 registered md5 s3_bucket g v /\
                                 In (v_s3_key v, path_str g) (os0 ++ os)) vs).
    { intros os0. apply Forall_impl. intros v (g & Hg & Hr & Hin).
      exists g. split; [now right|]. split; [exact Hr|].
      apply in_or_app. now right. }
    destruct (step_registered l f)
      as [(E1 & E2 & [E3 | E3]) | (v & E1 & E2 & E3 & Hr & _)].
    + exists vs, os. rewrite Hv, Ho, Hu, E1, E2, E3.
      repeat split; auto. apply (Hweak []). exact Hall.
    + exists vs, ((video_s3_key md5 (path_str f) (name f), path_str f) :: os).
      rewrite Hv, Ho, Hu, E1, E2, E3, <- List.app_assoc.
      repeat split; auto.
      apply (Hweak [(video_s3_key md5 (path_str f) (name f), path_str f)]).
      exact Hall.
    + exists (v :: vs), ((v_s3_key v, path_str f) :: os).
      rewrite Hv, Ho, Hu, E1, E2, E3, <- !List.app_assoc. cbn [List.app List.length].
      repeat split; auto; try lia.
      constructor.
      * exists f. split; [now left|]. split; [exact Hr|]. now left.
      * apply (Hweak [(v_s3_key v, path_str f)]). exact Hall.
Qed.

End Loop.

End BatchFacts.

(** X13.  Every file of a run is counted once: when [batch_upload] is
    done, the numbers of uploaded, skipped and failed files add up to the
    number of files found, whatever raised on the way. *)
Theorem batch_counts_every_file (md5 : string -> N) (s3_bucket : string)
    (seconds : Type) (positive : seconds -> bool) (l : Library seconds)
    (video_files : list (VideoFile seconds)) :
  let l' := batch_upload md5 s3_bucket positive l video_files in
  (uploaded l' + skipped_videos l' + failed l' = List.length video_files)%nat.
Proof.
  cbn zeta. unfold batch_upload. rewrite BatchFacts.loop_tally. cbn. lia.
Qed.

(** X14.  The table never gets two videos with the same original file
    name: of two files with one name in different folders only the first
    is registered. *)
Theorem one_video_per_name (md5 : string -> N) (s3_bucket : string)
    (seconds : Type) (positive : seconds -> bool) (l : Library seconds)
    (video_files : list (VideoFile seconds)) :
  NoDup (video_names l) ->
  NoDup (video_names (batch_upload md5 s3_bucket positive l video_files)).
Proof.
  intros H. unfold batch_upload. apply BatchFacts.batch_nodup. exact H.
Qed.

(** X15.  A run only appends, and every row it adds stands for an upload
    of this run: the rows added are as many as the counter of uploads
    says, and each of them is the row of one of the files, with the key
    computed from its path and name, and the object of that key and file
    is in the bucket.  (The converse fails: when the insertion raises, the
    object stays without a row.) *)
Theorem rows_have_objects (md5 : string -> N) (s3_bucket : string)
    (seconds : Type) (positive : seconds -> bool) (l : Library seconds)
    (video_files : list (VideoFile seconds)) :
  let l' := batch_upload md5 s3_bucket positive l video_files in
  exists vs os,
    videos l' = (videos l ++ vs)%list /\
    objects l' = (objects l ++ os)%list /\
    List.length vs = uploaded l' /\
    Forall (fun v => exists f, In f video_files /\
                               registered md5 s3_bucket f v /\
                               In (v_s3_key v, path_str f) os) vs.
Proof.
  cbn zeta. unfold batch_upload.
  destruct (BatchFacts.loop_registered md5 s3_bucket seconds positive video_files
              {| videos := videos l; objects := objects l; uploaded := 0;
                 skipped_videos := 0; failed := 0 |})
    as (vs & os & Hv & Ho & Hu & Hall).
  exists vs, os. rewrite Hv, Ho, Hu. cbn. auto.
Qed.

(** Two files with one name in two folders: only the first is
    registered. *)
Lemma one_video_per_name_witness :
  NoDup (video_names
           (batch_upload (fun _ => 0%N) "archive" (fun d => (0 <? d)%Z)
              MoreExamples.empty_library
              [MoreExamples.launch_video; MoreExamples.launch_copy])) /\
  video_names
    (batch_upload (fun _ => 0%N) "archive" (fun d => (0 <? d)%Z)
       MoreExamples.empty_library [MoreExamples.launch_video; MoreExamples.launch_copy])
  = ["launch.MP4"].
Proof.
  split; [|vm_compute; reflexivity].
  apply one_video_per_name. constructor.
Defined.

(** X16.  The dry run lists at most ten names and then announces
    [len(video_files) - 10] more: with ten files or more the two add up to
    the number of files, with fewer than ten all the names are listed
    and the number announced is negative. *)
Theorem dry_run_announces (names : list string) :
  let r := dry_run_report names in
  ((10 <= List.length names)%nat ->
     List.length (would_upload r) = 10%nat /\
     (Z.of_nat (List.length (would_upload r)) + and_more r
      = Z.of_nat (List.length names))%Z) /\
  ((List.length names < 10)%nat ->
     would_upload r = names /\ (and_more r < 0)%Z).
Proof.
  cbn zeta. unfold dry_run_report. cbn [would_upload and_more]. split; intros H.
  - rewrite List.length_firstn. split; lia.
  - split; [apply List.firstn_all2; lia | lia].
Qed.

Lemma dry_run_announces_witness :
  List.length (would_upload (dry_run_report ["a.mp4"; "b.mp4"; "c.mov"])) = 3%nat /\
  would_upload (dry_run_report ["a.mp4"; "b.mp4"; "c.mov"])
    = ["a.mp4"; "b.mp4"; "c.mov"] /\
  (and_more (dry_run_report ["a.mp4"; "b.mp4"; "c.mov"]) < 0)%Z.
Proof.
  split; [reflexivity|].
  apply (proj2 (dry_run_announces ["a.mp4"; "b.mp4"; "c.mov"])).
  cbn. lia.
Defined.

(** X17.  The key and the format of a video file.  For a name made of a
    stem that is not empty, a dot and one of the extensions that
    [batch_upload] looks for, the key is
    [videos/<sanitised stem>_<first 8 of the MD5 of the path>.<ext>] with
    the extension in lower case, and that extension is the format of the
    row.  For a name that is a dot and the extension alone, the path has no
    suffix: the format is empty and the key ends in a dot. *)
Theorem video_key_of_name (md5 : string -> N) (seconds : Type)
    (f : VideoFile seconds) (stem ext : string) :
  In ext ["mp4"; "mov"; "MP4"; "MOV"] ->
  name f = stem ++ String "." ext ->
  let file_hash := Str.take 8 (hex_fixed 32 (md5 (path_str f))) in
  (stem <> "" ->
     video_s3_key md5 (path_str f) (name f)
       = "videos/" ++ sanitize stem ++ "_" ++ file_hash ++ "."
           ++ Str.map Chars.lower ext /\
     video_format f = Str.map Chars.lower ext /\
     In (video_format f) ["mp4"; "mov"]) /\
  (stem = "" ->
     video_s3_key md5 (path_str f) (name f) = "videos/_" ++ file_hash ++ "." /\
     video_format f = "").
Proof.
  intros Hext Hname file_hash.
  assert (Hd : Str.contains "." ext = false /\ ext <> "" /\
               Str.lstrip_char "." (Str.map Chars.lower (String "." ext))
                 = Str.map Chars.lower ext /\
               In (Str.map Chars.lower ext) ["mp4"; "mov"]).
  { cbn [In] in Hext.
    destruct Hext as [<- | [<- | [<- | [<- | []]]]];
      (split; [reflexivity|]); (split; [discriminate|]);
      (split; [reflexivity|]); cbn; auto. }
  destruct Hd as (Hdot & Hne & Hlow & Hin).
  unfold video_s3_key, video_format. rewrite Hname.
  rewrite KeyFacts.sanitize_before_last_dot,
          (PathFacts.before_last_dot_ext ext stem Hdot).
  split.
  - intros Hs. rewrite (PathFacts.path_suffix_ext stem ext Hs Hne Hdot), Hlow.
    split; [reflexivity|]. split; [reflexivity | exact Hin].
  - intros ->. cbn [append].
    rewrite (PathFacts.path_suffix_hidden ext Hdot). split; reflexivity.
Qed.

Lemma video_key_of_name_witness :
  video_s3_key (fun _ => 0%N) (path_str MoreExamples.launch_video)
    (name MoreExamples.launch_video)
  = "videos/" ++ sanitize "launch" ++ "_"
      ++ Str.take 8 (hex_fixed 32 0%N) ++ "." ++ Str.map Chars.lower "MP4" /\
  video_format MoreExamples.launch_video = Str.map Chars.lower "MP4" /\
  In (video_format MoreExamples.launch_video) ["mp4"; "mov"].
Proof.
  apply (proj1 (video_key_of_name (fun _ => 0%N) Z MoreExamples.launch_video
                  "launch" "MP4"
                  (or_intror (or_intror (or_introl eq_refl))) eq_refl)).
  discriminate.
Defined.

Module EventFacts.

Lemma prefix_spec p : forall s,
  String.prefix p s = true <-> exists b, s = p ++ b.
Proof.
  induction p as [|x p IH]; intros s.
  - destruct s; cbn [String.prefix append]; split; eauto.
  - destruct s as [|y s]; cbn [String.prefix append].
    + split; [discriminate | intros [b H]; discriminate].
    + destruct (Ascii.ascii_dec x y) as [<- | Hne].
      * rewrite IH. split; intros [b H]; exists b; [now rewrite H | now inversion H].
      * split; [discriminate | intros [b H]; congruence].
Qed.

Lemma str_drop_app p : forall b, str_drop (String.length p) (p ++ b) = b.
Proof. induction p as [|x p IH]; intros b; [now destruct b | apply IH]. Qed.

Lemma contains_sub_spec sub : forall s,
  contains_sub sub s = true <-> occurs sub s.
Proof.
  induction s as [|c s IH]; cbn [contains_sub].
  - destruct (String.prefix sub "") eqn:E.
    + split; [|reflexivity]. intros _.
      apply prefix_spec in E as [b E]. exists "", b. exact E.
    + split; [discriminate|]. intros (a & b & H).
      destruct a; [|discriminate].
      assert (P : String.prefix sub "" = true)
        by (apply prefix_spec; exists b; exact H).
      congruence.
  - destruct (String.prefix sub (String c s)) eqn:E.
    + split; [|reflexivity]. intros _.
      apply prefix_spec in E as [b E]. exists "", b. exact E.
    + rewrite IH. split.
      * intros (a & b & ->). now exists (String c a), b.
      * intros (a & b & H). destruct a as [|x a]; cbn [append] in H.
        -- assert (P : String.prefix sub (String c s) = true)
             by (apply prefix_spec; exists b; exact H).
           congruence.
        -- inversion H; subst. now exists a, b.
Qed.

(** [s.split(sep, 1)] cuts at the first occurrence, and gives [s] alone
    when there is none. *)
Lemma split_first_spec sep : forall s,
  (occurs sep s ->
     exists a b, split_first sep s = [a; b] /\ first_cut sep s a b) /\
  (~ occurs sep s -> split_first sep s = [s]).
Proof.
  induction s as [|c s IH]; cbn [split_first].
  - destruct (String.prefix sep "") eqn:E.
    + apply prefix_spec in E as [b E]. split.
      * intros _. exists "", (str_drop (String.length sep) "").
        split; [reflexivity|]. split; [|intros; cbn; lia].
        cbn [append]. rewrite E at 2. now rewrite str_drop_app.
      * intros H. exfalso. apply H. exists "", b. exact E.
    + split; [|reflexivity]. intros H.
      apply contains_sub_spec in H. cbn [contains_sub] in H.
      rewrite E in H. discriminate.
  - destruct (String.prefix sep (String c s)) eqn:E.
    + apply prefix_spec in E as [b E]. split.
      * intros _. exists "", (str_drop (String.length sep) (String c s)).
        split; [reflexivity|]. split; [|intros; cbn; lia].
        cbn [append]. rewrite E at 2. now rewrite str_drop_app.
      * intros H. exfalso. apply H. exists "", b. exact E.
    + destruct IH as [IHyes IHno]. split.
      * intros (a & b & H). destruct a as [|x a]; cbn [append] in H.
        { assert (P : String.prefix sep (String c s) = true)
            by (apply prefix_spec; exists b; exact H).
          congruence. }
        inversion H; subst x s.
        destruct IHyes as (a0 & b0 & -> & Hcut & Hmin); [now exists a, b|].
        exists (String c a0), b0. split; [reflexivity|]. split.
        -- cbn [append]. now rewrite <- Hcut.
        -- intros a' b' H'. destruct a' as [|x a']; cbn [append] in H'.
           ++ assert (P : String.prefix sep (String c (a ++ sep ++ b)) = true)
                by (apply prefix_spec; exists b'; exact H').
              congruence.
           ++ inversion H' as [[Hx H'']]. cbn [String.length].
              specialize (Hmin a' b' H''). lia.
      * intros H.
        assert (Hs : ~ occurs sep s).
        { intros (a & b & ->). apply H. now exists (String c a), b. }
        now rewrite (IHno Hs).
Qed.

(** The event name is cut from the first part that holds [" - "]. *)
Lemma find_event_spec : forall parts,
  match Meta.find_event parts with
  | Some event =>
      exists before part rest a b,
        parts = (before ++ part :: rest)%list /\
        Forall (fun p => ~ occurs " - " p) before /\
        first_cut " - " part a b /\
        event = Str.strip b
  | None => Forall (fun p => ~ occurs " - " p) parts
  end.
Proof.
  intros parts.
  induction parts as [|part rest IH]; cbn [Meta.find_event]; [constructor|].
  destruct (contains_sub " - " part) eqn:E.
  - apply contains_sub_spec in E.
    destruct (proj1 (split_first_spec " - " part) E) as (a & b & -> & Hcut).
    exists [], part, rest, a, b. repeat split; auto; apply Hcut.
  - assert (Hno : ~ occurs " - " part).
    { intros H. apply contains_sub_spec in H. congruence. }
    destruct (Meta.find_event rest) as [event|].
    + destruct IH as (before & p & after & a & b & -> & Hb & Hcut & ->).
      exists (part :: before), p, after, a, b. repeat split; auto; apply Hcut.
    + now constructor.
Qed.

End EventFacts.

(** X18.  The event name of a path comes from the first of its parts
    that holds [" - "]: it is the trimmed text behind the first [" - "] of
    that part, whatever part it is (a folder in front of the dated folder
    wins over it); there is no event name exactly when no part holds
    [" - "]. *)
Theorem event_name_from_first_dashed_part (path_str : string)
    (parts : list string) :
  match Meta.event_name (Meta.extract_metadata_from_path path_str parts) with
  | Some event =>
      exists before part rest a b,
        parts = (before ++ part :: rest)%list /\
        Forall (fun p => ~ occurs " - " p) before /\
        first_cut " - " part a b /\
        event = Str.strip b
  | None => Forall (fun p => ~ occurs " - " p) parts
  end.
Proof. cbn [Meta.extract_metadata_from_path Meta.event_name]. apply EventFacts.find_event_spec. Qed.

Module CliFacts.

(** The loop over the arguments, from any values of the two variables. *)
Lemma arg_loop_spec : forall rest persona upload,
  let r := Cli.arg_loop rest persona upload in
  (snd r = false <-> upload = false \/ In "--no-upload" rest) /\
  (Forall (fun a => a = "--no-upload") rest -> fst r = persona) /\
  (forall before p after,
      rest = (before ++ p :: after)%list -> p <> "--no-upload" ->
      Forall (fun a => a = "--no-upload") after -> fst r = Some p).
Proof.
  induction rest as [|arg rest IH]; intros persona upload; cbn zeta.
  - cbn [Cli.arg_loop fst snd In]. split; [tauto|]. split; [reflexivity|].
    intros [|] ? ? H; discriminate H.
  - cbn [Cli.arg_loop].
    destruct (String.eqb_spec arg "--no-upload") as [-> | Hne].
    + destruct (IH persona false) as (I1 & I2 & I3). split; [|split].
      * rewrite I1. cbn [In]. tauto.
      * intros H. inversion H; subst. now apply I2.
      * intros [|x before] p after E Hp Hall; cbn [List.app] in E;
          inversion E; subst; [contradiction|].
        now apply (I3 before p after).
    + destruct (IH (Some arg) upload) as (I1 & I2 & I3). split; [|split].
      * rewrite I1. cbn [In]. split; [intros [H | H]; auto | intros [H | [H | H]]; auto].
        now contradiction Hne.
      * intros H. inversion H; subst. contradiction.
      * intros [|x before] p after E Hp Hall; cbn [List.app] in E;
          inversion E; subst.
        -- now apply I2.
        -- now apply (I3 before p after).
Qed.

End CliFacts.

(** X19.  The command line.  Fewer than two arguments give the usage
    message.  Otherwise the directory is the second argument; the audio is
    uploaded unless [--no-upload] stands somewhere behind it; and the
    persona is the last argument behind the directory that is not
    [--no-upload], none when there is no such argument. *)
Theorem command_line_read (argv : list string) :
  match Cli.main argv with
  | None => (List.length argv < 2)%nat
  | Some a =>
      (2 <= List.length argv)%nat /\
      nth_error argv 1 = Some (Cli.export_dir a) /\
      (Cli.upload_audio a = false <-> In "--no-upload" (List.skipn 2 argv)) /\
      (Forall (fun x => x = "--no-upload") (List.skipn 2 argv) ->
         Cli.persona_name a = None) /\
      (forall before p after,
          List.skipn 2 argv = (before ++ p :: after)%list ->
          p <> "--no-upload" ->
          Forall (fun x => x = "--no-upload") after ->
          Cli.persona_name a = Some p)
  end.
Proof.
  unfold Cli.main.
  destruct (Nat.ltb_spec (List.length argv) 2) as [Hlt | Hge]; [exact Hlt|].
  cbn [Cli.export_dir Cli.upload_audio Cli.persona_name].
  destruct (CliFacts.arg_loop_spec (List.skipn 2 argv) None true)
    as (I1 & I2 & I3).
  split; [exact Hge|]. split; [apply List.nth_error_nth'; lia|].
  split; [|split; assumption].
  rewrite I1. split; [intros [H | H]; [discriminate | exact H] | auto].
Qed.

Module RunFacts.

Import ReFacts.

Lemma take_app t : forall b, Str.take (String.length t) (t ++ b) = t.
Proof.
  induction t as [|c t IH]; intros b; cbn [String.length Str.take append].
  - now destruct b.
  - now rewrite IH.
Qed.

Lemma take_drop n : forall s, s = Str.take n s ++ str_drop n s.
Proof.
  induction n as [|n IH]; intros [|c s]; cbn [Str.take str_drop append];
    try reflexivity.
  now rewrite <- IH.
Qed.

(** A repetition of exactly [n] characters takes [n] characters of the
    class. *)
Lemma rep_exact {A} p : forall a lo i rest
    (k : string -> nat -> string -> option A) r,
  Str.all p a = true -> (lo <= String.length a)%nat ->
  (forall j, k a j rest = Some r) ->
  rep true p lo (Some (String.length a)) i (a ++ rest) k = Some r.
Proof.
  induction a as [|x a IH]; intros lo i rest k r Hall Hlo Hk.
  - cbn [String.length] in *. assert (lo = 0%nat) by lia. subst lo.
    cbn [append]. destruct rest as [|c rest]; cbn [rep room andb Nat.eqb].
    + apply Hk.
    + rewrite andb_false_r. apply Hk.
  - cbn [Str.all] in Hall. apply andb_true_iff in Hall as [Hx Ha].
    cbn [append String.length rep]. rewrite Hx. cbn [room andb less pred].
    rewrite (IH (pred lo) (S i) rest (fun t => k (String x t)) r); auto.
    cbn [String.length] in Hlo. lia.
Qed.

(** The compact date pattern at one position: the next eight characters
    must be digits. *)
Lemma compact_at i s :
  rmatch date_compact i s [] accept =
  if (Nat.eqb (String.length (Str.take 8 s)) 8
      && Str.all Chars.is_digit (Str.take 8 s))%bool
  then Some [(0, Str.take 8 s); (1, Str.take 8 s)]
  else None.
Proof.
  destruct (Nat.eqb (String.length (Str.take 8 s)) 8
            && Str.all Chars.is_digit (Str.take 8 s))%bool eqn:E.
  - apply andb_true_iff in E as [El Ed]. apply Nat.eqb_eq in El.
    rewrite (take_drop 8 s) at 1.
    cbv [date_compact times]. cbn [rmatch].
    rewrite <- El at 2.
    apply rep_exact; [exact Ed | lia | reflexivity].
  - destruct (rmatch date_compact i s [] accept) as [m|] eqn:H; [|reflexivity].
    exfalso.
    apply rmatch_sound in H as (t & s' & j & cs' & -> & M & _).
    cbv [date_compact times] in M. invert_matched.
    match goal with
    | H1 : Str.all Chars.is_digit ?t = true,
      H2 : (8 <= String.length ?t)%nat,
      H3 : fits (Some 8) (String.length ?t) |- _ =>
        cbn [fits] in H3;
        assert (Hl : String.length t = 8%nat) by lia;
        assert (Et : Str.take 8 (t ++ s') = t)
          by (rewrite <- Hl; apply take_app);
        rewrite Et, Hl, H1 in E
    end.
    discriminate E.
Qed.

Lemma compact_search : forall s i,
  search_from date_compact i s =
  match leftmost_digits 8 s with
  | Some t => Some [(0, t); (1, t)]
  | None => None
  end.
Proof.
  induction s as [|c s IH]; intros i; cbn [search_from leftmost_digits];
    rewrite compact_at.
  - destruct (Nat.eqb (String.length (Str.take 8 "")) 8
              && Str.all Chars.is_digit (Str.take 8 ""))%bool; reflexivity.
  - destruct (Nat.eqb (String.length (Str.take 8 (String c s))) 8
              && Str.all Chars.is_digit (Str.take 8 (String c s)))%bool;
      [reflexivity | apply IH].
Qed.

End RunFacts.

(** X20.  The event date of a path is read from its leftmost eight
    consecutive digits, wherever they stand, also inside a longer number,
    and from no later ones: when these digits are no calendar date, the
    only other source is a folder that begins with six digits and [" -"]. *)
Theorem event_date_from_leftmost_digits (path_str : string)
    (parts : list string) :
  Meta.event_date (Meta.extract_metadata_from_path path_str parts) =
  match leftmost_digits 8 path_str with
  | Some date_str =>
      match Strptime.strptime Strptime.fmt_compact date_str with
      | Some d => Some d
      | None => Meta.date_from_month path_str
      end
  | None => Meta.date_from_month path_str
  end.
Proof.
  cbn [Meta.extract_metadata_from_path Meta.event_date].
  unfold Meta.find_date, Meta.date_from_day, re_search.
  rewrite RunFacts.compact_search.
  destruct (leftmost_digits 8 path_str) as [t|]; reflexivity.
Qed.
